(** * Synthetic maintenance data generator: model and verification

    A shallow embedding of [maintenance_app/synthetic_maintenance_data.py].

    Numbers: Python floats are idealised as the real numbers [R]; Python
    integers are [Z].  Randomness: the two global generators the script
    draws from (the [random] module and [numpy.random]) are explicit
    streams threaded through every function that draws, in the order the
    source draws.  Mutated objects ([MachineBehavior] instances, the
    module-level variables of the driver) are passed and returned. *)

From Stdlib Require Import Reals Lra Lia ZArith List Bool.
From Stdlib Require String.
Import ListNotations.

Open Scope R_scope.

(** ** Comparisons of the source as boolean tests *)

Definition Rltb (x y : R) : bool := if Rlt_dec x y then true else false.
Definition Rgtb (x y : R) : bool := Rltb y x.

(** ** [round(x, ndigits)]: nearest multiple of [10^-ndigits], ties to even *)

Definition round_half_even (y : R) : Z :=
  let f := Zfloor y in
  let r := y - IZR f in
  if Rltb r (1 / 2) then f
  else if Rgtb r (1 / 2) then (f + 1)%Z
  else if Z.even f then f else (f + 1)%Z.

Definition py_round (x : R) (ndigits : nat) : R :=
  IZR (round_half_even (x * 10 ^ ndigits)) / 10 ^ ndigits.

(** ** [range(lo, hi)] *)

Definition range (lo hi : Z) : list Z :=
  map (fun i => (lo + Z.of_nat i)%Z) (seq 0 (Z.to_nat (hi - lo))).

(** ** The random generators

    [random.random()] and numpy's uniform primitive return a float in
    [[0, 1)]; a draw is a real number carrying that range.  A standard
    normal draw is any real number. *)

Record U01 : Type := mkU01 { u01 :> R; u01_range : 0 <= u01 < 1 }.

Record Rng : Type := mkRng {
  py_stream : nat -> U01;          (* random.random() *)
  np_uniform_stream : nat -> U01;  (* numpy uniform primitive *)
  np_normal_stream : nat -> R      (* numpy standard normal primitive *)
}.

Definition tl_stream {A : Type} (s : nat -> A) : nat -> A := fun n => s (S n).

Definition Rand (A : Type) : Type := Rng -> A * Rng.

Definition ret {A : Type} (a : A) : Rand A := fun g => (a, g).

Definition bind {A B : Type} (c : Rand A) (k : A -> Rand B) : Rand B :=
  fun g => let (a, g') := c g in k a g'.

Notation "x <- c ;; k" := (bind c (fun x => k))
  (at level 61, c at next level, right associativity).

Definition random_random : Rand R := fun g =>
  (u01 (py_stream g 0),
   mkRng (tl_stream (py_stream g)) (np_uniform_stream g) (np_normal_stream g)).

(** [random.uniform(a, b)] is [a + (b - a) * random()]. *)
Definition random_uniform (a b : R) : Rand R :=
  u <- random_random ;; ret (a + (b - a) * u).

Definition np_random_uniform (low high : R) : Rand R := fun g =>
  (low + (high - low) * u01 (np_uniform_stream g 0),
   mkRng (py_stream g) (tl_stream (np_uniform_stream g)) (np_normal_stream g)).

Definition np_random_normal (loc scale : R) : Rand R := fun g =>
  (loc + scale * np_normal_stream g 0,
   mkRng (py_stream g) (np_uniform_stream g) (tl_stream (np_normal_stream g))).

(** ** Configuration constants of the script *)

Definition NUM_MACHINES : Z := 10.
Definition DAYS_PER_CYCLE : Z := 180.
Definition NUM_CYCLES : Z := 10.

(** ** class MachineBehavior *)

Record MachineBehavior : Type := mkMachine {
  machine_id : Z;
  age : R;
  quality : R;
  wear_resistance : R;
  bearing_wear : R;
  motor_degradation : R;
  thermal_stress : R;
  lubrication_quality : R;
  base_temp : R;
  base_vib : R;
  base_rpm : R;
  cycles_since_service : Z;
  total_operating_hours : Z;
  stress_accumulation : R;
  maintenance_quality : R;
  previous_failures : Z;
  last_maintenance_effectiveness : R;
  (* created on first use by check_failure_risk or apply_maintenance;
     [None] while the attribute does not exist *)
  intermittent_fault_active : option bool
}.

Record SensorReadings : Type := mkReadings {
  temperature : R;
  vibration : R;
  rpm : R;
  load : R
}.

(** [hasattr(self, 'intermittent_fault_active') and
    self.intermittent_fault_active] *)
Definition fault_active (m : MachineBehavior) : bool :=
  match intermittent_fault_active m with
  | Some b => b
  | None => false
  end.

Definition MachineBehavior_init (id : Z) : Rand MachineBehavior :=
  a <- np_random_uniform 0.1 8.0 ;;
  q <- np_random_uniform 0.7 1.0 ;;
  wr <- np_random_uniform 0.5 1.5 ;;
  bt <- np_random_uniform 58 68 ;;
  bv <- np_random_uniform 0.04 0.12 ;;
  br <- np_random_uniform 1420 1480 ;;
  mq <- np_random_uniform 0.7 1.0 ;;
  ret {| machine_id := id;
         age := a;
         quality := q;
         wear_resistance := wr;
         bearing_wear := 0.0;
         motor_degradation := 0.0;
         thermal_stress := 0.0;
         lubrication_quality := 1.0;
         base_temp := bt;
         base_vib := bv;
         base_rpm := br;
         cycles_since_service := 0;
         total_operating_hours := 0;
         stress_accumulation := 0.0;
         maintenance_quality := mq;
         previous_failures := 0;
         last_maintenance_effectiveness := 1.0;
         intermittent_fault_active := None |}.

(** The seasonal production factor of [generate_load_pattern]. *)
Definition seasonal_factor (day : Z) : R :=
  let day_of_year := (day mod 365)%Z in
  1.0 + 0.1 * sin (2 * PI * IZR day_of_year / 365).

(** Lines 69-89 of [generate_load_pattern]: the weekly, monthly and seasonal
    schedule, before the random production anomalies. *)
Definition scheduled_load (day : Z) : Rand R :=
  let day_of_week := (day mod 7)%Z in
  base_load <-
    (if (day_of_week =? 5)%Z || (day_of_week =? 6)%Z
     then np_random_normal 50 5
     else np_random_normal 68 8) ;;
  base_load <-
    (if (day mod 30 <? 5)%Z
     then s <- np_random_uniform 10 20 ;; ret (base_load + s)
     else if (day mod 30 >? 25)%Z
     then s <- np_random_uniform 5 15 ;; ret (base_load - s)
     else ret base_load) ;;
  ret (base_load * seasonal_factor day).

(** Lines 91-95: the random production anomalies, an [if]/[elif] pair. *)
Definition production_anomaly (base_load : R) : Rand R :=
  r1 <- random_random ;;
  if Rltb r1 0.1
  then s <- np_random_uniform 15 30 ;; ret (base_load + s)
  else
    r2 <- random_random ;;
    if Rltb r2 0.08
    then s <- np_random_uniform 10 25 ;; ret (base_load - s)
    else ret base_load.

Definition generate_load_pattern (day cycle_day : Z) : Rand R :=
  base_load <- scheduled_load day ;;
  base_load <- production_anomaly base_load ;;
  ret (Rmax 35 (Rmin 98 base_load)).

(** The anomalies as the specification words them: two independent tests,
    so that a surge and a dip can both be applied on the same day.  Stated
    for comparison with [production_anomaly]. *)
Definition production_anomaly_independent (base_load : R) : Rand R :=
  r1 <- random_random ;;
  base_load <-
    (if Rltb r1 0.1
     then s <- np_random_uniform 15 30 ;; ret (base_load + s)
     else ret base_load) ;;
  r2 <- random_random ;;
  if Rltb r2 0.08
  then s <- np_random_uniform 10 25 ;; ret (base_load - s)
  else ret base_load.

Definition generate_load_pattern_independent (day cycle_day : Z) : Rand R :=
  base_load <- scheduled_load day ;;
  base_load <- production_anomaly_independent base_load ;;
  ret (Rmax 35 (Rmin 98 base_load)).

Definition update_degradation (self : MachineBehavior)
    (sensor_readings : SensorReadings) (day_in_cycle : Z) : MachineBehavior :=
  let temp := temperature sensor_readings in
  let vibration := vibration sensor_readings in
  let rpm := rpm sensor_readings in
  let load := load sensor_readings in
  let age_factor := Rmin 2.0 (1.0 + age self / 10) in
  let bearing_wear_rate :=
    (vibration * 0.5 + load / 100 * 0.1) * (1 / wear_resistance self) in
  let bearing_wear' :=
    Rmin 1.0 (bearing_wear self + bearing_wear_rate * 0.001 * age_factor) in
  let rpm_variation := Rabs (rpm - base_rpm self) / base_rpm self in
  let thermal_cycles := Rmax 0 ((temp - 65) / 20) in
  let motor_degradation' :=
    Rmin 1.0 (motor_degradation self
              + (rpm_variation + thermal_cycles) * 0.0005) in
  let lubrication_degradation := if Rgtb temp 75 then 0.998 else 0.9995 in
  let lubrication_quality' :=
    Rmax 0.1 (lubrication_quality self * lubrication_degradation) in
  let daily_stress :=
    load / 100 * 0.1 + vibration * 0.5 + Rmax 0 (temp - 65) / 50 in
  {| machine_id := machine_id self;
     age := age self;
     quality := quality self;
     wear_resistance := wear_resistance self;
     bearing_wear := bearing_wear';
     motor_degradation := motor_degradation';
     thermal_stress := thermal_stress self;
     lubrication_quality := lubrication_quality';
     base_temp := base_temp self;
     base_vib := base_vib self;
     base_rpm := base_rpm self;
     cycles_since_service := cycles_since_service self;
     total_operating_hours := (total_operating_hours self + 24)%Z;
     stress_accumulation := stress_accumulation self + daily_stress;
     maintenance_quality := maintenance_quality self;
     previous_failures := previous_failures self;
     last_maintenance_effectiveness := last_maintenance_effectiveness self;
     intermittent_fault_active := intermittent_fault_active self |}.

(** The seasonal ambient term of [calculate_sensor_readings]; the method
    receives only the day within the cycle. *)
Definition seasonal_temp_effect (day_in_cycle : Z) : R :=
  let day_of_year := (day_in_cycle mod 365)%Z in
  3 * sin (2 * PI * IZR day_of_year / 365).

(** The ambient term as the specification words it: the same formula over
    the absolute day index of the run.  Stated for comparison with
    [seasonal_temp_effect]. *)
Definition seasonal_ambient_of_absolute_day (day : Z) : R :=
  3 * sin (2 * PI * IZR (day mod 365) / 365).

Definition calculate_sensor_readings (self : MachineBehavior)
    (day_in_cycle : Z) (current_load : R) : Rand SensorReadings :=
  let load_factor := current_load / 100.0 in
  let temp_load_effect := load_factor * 8 in
  let temp_load_effect :=
    if Rgtb load_factor 0.75
    then temp_load_effect + (load_factor - 0.75) * 15
    else temp_load_effect in
  let temperature :=
    base_temp self + temp_load_effect + bearing_wear self * 3
    + (1 - lubrication_quality self) * 8 + seasonal_temp_effect day_in_cycle in
  let vibration :=
    base_vib self + load_factor * 0.05 + bearing_wear self * 0.15
    + motor_degradation self * 0.1 in
  let rpm_stability :=
    2 + motor_degradation self * 5 + bearing_wear self * 4 in
  n <- np_random_normal 0 rpm_stability ;;
  let rpm := base_rpm self + n in
  let rpm :=
    if Rgtb current_load 80
       && (Rgtb (motor_degradation self) 0.3 || Rgtb (bearing_wear self) 0.4)
    then rpm - (current_load - 80) * 0.4
    else rpm in
  tvr <-
    (if fault_active self then
       r <- random_random ;;
       vibration <-
         (if Rltb r 0.6
          then f <- random_uniform 1.1 1.8 ;; ret (vibration * f)
          else ret vibration) ;;
       r <- random_random ;;
       temperature <-
         (if Rltb r 0.4
          then d <- random_uniform 1 6 ;; ret (temperature + d)
          else ret temperature) ;;
       r <- random_random ;;
       rpm <-
         (if Rltb r 0.3
          then d <- random_uniform (-10) 10 ;; ret (rpm + d)
          else ret rpm) ;;
       ret (temperature, vibration, rpm)
     else ret (temperature, vibration, rpm)) ;;
  let '(temperature, vibration, rpm) := tvr in
  n <- np_random_normal 0 0.7 ;;
  let temperature := temperature + n in
  n <- np_random_normal 0 0.012 ;;
  let vibration := vibration + n in
  n <- np_random_normal 0 1.5 ;;
  let rpm := rpm + n in
  r <- random_random ;;
  temperature <-
    (if Rltb r 0.008
     then d <- np_random_uniform 3 10 ;; ret (temperature + d)
     else ret temperature) ;;
  r <- random_random ;;
  vibration <-
    (if Rltb r 0.006
     then d <- np_random_uniform 0.05 0.15 ;; ret (vibration + d)
     else ret vibration) ;;
  ret {| temperature := Rmax 40 (Rmin 95 (py_round temperature 2));
         vibration := Rmax 0.02 (Rmin 0.5 (py_round vibration 4));
         rpm := Rmax 1380 (py_round rpm 1);
         load := py_round current_load 1 |}.

Definition set_intermittent_fault_active (self : MachineBehavior)
    (v : option bool) : MachineBehavior :=
  {| machine_id := machine_id self;
     age := age self;
     quality := quality self;
     wear_resistance := wear_resistance self;
     bearing_wear := bearing_wear self;
     motor_degradation := motor_degradation self;
     thermal_stress := thermal_stress self;
     lubrication_quality := lubrication_quality self;
     base_temp := base_temp self;
     base_vib := base_vib self;
     base_rpm := base_rpm self;
     cycles_since_service := cycles_since_service self;
     total_operating_hours := total_operating_hours self;
     stress_accumulation := stress_accumulation self;
     maintenance_quality := maintenance_quality self;
     previous_failures := previous_failures self;
     last_maintenance_effectiveness := last_maintenance_effectiveness self;
     intermittent_fault_active := v |}.

Definition set_cycles_since_service (self : MachineBehavior) (v : Z)
    : MachineBehavior :=
  {| machine_id := machine_id self;
     age := age self;
     quality := quality self;
     wear_resistance := wear_resistance self;
     bearing_wear := bearing_wear self;
     motor_degradation := motor_degradation self;
     thermal_stress := thermal_stress self;
     lubrication_quality := lubrication_quality self;
     base_temp := base_temp self;
     base_vib := base_vib self;
     base_rpm := base_rpm self;
     cycles_since_service := v;
     total_operating_hours := total_operating_hours self;
     stress_accumulation := stress_accumulation self;
     maintenance_quality := maintenance_quality self;
     previous_failures := previous_failures self;
     last_maintenance_effectiveness := last_maintenance_effectiveness self;
     intermittent_fault_active := intermittent_fault_active self |}.

Definition set_previous_failures (self : MachineBehavior) (v : Z)
    : MachineBehavior :=
  {| machine_id := machine_id self;
     age := age self;
     quality := quality self;
     wear_resistance := wear_resistance self;
     bearing_wear := bearing_wear self;
     motor_degradation := motor_degradation self;
     thermal_stress := thermal_stress self;
     lubrication_quality := lubrication_quality self;
     base_temp := base_temp self;
     base_vib := base_vib self;
     base_rpm := base_rpm self;
     cycles_since_service := cycles_since_service self;
     total_operating_hours := total_operating_hours self;
     stress_accumulation := stress_accumulation self;
     maintenance_quality := maintenance_quality self;
     previous_failures := v;
     last_maintenance_effectiveness := last_maintenance_effectiveness self;
     intermittent_fault_active := intermittent_fault_active self |}.

(** [np.prod([1 - r for r in risks])] *)
Definition np_prod (l : list R) : R := fold_left Rmult l 1.

(** The five per-mode risks and the age risk of [check_failure_risk], in the
    order of the [risks] list. *)
Definition failure_mode_risks (self : MachineBehavior)
    (sensor_readings : SensorReadings) (day_in_cycle : Z) : list R :=
  let temp := temperature sensor_readings in
  let vibration := vibration sensor_readings in
  let rpm := rpm sensor_readings in
  let load := load sensor_readings in
  let bearing_risk :=
    if Rgtb vibration 0.18 && Rgtb (bearing_wear self) 0.5 then 0.6
    else if Rgtb vibration 0.25 then 0.8
    else if Rgtb (bearing_wear self) 0.8 then 0.7
    else 0 in
  let motor_risk :=
    if Rgtb temp 78 && Rgtb rpm (base_rpm self + 20) then 0.5
    else if Rgtb temp 82 then 0.7
    else if Rgtb (motor_degradation self) 0.6 && Rgtb temp 70 then 0.4
    else 0 in
  let lubrication_risk :=
    if Rltb (lubrication_quality self) 0.3 && Rgtb temp 70 then 0.5
    else if Rltb (lubrication_quality self) 0.1 then 0.8
    else 0 in
  let stress_risk :=
    if Rgtb (stress_accumulation self) 30 && (day_in_cycle >? 100)%Z
    then Rmin 0.6 (stress_accumulation self / 60)
    else 0 in
  let degradation_score :=
    bearing_wear self + motor_degradation self
    + (1 - lubrication_quality self) in
  let combined_risk :=
    if Rgtb degradation_score 1.2 && Rgtb load 70
    then Rmin 0.9 (degradation_score / 2.0)
    else 0 in
  let age_risk :=
    if Rgtb (age self) 5 then Rmin 0.3 ((age self - 5) * 0.06) else 0 in
  [bearing_risk; motor_risk; lubrication_risk; stress_risk; combined_risk;
   age_risk].

(** Returns the risk and the machine, whose [intermittent_fault_active]
    attribute the method may create or set. *)
Definition check_failure_risk (self : MachineBehavior)
    (sensor_readings : SensorReadings) (day_in_cycle : Z)
    : Rand (R * MachineBehavior) :=
  let temp := temperature sensor_readings in
  let vibration := vibration sensor_readings in
  let age_risk_factor := Rmin 2.0 (1.0 + age self / 15) in
  let risks := failure_mode_risks self sensor_readings day_in_cycle in
  let failure_risk := 1 - np_prod (map (fun r => 1 - r) risks) in
  let failure_risk := failure_risk * age_risk_factor in
  let self :=
    match intermittent_fault_active self with
    | None => set_intermittent_fault_active self (Some false)
    | Some _ => self
    end in
  self <-
    (if Rgtb failure_risk 0.4 && negb (fault_active self)
     then
       r <- random_random ;;
       if Rltb r 0.3
       then ret (set_intermittent_fault_active self (Some true))
       else ret self
     else ret self) ;;
  let failure_risk :=
    if Rgtb temp 85 || Rgtb vibration 0.35
       || Rgtb (bearing_wear self) 0.95
       || Rltb (lubrication_quality self) 0.05
    then 1.0
    else failure_risk in
  r <- random_random ;;
  let failure_risk := if Rltb r 0.0002 then 1.0 else failure_risk in
  ret (Rmin 1.0 failure_risk, self).

(** The body of [apply_maintenance] once [effectiveness] is known. *)
Definition apply_maintenance_with (self : MachineBehavior)
    (effectiveness : R) : MachineBehavior :=
  {| machine_id := machine_id self;
     age := age self;
     quality := quality self;
     wear_resistance := wear_resistance self;
     bearing_wear := bearing_wear self * (0.2 + 0.5 * (1 - effectiveness));
     motor_degradation :=
       motor_degradation self * (0.3 + 0.5 * (1 - effectiveness));
     thermal_stress := thermal_stress self;
     lubrication_quality :=
       Rmin 1.0 (lubrication_quality self + 0.6 * effectiveness);
     base_temp := base_temp self;
     base_vib := base_vib self;
     base_rpm := base_rpm self;
     cycles_since_service := cycles_since_service self;
     total_operating_hours := total_operating_hours self;
     stress_accumulation :=
       stress_accumulation self * (0.1 + 0.3 * (1 - effectiveness));
     maintenance_quality := maintenance_quality self;
     previous_failures := previous_failures self;
     last_maintenance_effectiveness := effectiveness;
     intermittent_fault_active := Some false |}.

Definition apply_maintenance (self : MachineBehavior) : Rand MachineBehavior :=
  u <- random_uniform 0.8 1.0 ;;
  let effectiveness := maintenance_quality self * u in
  ret (apply_maintenance_with self effectiveness).

(** ** The main data generation loop *)

Record Config : Type := mkConfig {
  num_machines : Z;
  days_per_cycle : Z;
  num_cycles : Z
}.

Definition default_config : Config :=
  {| num_machines := NUM_MACHINES;
     days_per_cycle := DAYS_PER_CYCLE;
     num_cycles := NUM_CYCLES |}.

Record Row : Type := mkRow {
  row_machine_id : Z;
  row_cycle : Z;
  row_day : Z;
  row_day_in_cycle : Z;
  row_temperature : R;
  row_vibration : R;
  row_rpm : R;
  row_load : R;
  row_service_flag : Z;
  row_failure_event : Z
}.

(** The module-level variables of the script.  [machines] holds the machine
    objects; the loop variable [machine] refers to one of them by position.
    The three loop variables are unbound until the first cycle start assigns
    them and are not read before. *)
Record Globals : Type := mkGlobals {
  g_rng : Rng;
  machines : list MachineBehavior;
  rows : list Row;
  failure_occurred : bool;
  consecutive_high_risk_days : Z;
  intermittent_fault_days : Z
}.

Fixpoint list_set {A : Type} (k : nat) (x : A) (l : list A) : list A :=
  match l, k with
  | [], _ => []
  | _ :: t, O => x :: t
  | h :: t, S k' => h :: list_set k' x t
  end.

(** [machines = [MachineBehavior(i) for i in range(1, NUM_MACHINES + 1)]] *)
Fixpoint create_machines (ids : list Z) : Rand (list MachineBehavior) :=
  match ids with
  | [] => ret []
  | i :: rest =>
      m <- MachineBehavior_init i ;;
      ms <- create_machines rest ;;
      ret (m :: ms)
  end.

(** Lines 303-311: the start of one machine's cycle.  The loop only visits
    positions that hold a machine; at any other position nothing happens. *)
Definition cycle_start (cycle : Z) (k : nat) (st : Globals) : Globals :=
  match nth_error (machines st) k with
  | None => st
  | Some machine =>
      let '(machine, g) :=
        if (cycle >? 1)%Z
        then apply_maintenance machine (g_rng st)
        else (machine, g_rng st) in
      let machine :=
        set_cycles_since_service machine
          (cycles_since_service machine + 1)%Z in
      {| g_rng := g;
         machines := list_set k machine (machines st);
         rows := rows st;
         failure_occurred := false;
         consecutive_high_risk_days := 0;
         intermittent_fault_days := 0 |}
  end.

(** Lines 335-353: whether a failure is recorded today.  Returns
    [failure_event], the new [failure_occurred] and the machine. *)
Definition determine_failure (failure_occurred : bool)
    (consecutive_high_risk_days intermittent_fault_days : Z)
    (failure_risk : R) (machine : MachineBehavior)
    : Rand (Z * bool * MachineBehavior) :=
  if negb failure_occurred then
    let probability_multiplier :=
      1.0 + IZR consecutive_high_risk_days * 0.2 in
    let probability_multiplier :=
      if (intermittent_fault_days >? 5)%Z
      then probability_multiplier * 1.5
      else probability_multiplier in
    let effective_risk := failure_risk * probability_multiplier in
    if Rgtb effective_risk 0.85
    then ret (1%Z, true,
              set_previous_failures machine (previous_failures machine + 1)%Z)
    else
      r <- random_random ;;
      if Rltb r (effective_risk * 0.1)
      then ret (1%Z, true,
                set_previous_failures machine
                  (previous_failures machine + 1)%Z)
      else ret (0%Z, failure_occurred, machine)
  else ret (0%Z, failure_occurred, machine).

(** Lines 315-370: one simulated day of one machine. *)
Definition day_body (cfg : Config) (cycle : Z) (k : nat) (day_in_cycle : Z)
    (st : Globals) : Globals :=
  match nth_error (machines st) k with
  | None => st
  | Some machine =>
      let global_day :=
        ((cycle - 1) * days_per_cycle cfg + day_in_cycle)%Z in
      let '(current_load, g) :=
        generate_load_pattern global_day day_in_cycle (g_rng st) in
      let '(sensor_readings, g) :=
        calculate_sensor_readings machine day_in_cycle current_load g in
      let machine := update_degradation machine sensor_readings day_in_cycle in
      let '(failure_risk, machine, g) :=
        check_failure_risk machine sensor_readings day_in_cycle g in
      let consecutive_high_risk_days :=
        if Rgtb failure_risk 0.6
        then (consecutive_high_risk_days st + 1)%Z
        else 0%Z in
      let intermittent_fault_days :=
        if fault_active machine
        then (intermittent_fault_days st + 1)%Z
        else 0%Z in
      let '(failure_event, failure_occurred, machine, g) :=
        determine_failure (failure_occurred st) consecutive_high_risk_days
          intermittent_fault_days failure_risk machine g in
      let service_flag :=
        if (day_in_cycle =? 1)%Z && (cycle >? 1)%Z then 1%Z else 0%Z in
      {| g_rng := g;
         machines := list_set k machine (machines st);
         rows := rows st ++
           [ {| row_machine_id := machine_id machine;
                row_cycle := cycle;
                row_day := global_day;
                row_day_in_cycle := day_in_cycle;
                row_temperature := temperature sensor_readings;
                row_vibration := vibration sensor_readings;
                row_rpm := rpm sensor_readings;
                row_load := load sensor_readings;
                row_service_flag := service_flag;
                row_failure_event := failure_event |} ];
         failure_occurred := failure_occurred;
         consecutive_high_risk_days := consecutive_high_risk_days;
         intermittent_fault_days := intermittent_fault_days |}
  end.

(** [for day_in_cycle in range(1, DAYS_PER_CYCLE + 1)] *)
Definition day_loop (cfg : Config) (cycle : Z) (k : nat) (st : Globals)
    : Globals :=
  fold_left (fun st day_in_cycle => day_body cfg cycle k day_in_cycle st)
    (range 1 (days_per_cycle cfg + 1)) st.

(** One iteration of [for machine in machines]. *)
Definition machine_body (cfg : Config) (cycle : Z) (st : Globals) (k : nat)
    : Globals :=
  day_loop cfg cycle k (cycle_start cycle k st).

Definition machine_loop (cfg : Config) (cycle : Z) (st : Globals) : Globals :=
  fold_left (machine_body cfg cycle) (seq 0 (length (machines st))) st.

(** [for cycle in range(1, NUM_CYCLES + 1)] *)
Definition cycle_loop (cfg : Config) (st : Globals) : Globals :=
  fold_left (fun st cycle => machine_loop cfg cycle st)
    (range 1 (num_cycles cfg + 1)) st.

Definition initial_globals (cfg : Config) (g : Rng) : Globals :=
  let '(ms, g) := create_machines (range 1 (num_machines cfg + 1)) g in
  {| g_rng := g;
     machines := ms;
     rows := [];
     failure_occurred := false;
     consecutive_high_risk_days := 0;
     intermittent_fault_days := 0 |}.

Definition main (cfg : Config) (g : Rng) : Globals :=
  cycle_loop cfg (initial_globals cfg g).

(** How a run of the script ends: it either completes, with the records it
    hands to the CSV writer, or raises. *)
Inductive Outcome : Type :=
| Completed (dataset : list Row)
| Raised (message : String.string).

(** The script has no [raise] and no check of its configuration. *)
Definition run_script (cfg : Config) (g : Rng) : Outcome :=
  Completed (rows (main cfg g)).

(** ** Predicates of the specification *)

Definition sensor_ok (sr : SensorReadings) : Prop :=
  40 <= temperature sr <= 95 /\
  0.02 <= vibration sr <= 0.5 /\
  1380 <= rpm sr /\
  35 <= load sr <= 98.

Definition flag (z : Z) : Prop := z = 0%Z \/ z = 1%Z.

Definition row_ok (r : Row) : Prop :=
  40 <= row_temperature r <= 95 /\
  0.02 <= row_vibration r <= 0.5 /\
  1380 <= row_rpm r /\
  35 <= row_load r <= 98 /\
  flag (row_failure_event r) /\
  flag (row_service_flag r).

Definition hidden_state_ok (m : MachineBehavior) : Prop :=
  0 <= bearing_wear m <= 1 /\
  0 <= motor_degradation m <= 1 /\
  0.1 <= lubrication_quality m <= 1.

(** The ranges [__init__] draws the fixed parameters from. *)
Definition parameters_ok (m : MachineBehavior) : Prop :=
  0.1 <= age m <= 8 /\
  0.5 <= wear_resistance m <= 1.5 /\
  1420 <= base_rpm m <= 1480 /\
  0.7 <= maintenance_quality m <= 1.

Definition machine_ok (m : MachineBehavior) : Prop :=
  parameters_ok m /\ hidden_state_ok m.

(** ** The run as a sequence of loop-body executions

    The nested loops execute [cycle_start] and [day_body] in a fixed order;
    the points of a run are the states after each prefix of that order. *)

Inductive Step : Type :=
| StepCycleStart (cycle : Z) (k : nat)
| StepDay (cycle : Z) (k : nat) (day_in_cycle : Z).

Definition exec (cfg : Config) (st : Globals) (s : Step) : Globals :=
  match s with
  | StepCycleStart cycle k => cycle_start cycle k st
  | StepDay cycle k day_in_cycle => day_body cfg cycle k day_in_cycle st
  end.

Definition machine_steps (cfg : Config) (cycle : Z) (k : nat) : list Step :=
  StepCycleStart cycle k
    :: map (StepDay cycle k) (range 1 (days_per_cycle cfg + 1)).

Definition schedule (cfg : Config) (n_machines : nat) : list Step :=
  flat_map
    (fun cycle => flat_map (machine_steps cfg cycle) (seq 0 n_machines))
    (range 1 (num_cycles cfg + 1)).

(** The state after the first [n] loop-body executions of a run. *)
Definition run_prefix (cfg : Config) (g : Rng) (n : nat) : Globals :=
  let st := initial_globals cfg g in
  fold_left (exec cfg) (firstn n (schedule cfg (List.length (machines st)))) st.

(** ** The records a run is expected to hold *)

(** Machine, cycle and day within the cycle of a record. *)
Definition row_key (r : Row) : Z * Z * Z :=
  (row_machine_id r, row_cycle r, row_day_in_cycle r).

(** One key per machine-day, in the order cycle, machine, day. *)
Definition expected_keys (cfg : Config) : list (Z * Z * Z) :=
  flat_map
    (fun cycle =>
       flat_map
         (fun id =>
            map (fun d => (id, cycle, d)) (range 1 (days_per_cycle cfg + 1)))
         (range 1 (num_machines cfg + 1)))
    (range 1 (num_cycles cfg + 1)).

(** The keys of the records one loop-body execution appends, given the ids
    of the machines by position. *)
Definition step_keys (ids : list Z) (s : Step) : list (Z * Z * Z) :=
  match s with
  | StepCycleStart _ _ => []
  | StepDay cycle k d =>
      match nth_error ids k with
      | Some id => [(id, cycle, d)]
      | None => []
      end
  end.

(** ** Failure records within a machine's cycle *)

Definition same_machine_cycle (r1 r2 : Row) : Prop :=
  row_machine_id r1 = row_machine_id r2 /\ row_cycle r1 = row_cycle r2.

(** The records of machine [mid] in cycle [cyc] that carry a failure. *)
Definition failures_of (mid cyc : Z) (l : list Row) : list Row :=
  filter
    (fun r =>
       (row_machine_id r =? mid)%Z && (row_cycle r =? cyc)%Z
       && (row_failure_event r =? 1)%Z)
    l.

(** Once a record of a machine's cycle carries a failure, every later record
    of the same machine and cycle carries none. *)
Definition no_failure_after_failure (l : list Row) : Prop :=
  forall i j r1 r2,
    (i < j)%nat ->
    nth_error l i = Some r1 ->
    nth_error l j = Some r2 ->
    same_machine_cycle r1 r2 ->
    row_failure_event r1 = 1%Z ->
    row_failure_event r2 = 0%Z.

(** The same property, following the order in which records are appended. *)
Inductive Quiet : list Row -> Prop :=
| Quiet_nil : Quiet []
| Quiet_snoc (l : list Row) (r : Row) :
    Quiet l ->
    (forall r0, In r0 l -> same_machine_cycle r0 r ->
                row_failure_event r0 = 1%Z -> row_failure_event r = 0%Z) ->
    Quiet (l ++ [r]).

(** Machine ids by position, as the driver creates them. *)
Definition ids_wf (ids : list Z) : Prop :=
  forall k id, nth_error ids k = Some id -> id = (1 + Z.of_nat k)%Z.

(** Every record was appended before the cycle of machine [k] in [cycle]. *)
Definition rows_before (cycle : Z) (k : nat) (l : list Row) : Prop :=
  Forall
    (fun r =>
       (row_cycle r < cycle)%Z \/
       (row_cycle r = cycle /\ (row_machine_id r < 1 + Z.of_nat k)%Z))
    l.

(** Invariant of the day loop of machine [k] in [cycle]. *)
Definition block_inv (ids : list Z) (cycle : Z) (k : nat) (st : Globals)
    : Prop :=
  map machine_id (machines st) = ids /\
  Quiet (rows st) /\
  rows_before cycle (S k) (rows st) /\
  (failure_occurred st = false ->
   Forall
     (fun r =>
        row_cycle r = cycle -> row_machine_id r = (1 + Z.of_nat k)%Z ->
        row_failure_event r = 0%Z)
     (rows st)).

(** Invariant of the machine loop of [cycle], before machine [k]. *)
Definition machine_inv (ids : list Z) (cycle : Z) (k : nat) (st : Globals)
    : Prop :=
  map machine_id (machines st) = ids /\
  Quiet (rows st) /\
  rows_before cycle k (rows st).

(** Invariant of the cycle loop, before [cycle]. *)
Definition cycle_inv (ids : list Z) (cycle : Z) (st : Globals) : Prop :=
  map machine_id (machines st) = ids /\
  Quiet (rows st) /\
  Forall (fun r => (row_cycle r < cycle)%Z) (rows st).

(** ** The risk of a simulated day and the reporting script *)

(** The risk [check_failure_risk] computes before the hard-failure and
    random-failure overrides: the probability union of the mode risks times
    the age factor. *)
Definition combined_failure_risk (self : MachineBehavior)
    (sensor_readings : SensorReadings) (day_in_cycle : Z) : R :=
  (1 - np_prod (map (fun r => 1 - r)
                  (failure_mode_risks self sensor_readings day_in_cycle)))
  * Rmin 2.0 (1.0 + age self / 15).

(** The [failure_risk] the driver obtains on one day of the machine at
    position [k] (0 when there is no such machine). *)
Definition day_failure_risk (cfg : Config) (cycle : Z) (k : nat)
    (day_in_cycle : Z) (st : Globals) : R :=
  match nth_error (machines st) k with
  | None => 0
  | Some machine =>
      let global_day :=
        ((cycle - 1) * days_per_cycle cfg + day_in_cycle)%Z in
      let '(current_load, g) :=
        generate_load_pattern global_day day_in_cycle (g_rng st) in
      let '(sensor_readings, g) :=
        calculate_sensor_readings machine day_in_cycle current_load g in
      let machine := update_degradation machine sensor_readings day_in_cycle in
      let '(failure_risk, _, _) :=
        check_failure_risk machine sensor_readings day_in_cycle g in
      failure_risk
  end.

(** [num_of_failures.py]: [failures = df[df["failure_event"] == 1]], its
    [len] and [failures.head(100)], over the records of the dataset. *)
Definition failures (df : list Row) : list Row :=
  filter (fun r => (row_failure_event r =? 1)%Z) df.

Definition head (n : nat) (df : list Row) : list Row := firstn n df.

Definition num_of_failures (df : list Row) : nat * list Row :=
  (List.length (failures df), head 100 (failures df)).

(** The failure records of one machine. *)
Definition failures_of_machine (id : Z) (l : list Row) : list Row :=
  filter
    (fun r => (row_machine_id r =? id)%Z && (row_failure_event r =? 1)%Z) l.

(** The parameters [__init__] draws once for a machine. *)
Definition fixed_parameters (m : MachineBehavior)
    : Z * R * R * R * R * R * R * R :=
  (machine_id m, age m, quality m, wear_resistance m, base_temp m,
   base_vib m, base_rpm m, maintenance_quality m).

(** The ranges [__init__] draws them from. *)
Definition creation_ranges_ok (m : MachineBehavior) : Prop :=
  0.1 <= age m < 8 /\
  0.7 <= quality m < 1 /\
  0.5 <= wear_resistance m < 1.5 /\
  58 <= base_temp m < 68 /\
  0.04 <= base_vib m < 0.12 /\
  1420 <= base_rpm m < 1480 /\
  0.7 <= maintenance_quality m < 1.

(** The history fields stay meaningful: stress and the counters are not
    negative and the operating hours are whole days. *)
Definition history_ok (m : MachineBehavior) : Prop :=
  0 <= stress_accumulation m /\
  (0 <= cycles_since_service m)%Z /\
  (0 <= previous_failures m)%Z /\
  (0 <= total_operating_hours m)%Z /\
  (total_operating_hours m mod 24 = 0)%Z.

(** ** The state of a run at a given day

    The state after [j] days of the machine at position [k] in [cycle]: the
    earlier cycles and the earlier machines of this cycle have run in full,
    and the cycle of machine [k] has started. *)
Definition state_in_cycle (cfg : Config) (g : Rng) (cycle : Z) (k j : nat)
    : Globals :=
  let st :=
    fold_left (fun st c => machine_loop cfg c st) (range 1 cycle)
      (initial_globals cfg g) in
  let st := fold_left (machine_body cfg cycle) (seq 0 k) st in
  fold_left (fun st d => day_body cfg cycle k d st)
    (range 1 (Z.of_nat j + 1)) (cycle_start cycle k st).

(** Where the machines stand while machine [k] is [j] days into [cycle]:
    the earlier machines have finished the cycle, the later ones have not
    started it. *)
Definition machines_during
    (Before After : Z -> MachineBehavior -> Prop)
    (During : Z -> nat -> MachineBehavior -> Prop)
    (cycle : Z) (k j : nat) (st : Globals) : Prop :=
  forall i mi,
    nth_error (machines st) i = Some mi ->
    ((i < k)%nat -> After cycle mi) /\
    (i = k -> During cycle j mi) /\
    ((k < i)%nat -> Before cycle mi).

(** Where the machines stand between the cycles of machines [k - 1] and
    [k]. *)
Definition machines_between
    (Before After : Z -> MachineBehavior -> Prop)
    (cycle : Z) (k : nat) (st : Globals) : Prop :=
  forall i mi,
    nth_error (machines st) i = Some mi ->
    ((i < k)%nat -> After cycle mi) /\
    ((k <= i)%nat -> Before cycle mi).

(** The largest bearing-wear increment of one day: the largest vibration
    (0.5) and load (98) the clamps allow, the smallest wear resistance (0.5)
    and the largest age factor (1.8, at 8 years):
    (0.5 * 0.5 + 0.98 * 0.1) * (1 / 0.5) * 0.001 * 1.8. *)
Definition max_daily_bearing_wear : R := 0.0012528.

(** ** Concrete inputs used to exercise the statements *)

Definition draw (x : R) (H : 0 <= x < 1) : U01 := mkU01 x H.

Definition draw_0 : U01 := draw 0 ltac:(lra).
Definition draw_001 : U01 := draw 0.01 ltac:(lra).
Definition draw_005 : U01 := draw 0.05 ltac:(lra).

(** Every draw of every generator returns its lowest value. *)
Definition rng_zero : Rng :=
  {| py_stream := fun _ => draw_0;
     np_uniform_stream := fun _ => draw_0;
     np_normal_stream := fun _ => 0 |}.

(** [random.random()] returns 0.05 and then 0.01; all other draws are 0. *)
Definition rng_surge_then_dip : Rng :=
  {| py_stream := fun n => match n with
                           | O => draw_005
                           | S O => draw_001
                           | _ => draw_0
                           end;
     np_uniform_stream := fun _ => draw_0;
     np_normal_stream := fun _ => 0 |}.

Definition sample_machine (bw md lq : R) : MachineBehavior :=
  {| machine_id := 1;
     age := 4;
     quality := 0.9;
     wear_resistance := 1;
     bearing_wear := bw;
     motor_degradation := md;
     thermal_stress := 0;
     lubrication_quality := lq;
     base_temp := 60;
     base_vib := 0.08;
     base_rpm := 1450;
     cycles_since_service := 1;
     total_operating_hours := 0;
     stress_accumulation := 0;
     maintenance_quality := 0.9;
     previous_failures := 0;
     last_maintenance_effectiveness := 1;
     intermittent_fault_active := None |}.

Definition sample_readings : SensorReadings :=
  {| temperature := 70; vibration := 0.1; rpm := 1450; load := 60 |}.

(** A state holding one machine worn beyond the hard-failure threshold, two
    high-risk days into its cycle and not yet failed. *)
Definition state_two_high_risk_days : Globals :=
  {| g_rng := rng_zero;
     machines := [sample_machine 0.96 0.1 0.9];
     rows := [];
     failure_occurred := false;
     consecutive_high_risk_days := 2;
     intermittent_fault_days := 0 |}.

(** * Basic facts *)

Lemma Rltb_true (x y : R) : Rltb x y = true <-> x < y.
Proof. unfold Rltb; destruct (Rlt_dec x y); split; intros; try easy. Qed.

Lemma Rltb_false (x y : R) : Rltb x y = false <-> y <= x.
Proof.
  unfold Rltb; destruct (Rlt_dec x y); split; intros; try easy; lra.
Qed.

Lemma Rgtb_true (x y : R) : Rgtb x y = true <-> y < x.
Proof. apply Rltb_true. Qed.

Lemma Rgtb_false (x y : R) : Rgtb x y = false <-> x <= y.
Proof. apply Rltb_false. Qed.

Lemma clamp_bounds (lo hi x : R) :
  lo <= hi -> lo <= Rmax lo (Rmin hi x) <= hi.
Proof.
  intros H. unfold Rmax, Rmin.
  destruct (Rle_dec hi x); destruct (Rle_dec lo _); lra.
Qed.

Lemma round_half_even_bounds (a b : Z) (y : R) :
  IZR a <= y <= IZR b -> (a <= round_half_even y <= b)%Z.
Proof.
  intros [Ha Hb].
  pose proof (Zfloor_bound y) as [Hf1 Hf2].
  pose proof (Zfloor_lub a y Ha) as Hlo.
  assert (Hhi : (Zfloor y <= b)%Z).
  { apply le_IZR. lra. }
  assert (Hup : 1 / 2 <= y - IZR (Zfloor y) -> (Zfloor y + 1 <= b)%Z).
  { intros Hr.
    assert (Hlt : (Zfloor y < b)%Z) by (apply lt_IZR; lra). lia. }
  unfold round_half_even.
  destruct (Rltb (y - IZR (Zfloor y)) (1 / 2)) eqn:E1; [lia|].
  apply Rltb_false in E1. specialize (Hup E1).
  destruct (Rgtb _ _); [lia|]. destruct (Z.even _); lia.
Qed.

Lemma py_round_load_bounds (x : R) :
  35 <= x <= 98 -> 35 <= py_round x 1 <= 98.
Proof.
  intros Hx. unfold py_round.
  assert (H : (350 <= round_half_even (x * 10 ^ 1) <= 980)%Z).
  { apply round_half_even_bounds. rewrite pow_1. lra. }
  destruct H as [H1 H2]. apply IZR_le in H1, H2. rewrite pow_1 in *. lra.
Qed.

(** A postcondition that every continuation establishes holds of the
    sequenced draw. *)
Lemma bind_post {A B : Type} (c : Rand A) (k : A -> Rand B)
    (P : B -> Prop) (g : Rng) :
  (forall a g', P (fst (k a g'))) -> P (fst (bind c k g)).
Proof. intros H. unfold bind. destruct (c g) as [a g']. apply H. Qed.

Ltac rand_post :=
  repeat (first
    [ apply bind_post; intros
    | match goal with
      | |- context [let '(_, _) := ?p in _] => destruct p
      end ]).

Lemma generate_load_pattern_bounds (day cycle_day : Z) (g : Rng) :
  35 <= fst (generate_load_pattern day cycle_day g) <= 98.
Proof.
  unfold generate_load_pattern.
  apply (bind_post _ _ (fun x => 35 <= x <= 98)). intros.
  rand_post. apply clamp_bounds; lra.
Qed.

Lemma calculate_sensor_readings_ok (self : MachineBehavior)
    (day_in_cycle : Z) (current_load : R) (g : Rng) :
  35 <= current_load <= 98 ->
  sensor_ok (fst (calculate_sensor_readings self day_in_cycle current_load g)).
Proof.
  intros Hl. unfold calculate_sensor_readings.
  rand_post. unfold ret, sensor_ok; cbn.
  repeat split;
    try (apply clamp_bounds; lra);
    try (apply py_round_load_bounds; assumption);
    try apply Rmax_l.
Qed.

(** * Loop rules *)

Lemma fold_left_preserves {S A : Type} (f : S -> A -> S) (P : S -> Prop)
    (l : list A) :
  (forall s a, P s -> P (f s a)) -> forall s, P s -> P (fold_left f l s).
Proof.
  intros Hf. induction l as [|a l IH]; intros s Hs; simpl; auto.
Qed.

(** * Frame and case lemmas for the methods *)

Lemma determine_failure_cases (fo : bool) (chr ifd : Z) (risk : R)
    (m : MachineBehavior) (g : Rng) :
  fst (determine_failure fo chr ifd risk m g) = (0%Z, fo, m) \/
  (fo = false /\
   fst (determine_failure fo chr ifd risk m g)
   = (1%Z, true, set_previous_failures m (previous_failures m + 1)%Z)).
Proof.
  unfold determine_failure. destruct fo; simpl; [now left|].
  destruct (Rgtb _ 0.85); [now right|].
  unfold bind, random_random, ret. destruct (Rltb _ _); simpl; auto.
Qed.

Lemma set_intermittent_fault_active_same (m : MachineBehavior) :
  set_intermittent_fault_active m (intermittent_fault_active m) = m.
Proof. now destruct m. Qed.

Lemma check_failure_risk_frame (m : MachineBehavior) (sr : SensorReadings)
    (d : Z) (g : Rng) :
  exists v, snd (fst (check_failure_risk m sr d g))
            = set_intermittent_fault_active m v.
Proof.
  unfold check_failure_risk, bind, random_random, ret.
  destruct (intermittent_fault_active m) eqn:E.
  - destruct (_ && _); [destruct (Rltb _ 0.3)|]; simpl.
    + now exists (Some true).
    + exists (Some b). now rewrite <- E, set_intermittent_fault_active_same.
    + exists (Some b). now rewrite <- E, set_intermittent_fault_active_same.
  - destruct (_ && _); [destruct (Rltb _ 0.3)|]; simpl.
    + now exists (Some true).
    + now exists (Some false).
    + now exists (Some false).
Qed.

(** [day_body] unfolded along the machine it finds at position [k]. *)
Lemma day_body_eq (cfg : Config) (cycle : Z) (k : nat) (d : Z)
    (st : Globals) (machine : MachineBehavior) :
  nth_error (machines st) k = Some machine ->
  let global_day := ((cycle - 1) * days_per_cycle cfg + d)%Z in
  let lg := generate_load_pattern global_day d (g_rng st) in
  let sg := calculate_sensor_readings machine d (fst lg) (snd lg) in
  let m1 := update_degradation machine (fst sg) d in
  let rg := check_failure_risk m1 (fst sg) d (snd sg) in
  let chr := if Rgtb (fst (fst rg)) 0.6
             then (consecutive_high_risk_days st + 1)%Z else 0%Z in
  let ifd := if fault_active (snd (fst rg))
             then (intermittent_fault_days st + 1)%Z else 0%Z in
  let dg := determine_failure (failure_occurred st) chr ifd
              (fst (fst rg)) (snd (fst rg)) (snd rg) in
  day_body cfg cycle k d st =
  {| g_rng := snd dg;
     machines := list_set k (snd (fst dg)) (machines st);
     rows := rows st ++
       [ {| row_machine_id := machine_id (snd (fst dg));
            row_cycle := cycle;
            row_day := global_day;
            row_day_in_cycle := d;
            row_temperature := temperature (fst sg);
            row_vibration := vibration (fst sg);
            row_rpm := rpm (fst sg);
            row_load := load (fst sg);
            row_service_flag :=
              if (d =? 1)%Z && (cycle >? 1)%Z then 1%Z else 0%Z;
            row_failure_event := fst (fst (fst dg)) |} ];
     failure_occurred := snd (fst (fst dg));
     consecutive_high_risk_days := chr;
     intermittent_fault_days := ifd |}.
Proof.
  intros H. cbv zeta. unfold day_body. rewrite H.
  destruct (generate_load_pattern _ _ _) as [l g1]. cbn [fst snd].
  destruct (calculate_sensor_readings _ _ _ _) as [sr g2]. cbn [fst snd].
  destruct (check_failure_risk _ _ _ _) as [[r m2] g3]. cbn [fst snd].
  destruct (determine_failure _ _ _ _ _ _) as [[[fe fo] m3] g4].
  reflexivity.
Qed.

Lemma day_body_sensor_ok (cfg : Config) (cycle : Z) (d : Z) (g : Rng)
    (machine : MachineBehavior) :
  let global_day := ((cycle - 1) * days_per_cycle cfg + d)%Z in
  let lg := generate_load_pattern global_day d g in
  sensor_ok (fst (calculate_sensor_readings machine d (fst lg) (snd lg))).
Proof.
  cbv zeta. apply calculate_sensor_readings_ok.
  apply generate_load_pattern_bounds.
Qed.

Lemma cycle_start_rows (cycle : Z) (k : nat) (st : Globals) :
  rows (cycle_start cycle k st) = rows st.
Proof.
  unfold cycle_start. destruct (nth_error _ _); [|reflexivity].
  destruct (if (cycle >? 1)%Z then _ else _). reflexivity.
Qed.

Lemma determine_failure_flag (fo : bool) (chr ifd : Z) (risk : R)
    (m : MachineBehavior) (g : Rng) :
  flag (fst (fst (fst (determine_failure fo chr ifd risk m g)))).
Proof.
  destruct (determine_failure_cases fo chr ifd risk m g) as [E|[_ E]];
    rewrite E; simpl; [now left | now right].
Qed.

Lemma day_body_rows_ok (cfg : Config) (cycle : Z) (k : nat) (d : Z)
    (st : Globals) :
  Forall row_ok (rows st) -> Forall row_ok (rows (day_body cfg cycle k d st)).
Proof.
  intros H. destruct (nth_error (machines st) k) as [machine|] eqn:E.
  - rewrite (day_body_eq _ _ _ _ _ _ E). cbn [rows].
    apply Forall_app. split; [assumption|]. constructor; [|constructor].
    pose proof (day_body_sensor_ok cfg cycle d (g_rng st) machine) as Hs.
    cbv zeta in Hs. destruct Hs as (Ht & Hv & Hr & Hl).
    unfold row_ok; cbn.
    repeat split; try tauto.
    + apply determine_failure_flag.
    + destruct (_ && _); [now right | now left].
  - unfold day_body. now rewrite E.
Qed.

Lemma exec_rows_ok (cfg : Config) (st : Globals) (s : Step) :
  Forall row_ok (rows st) -> Forall row_ok (rows (exec cfg st s)).
Proof.
  destruct s; simpl.
  - now rewrite cycle_start_rows.
  - apply day_body_rows_ok.
Qed.

(** The nested loops run the schedule. *)
Lemma fold_left_flat_map {S A B : Type} (f : S -> B -> S) (h : A -> list B)
    (l : list A) (s : S) :
  fold_left f (flat_map h l) s
  = fold_left (fun s a => fold_left f (h a) s) l s.
Proof.
  revert s. induction l as [|a l IH]; intros s; simpl; [reflexivity|].
  now rewrite fold_left_app, IH.
Qed.

Lemma fold_left_ext_in {S A : Type} (f f' : S -> A -> S) (l : list A) :
  (forall s a, In a l -> f s a = f' s a) ->
  forall s, fold_left f l s = fold_left f' l s.
Proof.
  induction l as [|a l IH]; intros H s; simpl; [reflexivity|].
  rewrite H by now left. apply IH. intros; apply H; now right.
Qed.

Lemma fold_left_map_list {S A B : Type} (f : S -> B -> S) (h : A -> B)
    (l : list A) (s : S) :
  fold_left f (map h l) s = fold_left (fun s a => f s (h a)) l s.
Proof.
  revert s. induction l as [|a l IH]; intros s; simpl; [reflexivity|].
  apply IH.
Qed.

Lemma list_set_length {A : Type} (k : nat) (x : A) (l : list A) :
  List.length (list_set k x l) = List.length l.
Proof.
  revert k. induction l as [|h t IH]; intros [|k]; simpl; auto.
Qed.

Lemma cycle_start_machines_length (cycle : Z) (k : nat) (st : Globals) :
  List.length (machines (cycle_start cycle k st)) = List.length (machines st).
Proof.
  unfold cycle_start. destruct (nth_error _ _); [|reflexivity].
  destruct (if (cycle >? 1)%Z then _ else _). cbn [machines].
  apply list_set_length.
Qed.

Lemma day_body_machines_length (cfg : Config) (cycle : Z) (k : nat) (d : Z)
    (st : Globals) :
  List.length (machines (day_body cfg cycle k d st))
  = List.length (machines st).
Proof.
  destruct (nth_error (machines st) k) as [machine|] eqn:E.
  - rewrite (day_body_eq _ _ _ _ _ _ E). cbn [machines].
    apply list_set_length.
  - unfold day_body. now rewrite E.
Qed.

Lemma exec_machines_length (cfg : Config) (st : Globals) (s : Step) :
  List.length (machines (exec cfg st s)) = List.length (machines st).
Proof.
  destruct s; simpl.
  - apply cycle_start_machines_length.
  - apply day_body_machines_length.
Qed.

Lemma exec_steps_machines_length (cfg : Config) (l : list Step)
    (st : Globals) :
  List.length (machines (fold_left (exec cfg) l st))
  = List.length (machines st).
Proof.
  revert st. induction l as [|s l IH]; intros st; simpl; [reflexivity|].
  now rewrite IH, exec_machines_length.
Qed.

Lemma machine_body_steps (cfg : Config) (cycle : Z) (st : Globals) (k : nat) :
  machine_body cfg cycle st k
  = fold_left (exec cfg) (machine_steps cfg cycle k) st.
Proof.
  unfold machine_body, machine_steps, day_loop. simpl.
  now rewrite fold_left_map_list.
Qed.

Lemma machine_loop_steps (cfg : Config) (cycle : Z) (st : Globals) :
  machine_loop cfg cycle st
  = fold_left (exec cfg)
      (flat_map (machine_steps cfg cycle) (seq 0 (List.length (machines st))))
      st.
Proof.
  unfold machine_loop. rewrite fold_left_flat_map.
  apply fold_left_ext_in. intros s k _. apply machine_body_steps.
Qed.

Lemma cycle_loop_steps (cfg : Config) (cycles : list Z) :
  forall st,
    fold_left (fun st cycle => machine_loop cfg cycle st) cycles st
    = fold_left (exec cfg)
        (flat_map
           (fun cycle =>
              flat_map (machine_steps cfg cycle)
                (seq 0 (List.length (machines st))))
           cycles)
        st.
Proof.
  induction cycles as [|c cycles IH]; intros st; simpl; [reflexivity|].
  rewrite fold_left_app, <- machine_loop_steps, IH.
  replace (List.length (machines (machine_loop cfg c st)))
    with (List.length (machines st)); [reflexivity|].
  rewrite machine_loop_steps. symmetry. apply exec_steps_machines_length.
Qed.

Lemma cycle_loop_schedule (cfg : Config) (st : Globals) :
  cycle_loop cfg st
  = fold_left (exec cfg) (schedule cfg (List.length (machines st))) st.
Proof. apply cycle_loop_steps. Qed.

Lemma run_prefix_all (cfg : Config) (g : Rng) :
  run_prefix cfg g
    (List.length
       (schedule cfg (List.length (machines (initial_globals cfg g)))))
  = main cfg g.
Proof.
  unfold run_prefix, main. cbv zeta.
  now rewrite firstn_all, cycle_loop_schedule.
Qed.

(** ** C1 *)

(** C1: every record the driver emits, for every configuration and every
    outcome of the random draws, has its temperature in [40, 95], its
    vibration in [0.02, 0.5], its rpm at least 1380, its load in [35, 98],
    and both flags in {0, 1}. *)
Theorem C1_records_within_bounds (cfg : Config) (g : Rng) :
  Forall row_ok (rows (main cfg g)).
Proof.
  unfold main. rewrite cycle_loop_schedule.
  apply fold_left_preserves.
  - intros s a. apply exec_rows_ok.
  - unfold initial_globals. destruct (create_machines _ _). constructor.
Qed.

(** ** Hidden-state bounds *)

Lemma np_random_uniform_range (low high : R) (g : Rng) :
  low <= high ->
  low <= fst (np_random_uniform low high g) <= high.
Proof.
  intros H. unfold np_random_uniform. cbn [fst].
  pose proof (u01_range (np_uniform_stream g 0)) as Hu. nra.
Qed.

Lemma random_uniform_range (a b : R) (g : Rng) :
  a <= b -> a <= fst (random_uniform a b g) <= b.
Proof.
  intros H. unfold random_uniform, bind, random_random, ret. cbn [fst].
  pose proof (u01_range (py_stream g 0)) as Hu. nra.
Qed.

Lemma MachineBehavior_init_ok (id : Z) (g : Rng) :
  machine_ok (fst (MachineBehavior_init id g)).
Proof.
  unfold MachineBehavior_init, bind, ret.
  repeat match goal with
         | |- context [np_random_uniform ?a ?b ?g0] =>
             let H := fresh "H" in
             assert (H : a <= b) by lra;
             apply (np_random_uniform_range a b g0) in H;
             destruct (np_random_uniform a b g0); cbn [fst] in H
         end.
  unfold machine_ok, parameters_ok, hidden_state_ok; cbn.
  repeat split; lra.
Qed.

Lemma MachineBehavior_init_id (id : Z) (g : Rng) :
  machine_id (fst (MachineBehavior_init id g)) = id.
Proof.
  unfold MachineBehavior_init, bind, ret.
  repeat destruct (np_random_uniform _ _ _). reflexivity.
Qed.

Lemma Rmin_cap_bounds (lo hi c x : R) :
  c <= hi -> lo <= c -> lo <= x -> lo <= Rmin c x <= hi.
Proof. intros H0 H1 H2. unfold Rmin. destruct (Rle_dec c x); lra. Qed.

Lemma update_degradation_ok (m : MachineBehavior) (sr : SensorReadings)
    (d : Z) :
  machine_ok m -> sensor_ok sr -> machine_ok (update_degradation m sr d).
Proof.
  intros [Hp (Hb & Hm & Hl)] (Ht & Hv & Hr & Hld).
  split; [exact Hp|].
  destruct Hp as (Ha & Hw & Hbr & Hq).
  unfold hidden_state_ok, update_degradation; cbn.
  assert (Hinv : 0 < 1 / wear_resistance m).
  { apply Rdiv_lt_0_compat; lra. }
  assert (Haf : 0 <= Rmin 2.0 (1.0 + age m / 10)).
  { unfold Rmin. destruct (Rle_dec _ _); lra. }
  assert (Hrate : 0 <= (vibration sr * 0.5 + load sr / 100 * 0.1)
                       * (1 / wear_resistance m) * 0.001
                       * Rmin 2.0 (1.0 + age m / 10)).
  { apply Rmult_le_pos; [|exact Haf].
    apply Rmult_le_pos; [|lra].
    apply Rmult_le_pos; lra. }
  assert (Hvar : 0 <= Rabs (rpm sr - base_rpm m) / base_rpm m).
  { apply Rmult_le_pos; [apply Rabs_pos|].
    left. apply Rinv_0_lt_compat. lra. }
  assert (Hth : 0 <= Rmax 0 ((temperature sr - 65) / 20)) by apply Rmax_l.
  split; [|split].
  - apply Rmin_cap_bounds; lra.
  - apply Rmin_cap_bounds; lra.
  - split; [apply Rmax_l|].
    apply Rmax_lub; [lra|]. destruct (Rgtb _ _); nra.
Qed.

Lemma apply_maintenance_with_ok (m : MachineBehavior) (e : R) :
  machine_ok m -> 0 <= e <= 1 -> machine_ok (apply_maintenance_with m e).
Proof.
  intros [Hp (Hb & Hm & Hl)] He. split; [exact Hp|].
  unfold hidden_state_ok, apply_maintenance_with; cbn.
  split; [nra|]. split; [nra|].
  apply Rmin_cap_bounds; nra.
Qed.

Lemma apply_maintenance_effectiveness (m : MachineBehavior) (g : Rng) :
  fst (apply_maintenance m g)
  = apply_maintenance_with m
      (maintenance_quality m * fst (random_uniform 0.8 1.0 g)).
Proof. reflexivity. Qed.

Lemma apply_maintenance_ok (m : MachineBehavior) (g : Rng) :
  machine_ok m -> machine_ok (fst (apply_maintenance m g)).
Proof.
  intros H. rewrite apply_maintenance_effectiveness.
  apply apply_maintenance_with_ok; [assumption|].
  destruct H as [(_ & _ & _ & Hq) _].
  assert (Hu : 0.8 <= fst (random_uniform 0.8 1.0 g) <= 1.0)
    by (apply random_uniform_range; lra).
  nra.
Qed.

Lemma set_intermittent_fault_active_ok (m : MachineBehavior)
    (v : option bool) :
  machine_ok m -> machine_ok (set_intermittent_fault_active m v).
Proof. intros H; exact H. Qed.

Lemma set_previous_failures_ok (m : MachineBehavior) (v : Z) :
  machine_ok m -> machine_ok (set_previous_failures m v).
Proof. intros H; exact H. Qed.

Lemma set_cycles_since_service_ok (m : MachineBehavior) (v : Z) :
  machine_ok m -> machine_ok (set_cycles_since_service m v).
Proof. intros H; exact H. Qed.

Lemma check_failure_risk_ok (m : MachineBehavior) (sr : SensorReadings)
    (d : Z) (g : Rng) :
  machine_ok m -> machine_ok (snd (fst (check_failure_risk m sr d g))).
Proof.
  intros H. destruct (check_failure_risk_frame m sr d g) as [v ->].
  now apply set_intermittent_fault_active_ok.
Qed.

Lemma determine_failure_ok (fo : bool) (chr ifd : Z) (risk : R)
    (m : MachineBehavior) (g : Rng) :
  machine_ok m ->
  machine_ok (snd (fst (determine_failure fo chr ifd risk m g))).
Proof.
  intros H.
  destruct (determine_failure_cases fo chr ifd risk m g) as [E|[_ E]];
    rewrite E; exact H.
Qed.

Lemma Forall_list_set {A : Type} (P : A -> Prop) (k : nat) (x : A)
    (l : list A) :
  Forall P l -> P x -> Forall P (list_set k x l).
Proof.
  intros Hl Hx. revert k.
  induction Hl as [|h t Hh Ht IH]; intros [|k]; simpl; constructor; auto.
Qed.

Lemma Forall_nth_error {A : Type} (P : A -> Prop) (l : list A) (k : nat)
    (x : A) :
  Forall P l -> nth_error l k = Some x -> P x.
Proof.
  intros Hl Hk. apply nth_error_In in Hk.
  rewrite Forall_forall in Hl. auto.
Qed.

Lemma cycle_start_machines_ok (cycle : Z) (k : nat) (st : Globals) :
  Forall machine_ok (machines st) ->
  Forall machine_ok (machines (cycle_start cycle k st)).
Proof.
  intros H. unfold cycle_start.
  destruct (nth_error (machines st) k) as [m|] eqn:E; [|assumption].
  pose proof (Forall_nth_error _ _ _ _ H E) as Hm.
  destruct (cycle >? 1)%Z.
  - pose proof (apply_maintenance_ok m (g_rng st) Hm) as Hm'.
    destruct (apply_maintenance m (g_rng st)) as [m' g']. cbn [machines].
    apply Forall_list_set; [assumption|].
    now apply set_cycles_since_service_ok.
  - cbn [machines]. apply Forall_list_set; [assumption|].
    now apply set_cycles_since_service_ok.
Qed.

Lemma day_body_machines_ok (cfg : Config) (cycle : Z) (k : nat) (d : Z)
    (st : Globals) :
  Forall machine_ok (machines st) ->
  Forall machine_ok (machines (day_body cfg cycle k d st)).
Proof.
  intros H. destruct (nth_error (machines st) k) as [m|] eqn:E.
  - rewrite (day_body_eq _ _ _ _ _ _ E). cbn [machines].
    apply Forall_list_set; [assumption|].
    apply determine_failure_ok, check_failure_risk_ok, update_degradation_ok.
    + exact (Forall_nth_error _ _ _ _ H E).
    + apply day_body_sensor_ok.
  - unfold day_body. now rewrite E.
Qed.

Lemma exec_machines_ok (cfg : Config) (st : Globals) (s : Step) :
  Forall machine_ok (machines st) ->
  Forall machine_ok (machines (exec cfg st s)).
Proof.
  destruct s; simpl.
  - apply cycle_start_machines_ok.
  - apply day_body_machines_ok.
Qed.

Lemma create_machines_ok (ids : list Z) :
  forall g, Forall machine_ok (fst (create_machines ids g)).
Proof.
  induction ids as [|i ids IH]; intros g; simpl.
  - constructor.
  - unfold bind.
    pose proof (MachineBehavior_init_ok i g) as Hm.
    destruct (MachineBehavior_init i g) as [m g1]. cbn [fst] in Hm.
    specialize (IH g1). destruct (create_machines ids g1) as [ms g2].
    cbn. constructor; assumption.
Qed.

Lemma initial_globals_machines (cfg : Config) (g : Rng) :
  machines (initial_globals cfg g)
  = fst (create_machines (range 1 (num_machines cfg + 1)) g).
Proof.
  unfold initial_globals. now destruct (create_machines _ _).
Qed.

Lemma run_prefix_machines_ok (cfg : Config) (g : Rng) (n : nat) :
  Forall machine_ok (machines (run_prefix cfg g n)).
Proof.
  unfold run_prefix. cbv zeta. apply fold_left_preserves.
  - intros s a. apply exec_machines_ok.
  - rewrite initial_globals_machines. apply create_machines_ok.
Qed.

(** ** C3 *)

(** C3: the hidden state of every machine satisfies
    0 <= bearing_wear <= 1, 0 <= motor_degradation <= 1 and
    0.1 <= lubrication_quality <= 1 at every point of a run: after creation,
    after any number of loop-body executions of the driver (hence at the end
    of the run), and, from any such point, immediately after a maintenance
    application and after a degradation update on the readings the driver
    computes for that machine. *)
Theorem C3_hidden_state_bounds :
  (forall id g, hidden_state_ok (fst (MachineBehavior_init id g))) /\
  (forall cfg g n,
     Forall
       (fun m =>
          hidden_state_ok m /\
          (forall g', hidden_state_ok (fst (apply_maintenance m g'))) /\
          (forall day d g',
             let lg := generate_load_pattern day d g' in
             let sg := calculate_sensor_readings m d (fst lg) (snd lg) in
             hidden_state_ok (update_degradation m (fst sg) d)))
       (machines (run_prefix cfg g n))) /\
  (forall cfg g, Forall hidden_state_ok (machines (main cfg g))).
Proof.
  split; [|split].
  - intros id g. apply MachineBehavior_init_ok.
  - intros cfg g n.
    eapply Forall_impl; [|apply run_prefix_machines_ok].
    intros m Hm. split; [apply Hm|]. split.
    + intros g'. now apply apply_maintenance_ok.
    + intros day d g'. cbv zeta. apply update_degradation_ok; [assumption|].
      apply calculate_sensor_readings_ok, generate_load_pattern_bounds.
  - intros cfg g. rewrite <- run_prefix_all.
    eapply Forall_impl; [|apply run_prefix_machines_ok].
    intros m Hm. apply Hm.
Qed.

(** ** C4 *)

Lemma check_failure_risk_bearing_override (m : MachineBehavior)
    (sr : SensorReadings) (d : Z) (g : Rng) :
  0.95 < bearing_wear m ->
  fst (fst (check_failure_risk m sr d g)) = 1.0.
Proof.
  intros Hb. apply Rgtb_true in Hb.
  assert (Hmin : Rmin 1.0 1.0 = 1.0) by (apply Rmin_left; lra).
  unfold check_failure_risk, bind, random_random, ret.
  destruct (intermittent_fault_active m);
    (destruct (_ && _); [destruct (Rltb _ 0.3)|]); cbn [fst snd];
    cbn [bearing_wear set_intermittent_fault_active];
    rewrite Hb, orb_true_r; cbn [orb];
    destruct (Rltb _ 0.0002); exact Hmin.
Qed.

(** C4: for a machine with bearing_wear above 0.95 and readings with
    temperature below 85, vibration below 0.35 and lubrication_quality at
    least 0.05, [check_failure_risk] returns exactly 1.0, whatever the
    per-mode risks, the age multiplier and the random draws are. *)
Theorem C4_bearing_wear_override (m : MachineBehavior) (sr : SensorReadings)
    (day_in_cycle : Z) (g : Rng) :
  0.95 < bearing_wear m ->
  temperature sr < 85 ->
  vibration sr < 0.35 ->
  0.05 <= lubrication_quality m ->
  fst (fst (check_failure_risk m sr day_in_cycle g)) = 1.0.
Proof.
  intros Hb _ _ _. now apply check_failure_risk_bearing_override.
Qed.

Lemma C4_bearing_wear_override_witness :
  fst (fst (check_failure_risk (sample_machine 0.96 0.1 0.9) sample_readings
              50 rng_zero)) = 1.0.
Proof.
  apply (C4_bearing_wear_override (sample_machine 0.96 0.1 0.9)
           sample_readings 50 rng_zero); simpl; lra.
Defined.

(** ** C6 *)

(** C6, as stated, fails: with effectiveness 1 and a starting
    lubrication_quality of 0.1 (inside [0.1, 1]), maintenance leaves
    lubrication_quality at 0.7, not at 1.0. *)
Lemma C6_lubrication_not_fully_restored :
  0.1 <= lubrication_quality (sample_machine 0.5 0.5 0.1) <= 1 /\
  lubrication_quality (apply_maintenance_with (sample_machine 0.5 0.5 0.1) 1)
  = 0.7 /\
  lubrication_quality (apply_maintenance_with (sample_machine 0.5 0.5 0.1) 1)
  <> 1.0.
Proof.
  assert (E : lubrication_quality
                (apply_maintenance_with (sample_machine 0.5 0.5 0.1) 1)
              = 0.7).
  { cbn. rewrite Rmin_right; lra. }
  split; [cbn; lra|]. split; [exact E|]. rewrite E. lra.
Qed.

(** C6, amended: with effectiveness 1, maintenance multiplies bearing_wear
    by 0.2 and motor_degradation by 0.3 and sets lubrication_quality to
    min(1, lubrication_quality + 0.6), which is 1.0 exactly when the
    starting lubrication_quality is at least 0.4. *)
Theorem C6_maintenance_at_full_effectiveness (m : MachineBehavior) :
  bearing_wear (apply_maintenance_with m 1) = bearing_wear m * 0.2 /\
  motor_degradation (apply_maintenance_with m 1) = motor_degradation m * 0.3 /\
  lubrication_quality (apply_maintenance_with m 1)
  = Rmin 1.0 (lubrication_quality m + 0.6) /\
  (lubrication_quality (apply_maintenance_with m 1) = 1.0
   <-> 0.4 <= lubrication_quality m).
Proof.
  cbn. repeat split; try (f_equal; lra).
  - unfold Rmin. destruct (Rle_dec _ _); lra.
  - intros H. unfold Rmin. destruct (Rle_dec _ _); lra.
Qed.

(** ** C10 *)

Lemma nth_error_list_set {A : Type} (k : nat) (x y : A) (l : list A) :
  nth_error l k = Some y -> nth_error (list_set k x l) k = Some x.
Proof.
  revert k. induction l as [|h t IH]; intros [|k] H; simpl in *;
    try discriminate; auto.
Qed.

Lemma determine_failure_bearing_wear (fo : bool) (chr ifd : Z) (risk : R)
    (m : MachineBehavior) (g : Rng) :
  bearing_wear (snd (fst (determine_failure fo chr ifd risk m g)))
  = bearing_wear m.
Proof.
  destruct (determine_failure_cases fo chr ifd risk m g) as [E|[_ E]];
    now rewrite E.
Qed.

Lemma check_failure_risk_bearing_wear (m : MachineBehavior)
    (sr : SensorReadings) (d : Z) (g : Rng) :
  bearing_wear (snd (fst (check_failure_risk m sr d g))) = bearing_wear m.
Proof. now destruct (check_failure_risk_frame m sr d g) as [v ->]. Qed.

Lemma update_degradation_bearing_wear_increases (m : MachineBehavior)
    (sr : SensorReadings) (d : Z) :
  bearing_wear m < 1 ->
  0 < wear_resistance m ->
  -10 < age m ->
  0.02 <= vibration sr ->
  35 <= load sr ->
  0 < (vibration sr * 0.5 + load sr / 100 * 0.1) * (1 / wear_resistance m)
      * 0.001 * Rmin 2.0 (1.0 + age m / 10) /\
  bearing_wear m < bearing_wear (update_degradation m sr d) <= 1.
Proof.
  intros Hb Hw Ha Hv Hl.
  assert (Hinv : 0 < 1 / wear_resistance m).
  { apply Rdiv_lt_0_compat; lra. }
  assert (Haf : 0 < Rmin 2.0 (1.0 + age m / 10)).
  { unfold Rmin. destruct (Rle_dec _ _); lra. }
  assert (Hinc : 0 < (vibration sr * 0.5 + load sr / 100 * 0.1)
                     * (1 / wear_resistance m) * 0.001
                     * Rmin 2.0 (1.0 + age m / 10)).
  { apply Rmult_lt_0_compat; [|exact Haf].
    apply Rmult_lt_0_compat; [|lra].
    apply Rmult_lt_0_compat; lra. }
  split; [exact Hinc|].
  unfold update_degradation; cbn [bearing_wear].
  match type of Hinc with 0 < ?e => set (inc := e) in * end.
  unfold Rmin. destruct (Rle_dec _ _); lra.
Qed.

(** C10: for a machine state with bearing_wear below 1.0 and a positive
    wear_resistance (its service age in the range 0.1 to 8 years that
    [__init__] draws it from and the data model fixes), and readings with
    vibration >= 0.02 and load >= 35, the increment of the daily update is
    strictly positive and the update strictly increases bearing_wear, up to
    the cap 1.0; consequently a simulated day of the driver strictly
    increases the bearing_wear of the machine it simulates while that is
    below 1.0. *)
Theorem C10_bearing_wear_strictly_increases (m : MachineBehavior)
    (sr : SensorReadings) (day_in_cycle : Z) :
  bearing_wear m < 1 ->
  0 < wear_resistance m ->
  0.1 <= age m <= 8 ->
  0.02 <= vibration sr ->
  35 <= load sr ->
  0 < (vibration sr * 0.5 + load sr / 100 * 0.1) * (1 / wear_resistance m)
      * 0.001 * Rmin 2.0 (1.0 + age m / 10) /\
  bearing_wear m < bearing_wear (update_degradation m sr day_in_cycle) <= 1 /\
  (forall cfg cycle k d st,
     nth_error (machines st) k = Some m ->
     exists m',
       nth_error (machines (day_body cfg cycle k d st)) k = Some m' /\
       bearing_wear m < bearing_wear m' <= 1).
Proof.
  intros Hb Hw Ha Hv Hl.
  assert (Ha' : -10 < age m) by lra.
  destruct (update_degradation_bearing_wear_increases m sr day_in_cycle
              Hb Hw Ha' Hv Hl) as [Hinc Hup].
  split; [exact Hinc|]. split; [exact Hup|].
  intros cfg cycle k d st Hk.
  rewrite (day_body_eq _ _ _ _ _ _ Hk). cbn [machines].
  eexists. split; [eapply nth_error_list_set; eassumption|].
  rewrite determine_failure_bearing_wear, check_failure_risk_bearing_wear.
  pose proof (day_body_sensor_ok cfg cycle d (g_rng st) m) as Hs.
  cbv zeta in Hs. destruct Hs as (_ & Hv' & _ & Hl').
  apply update_degradation_bearing_wear_increases; try assumption; lra.
Qed.

Lemma C10_bearing_wear_strictly_increases_witness :
  bearing_wear (sample_machine 0.3 0.1 0.9)
  < bearing_wear (update_degradation (sample_machine 0.3 0.1 0.9)
                    sample_readings 1) <= 1.
Proof.
  apply (C10_bearing_wear_strictly_increases (sample_machine 0.3 0.1 0.9)
           sample_readings 1); simpl; lra.
Defined.

(** ** The records of a run, by key *)

Lemma map_list_set_same {A B : Type} (f : A -> B) (k : nat) (x y : A)
    (l : list A) :
  nth_error l k = Some y -> f x = f y -> map f (list_set k x l) = map f l.
Proof.
  revert k. induction l as [|h t IH]; intros [|k] H E; simpl in *;
    try discriminate.
  - injection H as ->. now rewrite E.
  - f_equal. now apply IH.
Qed.

Lemma determine_failure_id (fo : bool) (chr ifd : Z) (risk : R)
    (m : MachineBehavior) (g : Rng) :
  machine_id (snd (fst (determine_failure fo chr ifd risk m g)))
  = machine_id m.
Proof.
  destruct (determine_failure_cases fo chr ifd risk m g) as [E|[_ E]];
    now rewrite E.
Qed.

Lemma check_failure_risk_id (m : MachineBehavior) (sr : SensorReadings)
    (d : Z) (g : Rng) :
  machine_id (snd (fst (check_failure_risk m sr d g))) = machine_id m.
Proof. now destruct (check_failure_risk_frame m sr d g) as [v ->]. Qed.

Lemma day_body_machine_id (m : MachineBehavior) (sr : SensorReadings)
    (d : Z) (fo : bool) (chr ifd : Z) (g : Rng) :
  let rg := check_failure_risk (update_degradation m sr d) sr d g in
  machine_id
    (snd (fst (determine_failure fo chr ifd (fst (fst rg)) (snd (fst rg))
                 (snd rg))))
  = machine_id m.
Proof.
  cbv zeta. now rewrite determine_failure_id, check_failure_risk_id.
Qed.

Lemma cycle_start_ids (cycle : Z) (k : nat) (st : Globals) :
  map machine_id (machines (cycle_start cycle k st))
  = map machine_id (machines st).
Proof.
  unfold cycle_start.
  destruct (nth_error (machines st) k) as [m|] eqn:E; [|reflexivity].
  destruct (cycle >? 1)%Z; cbn [machines];
    now apply (map_list_set_same machine_id k _ m).
Qed.

Lemma day_body_ids (cfg : Config) (cycle : Z) (k : nat) (d : Z)
    (st : Globals) :
  map machine_id (machines (day_body cfg cycle k d st))
  = map machine_id (machines st).
Proof.
  destruct (nth_error (machines st) k) as [m|] eqn:E.
  - rewrite (day_body_eq _ _ _ _ _ _ E). cbn [machines].
    apply (map_list_set_same machine_id k _ m); [assumption|].
    apply day_body_machine_id.
  - unfold day_body. now rewrite E.
Qed.

Lemma exec_ids (cfg : Config) (st : Globals) (s : Step) :
  map machine_id (machines (exec cfg st s)) = map machine_id (machines st).
Proof.
  destruct s; simpl; [apply cycle_start_ids | apply day_body_ids].
Qed.

Lemma exec_keys (cfg : Config) (st : Globals) (s : Step) :
  map row_key (rows (exec cfg st s))
  = map row_key (rows st) ++ step_keys (map machine_id (machines st)) s.
Proof.
  destruct s as [cycle k|cycle k d]; simpl.
  - now rewrite cycle_start_rows, app_nil_r.
  - rewrite nth_error_map.
    destruct (nth_error (machines st) k) as [m|] eqn:E; simpl.
    + rewrite (day_body_eq _ _ _ _ _ _ E). cbn [rows].
      rewrite map_app. simpl. unfold row_key at 2. cbn.
      now rewrite day_body_machine_id.
    + unfold day_body. now rewrite E, app_nil_r.
Qed.

Lemma steps_keys (cfg : Config) (l : list Step) :
  forall st,
    map row_key (rows (fold_left (exec cfg) l st))
    = map row_key (rows st)
      ++ flat_map (step_keys (map machine_id (machines st))) l.
Proof.
  induction l as [|s l IH]; intros st; simpl.
  - now rewrite app_nil_r.
  - now rewrite IH, exec_keys, exec_ids, app_assoc.
Qed.

Lemma create_machines_ids (l : list Z) :
  forall g, map machine_id (fst (create_machines l g)) = l.
Proof.
  induction l as [|i l IH]; intros g; simpl; [reflexivity|].
  unfold bind.
  pose proof (MachineBehavior_init_id i g) as Hi.
  destruct (MachineBehavior_init i g) as [m g1]. cbn [fst] in Hi.
  specialize (IH g1). destruct (create_machines l g1) as [ms g2].
  cbn in *. now rewrite Hi, IH.
Qed.

Lemma flat_map_flat_map {A B C : Type} (f : B -> list C) (h : A -> list B)
    (l : list A) :
  flat_map f (flat_map h l) = flat_map (fun a => flat_map f (h a)) l.
Proof.
  induction l as [|a l IH]; simpl; [reflexivity|].
  now rewrite flat_map_app, IH.
Qed.

Lemma flat_map_map_list {A B C : Type} (f : B -> list C) (h : A -> B)
    (l : list A) :
  flat_map f (map h l) = flat_map (fun a => f (h a)) l.
Proof.
  induction l as [|a l IH]; simpl; [reflexivity|]. now rewrite IH.
Qed.

Lemma flat_map_singleton {A B : Type} (f : A -> B) (l : list A) :
  flat_map (fun a => [f a]) l = map f l.
Proof.
  induction l as [|a l IH]; simpl; [reflexivity|]. now rewrite IH.
Qed.

Lemma flat_map_ext_in {A B : Type} (f f' : A -> list B) (l : list A) :
  (forall a, In a l -> f a = f' a) -> flat_map f l = flat_map f' l.
Proof.
  induction l as [|a l IH]; intros H; simpl; [reflexivity|].
  rewrite H by now left. f_equal. apply IH. intros; apply H; now right.
Qed.

Lemma range_length (lo hi : Z) :
  List.length (range lo hi) = Z.to_nat (hi - lo).
Proof. unfold range. now rewrite length_map, length_seq. Qed.

Lemma schedule_keys (cfg : Config) :
  let ids := range 1 (num_machines cfg + 1) in
  flat_map (step_keys ids) (schedule cfg (List.length ids))
  = expected_keys cfg.
Proof.
  cbv zeta. unfold schedule, expected_keys.
  rewrite flat_map_flat_map. apply flat_map_ext. intros cycle.
  rewrite flat_map_flat_map, range_length.
  unfold range at 3. rewrite flat_map_map_list.
  apply flat_map_ext_in. intros k Hk. apply in_seq in Hk.
  unfold machine_steps. simpl. rewrite flat_map_map_list.
  unfold step_keys, range at 1.
  rewrite nth_error_map, nth_error_seq.
  destruct (Nat.ltb_spec k (Z.to_nat (num_machines cfg + 1 - 1))); [|lia].
  simpl. apply flat_map_singleton.
Qed.

Lemma main_keys (cfg : Config) (g : Rng) :
  map row_key (rows (main cfg g)) = expected_keys cfg.
Proof.
  unfold main. rewrite cycle_loop_schedule, steps_keys.
  rewrite initial_globals_machines, create_machines_ids.
  replace (rows (initial_globals cfg g)) with (@nil Row)
    by (unfold initial_globals; now destruct (create_machines _ _)).
  assert (Hlen : List.length
                   (fst (create_machines (range 1 (num_machines cfg + 1)) g))
                 = List.length (range 1 (num_machines cfg + 1))).
  { rewrite <- (length_map machine_id). now rewrite create_machines_ids. }
  rewrite Hlen. simpl. apply schedule_keys.
Qed.

Lemma flat_map_const_length {A B : Type} (f : A -> list B) (c : nat)
    (l : list A) :
  (forall a, List.length (f a) = c) ->
  List.length (flat_map f l) = (List.length l * c)%nat.
Proof.
  intros H. induction l as [|a l IH]; simpl; [reflexivity|].
  now rewrite length_app, H, IH.
Qed.

Lemma expected_keys_length (cfg : Config) :
  List.length (expected_keys cfg)
  = (Z.to_nat (num_cycles cfg)
     * (Z.to_nat (num_machines cfg) * Z.to_nat (days_per_cycle cfg)))%nat.
Proof.
  unfold expected_keys.
  rewrite (flat_map_const_length _
             (Z.to_nat (num_machines cfg) * Z.to_nat (days_per_cycle cfg))).
  - rewrite range_length. f_equal. f_equal. lia.
  - intros cycle.
    rewrite (flat_map_const_length _ (Z.to_nat (days_per_cycle cfg))).
    + rewrite range_length. f_equal. f_equal. lia.
    + intros id. rewrite length_map, range_length. f_equal. lia.
Qed.

Lemma range_NoDup (lo hi : Z) : NoDup (range lo hi).
Proof.
  unfold range. apply NoDup_map_NoDup_ForallPairs; [|apply seq_NoDup].
  intros x y _ _ H. lia.
Qed.

Lemma NoDup_flat_map_disjoint {A B : Type} (f : A -> list B) (l : list A) :
  NoDup l ->
  (forall a, NoDup (f a)) ->
  (forall a b x, In x (f a) -> In x (f b) -> a = b) ->
  NoDup (flat_map f l).
Proof.
  intros Hl Hf Hd. induction Hl as [|a l Ha Hl IH]; simpl; [constructor|].
  apply NoDup_app; [apply Hf | exact IH |].
  intros x Hx Hx'. apply in_flat_map in Hx' as (b & Hb & Hxb).
  assert (a = b) by (eapply Hd; eassumption). now subst.
Qed.

Lemma expected_keys_NoDup (cfg : Config) : NoDup (expected_keys cfg).
Proof.
  unfold expected_keys. apply NoDup_flat_map_disjoint.
  - apply range_NoDup.
  - intros cycle. apply NoDup_flat_map_disjoint.
    + apply range_NoDup.
    + intros id. apply NoDup_map_NoDup_ForallPairs; [|apply range_NoDup].
      intros x y _ _ H. congruence.
    + intros a b x Ha Hb.
      apply in_map_iff in Ha as (d & <- & _).
      apply in_map_iff in Hb as (d' & E & _). congruence.
  - intros a b x Ha Hb.
    apply in_flat_map in Ha as (i & _ & Ha).
    apply in_flat_map in Hb as (i' & _ & Hb).
    apply in_map_iff in Ha as (d & <- & _).
    apply in_map_iff in Hb as (d' & E & _). congruence.
Qed.

Lemma main_rows_length (cfg : Config) (g : Rng) :
  List.length (rows (main cfg g))
  = (Z.to_nat (num_cycles cfg)
     * (Z.to_nat (num_machines cfg) * Z.to_nat (days_per_cycle cfg)))%nat.
Proof.
  rewrite <- expected_keys_length, <- (main_keys cfg g). now rewrite length_map.
Qed.

Lemma exec_rows_day (cfg : Config) (st : Globals) (s : Step) :
  Forall
    (fun r =>
       row_day r
       = ((row_cycle r - 1) * days_per_cycle cfg + row_day_in_cycle r)%Z)
    (rows st) ->
  Forall
    (fun r =>
       row_day r
       = ((row_cycle r - 1) * days_per_cycle cfg + row_day_in_cycle r)%Z)
    (rows (exec cfg st s)).
Proof.
  intros H. destruct s as [cycle k|cycle k d]; simpl.
  - now rewrite cycle_start_rows.
  - destruct (nth_error (machines st) k) as [m|] eqn:E.
    + rewrite (day_body_eq _ _ _ _ _ _ E). cbn [rows].
      apply Forall_app. split; [assumption|]. now repeat constructor.
    + unfold day_body. now rewrite E.
Qed.

(** ** C9 *)

(** C9: for a positive machine count M, cycle count C and days-per-cycle D,
    the run emits exactly M * C * D records; their (machine, cycle,
    day-in-cycle) keys are the enumeration of every machine-day in the
    order cycle, machine, day, so no machine-day is omitted or duplicated,
    and each record carries the absolute day of its cycle and day; with the
    default configuration this is 18000 records. *)
Theorem C9_record_count (cfg : Config) (g : Rng) :
  (0 < num_machines cfg)%Z ->
  (0 < num_cycles cfg)%Z ->
  (0 < days_per_cycle cfg)%Z ->
  Z.of_nat (List.length (rows (main cfg g)))
  = (num_machines cfg * num_cycles cfg * days_per_cycle cfg)%Z /\
  map row_key (rows (main cfg g)) = expected_keys cfg /\
  NoDup (map row_key (rows (main cfg g))) /\
  Forall
    (fun r =>
       row_day r
       = ((row_cycle r - 1) * days_per_cycle cfg + row_day_in_cycle r)%Z)
    (rows (main cfg g)) /\
  (forall g', Z.of_nat (List.length (rows (main default_config g')))
              = 18000%Z).
Proof.
  intros HM HC HD. split; [|split; [|split; [|split]]].
  - rewrite main_rows_length. lia.
  - apply main_keys.
  - rewrite main_keys. apply expected_keys_NoDup.
  - unfold main. rewrite cycle_loop_schedule. apply fold_left_preserves.
    + intros s a. apply exec_rows_day.
    + unfold initial_globals. destruct (create_machines _ _). constructor.
  - intros g'. rewrite main_rows_length. reflexivity.
Qed.

Lemma C9_record_count_witness :
  Z.of_nat (List.length (rows (main default_config rng_zero)))
  = (num_machines default_config * num_cycles default_config
     * days_per_cycle default_config)%Z.
Proof.
  apply (C9_record_count default_config rng_zero); reflexivity.
Defined.

(** ** C8 *)

Lemma expected_keys_degenerate (cfg : Config) :
  (num_machines cfg <= 0 \/ num_cycles cfg <= 0 \/ days_per_cycle cfg <= 0)%Z ->
  expected_keys cfg = [].
Proof.
  intros H. apply length_zero_iff_nil. rewrite expected_keys_length.
  destruct H as [H|[H|H]].
  - replace (Z.to_nat (num_machines cfg)) with O by lia. lia.
  - replace (Z.to_nat (num_cycles cfg)) with O by lia. lia.
  - replace (Z.to_nat (days_per_cycle cfg)) with O by lia. lia.
Qed.

(** C8, as stated, fails: with a machine count of 0 the script raises
    nothing; it completes and hands an empty dataset to the writer. *)
Lemma C8_zero_machines_not_rejected :
  run_script {| num_machines := 0; days_per_cycle := 180; num_cycles := 10 |}
    rng_zero = Completed [] /\
  forall message,
    run_script {| num_machines := 0; days_per_cycle := 180; num_cycles := 10 |}
      rng_zero <> Raised message.
Proof.
  assert (E : run_script
                {| num_machines := 0; days_per_cycle := 180;
                   num_cycles := 10 |} rng_zero = Completed []).
  { unfold run_script.
    rewrite (proj1 (length_zero_iff_nil (rows (main _ rng_zero))));
      [reflexivity|].
    rewrite main_rows_length. reflexivity. }
  split; [exact E|]. intros message. rewrite E. discriminate.
Qed.

(** C8, amended: when the machine count, the cycle count or the
    days-per-cycle is not positive, the script raises no error; it completes
    with an empty dataset. *)
Theorem C8_degenerate_configuration_empty_dataset (cfg : Config) (g : Rng) :
  (num_machines cfg <= 0 \/ num_cycles cfg <= 0 \/ days_per_cycle cfg <= 0)%Z ->
  run_script cfg g = Completed [].
Proof.
  intros H. unfold run_script.
  rewrite (map_eq_nil row_key (rows (main cfg g))); [reflexivity|].
  rewrite main_keys. now apply expected_keys_degenerate.
Qed.

Lemma C8_degenerate_configuration_empty_dataset_witness :
  run_script {| num_machines := 10; days_per_cycle := 0; num_cycles := 10 |}
    rng_zero = Completed [].
Proof.
  apply (C8_degenerate_configuration_empty_dataset
           {| num_machines := 10; days_per_cycle := 0; num_cycles := 10 |}
           rng_zero).
  right. right. simpl. lia.
Defined.

(** ** C7 *)

Lemma seasonal_temp_effect_in_cycle_nonneg (d : Z) :
  (1 <= d <= DAYS_PER_CYCLE)%Z -> 0 <= seasonal_temp_effect d.
Proof.
  unfold DAYS_PER_CYCLE. intros [H1 H2]. unfold seasonal_temp_effect.
  rewrite Z.mod_small by lia.
  apply IZR_le in H1, H2. assert (Hpi := PI_RGT_0).
  assert (0 <= sin (2 * PI * IZR d / 365)); [|lra].
  apply sin_ge_0; [|nra].
  apply Rmult_le_pos; [|lra]. apply Rmult_le_pos; lra.
Qed.

(** C7: evaluation of the code at cycle 2, day 93 of the cycle (absolute
    day 273 with the default cycle length).  The driver passes the day
    within the cycle to [calculate_sensor_readings], so the ambient term it
    adds is 3 * sin(2 * pi * 93 / 365) > 0, while the term of the absolute
    day, 3 * sin(2 * pi * 273 / 365), is negative.  With the default cycle
    length the ambient term the code adds is never negative: it restarts at
    every cycle and does not complete an annual cycle. *)
Theorem C7_ambient_term_follows_day_in_cycle :
  ((2 - 1) * DAYS_PER_CYCLE + 93 = 273)%Z /\
  0 < seasonal_temp_effect 93 /\
  seasonal_ambient_of_absolute_day ((2 - 1) * DAYS_PER_CYCLE + 93) < 0 /\
  seasonal_temp_effect 93
  <> seasonal_ambient_of_absolute_day ((2 - 1) * DAYS_PER_CYCLE + 93) /\
  (forall d, (1 <= d <= DAYS_PER_CYCLE)%Z -> 0 <= seasonal_temp_effect d).
Proof.
  assert (Hpi := PI_RGT_0).
  assert (H1 : 0 < seasonal_temp_effect 93).
  { unfold seasonal_temp_effect.
    change (93 mod 365)%Z with 93%Z.
    assert (0 < sin (2 * PI * 93 / 365)); [|lra].
    apply sin_gt_0; lra. }
  assert (H2 : seasonal_ambient_of_absolute_day
                 ((2 - 1) * DAYS_PER_CYCLE + 93) < 0).
  { unfold seasonal_ambient_of_absolute_day.
    change (((2 - 1) * DAYS_PER_CYCLE + 93) mod 365)%Z with 273%Z.
    assert (sin (2 * PI * 273 / 365) < 0); [|lra].
    apply sin_lt_0; lra. }
  split; [reflexivity|]. split; [exact H1|]. split; [exact H2|].
  split; [lra|]. apply seasonal_temp_effect_in_cycle_nonneg.
Qed.

(** ** C5 *)

Lemma scheduled_load_day_365 :
  fst (scheduled_load 365 rng_surge_then_dip) = 68.
Proof.
  unfold scheduled_load, seasonal_factor.
  change (365 mod 7)%Z with 1%Z. change (365 mod 30)%Z with 5%Z.
  change (365 mod 365)%Z with 0%Z. cbn -[sin PI].
  replace (2 * PI * 0 / 365) with 0 by lra. rewrite sin_0. lra.
Qed.

Lemma scheduled_load_day_365_rng :
  py_stream (snd (scheduled_load 365 rng_surge_then_dip))
  = py_stream rng_surge_then_dip /\
  forall n, u01 (np_uniform_stream (snd (scheduled_load 365 rng_surge_then_dip)) n)
            = 0.
Proof.
  unfold scheduled_load.
  change (365 mod 7)%Z with 1%Z. change (365 mod 30)%Z with 5%Z.
  cbn. split; reflexivity.
Qed.

Lemma clamp_inside (x : R) : 35 <= x <= 98 -> Rmax 35 (Rmin 98 x) = x.
Proof.
  intros H. rewrite Rmin_right by lra. apply Rmax_right; lra.
Qed.

Lemma generate_load_pattern_split (day cycle_day : Z) (g : Rng) :
  fst (generate_load_pattern day cycle_day g)
  = Rmax 35
      (Rmin 98
         (fst (production_anomaly (fst (scheduled_load day g))
                 (snd (scheduled_load day g))))).
Proof.
  unfold generate_load_pattern, bind, ret.
  destruct (scheduled_load day g) as [b g1]. cbn [fst snd].
  now destruct (production_anomaly b g1).
Qed.

Lemma generate_load_pattern_independent_split (day cycle_day : Z) (g : Rng) :
  fst (generate_load_pattern_independent day cycle_day g)
  = Rmax 35
      (Rmin 98
         (fst (production_anomaly_independent (fst (scheduled_load day g))
                 (snd (scheduled_load day g))))).
Proof.
  unfold generate_load_pattern_independent, bind, ret.
  destruct (scheduled_load day g) as [b g1]. cbn [fst snd].
  now destruct (production_anomaly_independent b g1).
Qed.

(** What [production_anomaly] returns and how many [random.random()] draws
    it consumes, in terms of the next draws of the generators. *)
Lemma production_anomaly_eq (b : R) (g : Rng) :
  fst (production_anomaly b g)
  = (if Rltb (py_stream g 0) 0.1
     then b + (15 + (30 - 15) * np_uniform_stream g 0)
     else if Rltb (py_stream g 1) 0.08
          then b - (10 + (25 - 10) * np_uniform_stream g 0)
          else b) /\
  py_stream (snd (production_anomaly b g))
  = (if Rltb (py_stream g 0) 0.1
     then tl_stream (py_stream g)
     else tl_stream (tl_stream (py_stream g))).
Proof.
  unfold production_anomaly, bind, ret, random_random, np_random_uniform.
  cbn [fst snd py_stream np_uniform_stream].
  destruct (Rltb (py_stream g 0) 0.1);
    cbn [fst snd py_stream np_uniform_stream]; [split; reflexivity|].
  change (tl_stream (py_stream g) 0%nat) with (py_stream g 1%nat).
  destruct (Rltb (py_stream g 1) 0.08);
    cbn [fst snd py_stream np_uniform_stream]; split; reflexivity.
Qed.

Lemma production_anomaly_independent_eq (b : R) (g : Rng) :
  fst (production_anomaly_independent b g)
  = (if Rltb (py_stream g 0) 0.1
     then if Rltb (py_stream g 1) 0.08
          then b + (15 + (30 - 15) * np_uniform_stream g 0)
               - (10 + (25 - 10) * np_uniform_stream g 1)
          else b + (15 + (30 - 15) * np_uniform_stream g 0)
     else if Rltb (py_stream g 1) 0.08
          then b - (10 + (25 - 10) * np_uniform_stream g 0)
          else b).
Proof.
  unfold production_anomaly_independent, bind, ret, random_random,
    np_random_uniform.
  cbn [fst snd py_stream np_uniform_stream].
  destruct (Rltb (py_stream g 0) 0.1);
    cbn [fst snd py_stream np_uniform_stream];
    change (tl_stream (py_stream g) 0%nat) with (py_stream g 1%nat);
    destruct (Rltb (py_stream g 1) 0.08);
    cbn [fst snd py_stream np_uniform_stream]; reflexivity.
Qed.

(** C5, as stated, fails: on absolute day 365, with the next two
    [random.random()] draws at 0.05 (below the surge threshold 0.10) and 0.01
    (below the dip threshold 0.08), the code applies the surge only and
    returns 83; applying both, as two independent tests would, gives 73. *)
Lemma C5_surge_and_dip_never_both :
  u01 (py_stream rng_surge_then_dip 0) < 0.1 /\
  u01 (py_stream rng_surge_then_dip 1) < 0.08 /\
  fst (generate_load_pattern 365 5 rng_surge_then_dip) = 83 /\
  fst (generate_load_pattern_independent 365 5 rng_surge_then_dip) = 73 /\
  fst (generate_load_pattern 365 5 rng_surge_then_dip)
  <> fst (generate_load_pattern_independent 365 5 rng_surge_then_dip).
Proof.
  destruct scheduled_load_day_365_rng as [Hpy Hnp].
  assert (H0 : Rltb (py_stream rng_surge_then_dip 0) 0.1 = true)
    by (apply Rltb_true; simpl; lra).
  assert (H1 : Rltb (py_stream rng_surge_then_dip 1) 0.08 = true)
    by (apply Rltb_true; simpl; lra).
  assert (Ecode : fst (generate_load_pattern 365 5 rng_surge_then_dip) = 83).
  { rewrite generate_load_pattern_split.
    rewrite (proj1 (production_anomaly_eq _ _)).
    rewrite Hpy, H0, Hnp, scheduled_load_day_365.
    replace (68 + (15 + (30 - 15) * 0)) with 83 by lra.
    apply clamp_inside; lra. }
  assert (Espec : fst (generate_load_pattern_independent 365 5
                         rng_surge_then_dip) = 73).
  { rewrite generate_load_pattern_independent_split.
    rewrite production_anomaly_independent_eq.
    rewrite Hpy, H0, H1, !Hnp, scheduled_load_day_365.
    replace (68 + (15 + (30 - 15) * 0) - (10 + (25 - 10) * 0)) with 73 by lra.
    apply clamp_inside; lra. }
  split; [simpl; lra|]. split; [simpl; lra|].
  split; [exact Ecode|]. split; [exact Espec|].
  rewrite Ecode, Espec. lra.
Qed.

(** C5, amended: the anomaly surge and dip are an if/elif pair.  When the
    first draw is below 0.10 the uniform(15,30) surge is added and no second
    draw is made; only otherwise is a second draw made, and when that is
    below 0.08 the uniform(10,25) dip is subtracted.  The surge and the dip
    are never both applied to the same load value. *)
Theorem C5_anomalies_are_exclusive (day cycle_day : Z) (g : Rng) :
  let b := fst (scheduled_load day g) in
  let g1 := snd (scheduled_load day g) in
  fst (generate_load_pattern day cycle_day g)
  = Rmax 35
      (Rmin 98
         (if Rltb (py_stream g1 0) 0.1
          then b + (15 + (30 - 15) * np_uniform_stream g1 0)
          else if Rltb (py_stream g1 1) 0.08
               then b - (10 + (25 - 10) * np_uniform_stream g1 0)
               else b)) /\
  py_stream (snd (production_anomaly b g1))
  = (if Rltb (py_stream g1 0) 0.1
     then tl_stream (py_stream g1)
     else tl_stream (tl_stream (py_stream g1))).
Proof.
  cbv zeta. rewrite generate_load_pattern_split.
  destruct (production_anomaly_eq (fst (scheduled_load day g))
              (snd (scheduled_load day g))) as [E1 E2].
  now rewrite E1, E2.
Qed.

(** ** At most one failure per machine and cycle *)

Lemma fold_left_seq_inv {St : Type} (f : St -> nat -> St)
    (I : nat -> St -> Prop) (len : nat) :
  forall start s,
    I start s ->
    (forall i s, (start <= i < start + len)%nat -> I i s -> I (S i) (f s i)) ->
    I (start + len)%nat (fold_left f (seq start len) s).
Proof.
  induction len as [|len IH]; intros start s H0 Hstep; simpl.
  - now rewrite Nat.add_0_r.
  - rewrite <- Nat.add_succ_comm. apply IH.
    + apply Hstep; [lia | assumption].
    + intros i s' Hi. apply Hstep. lia.
Qed.

Lemma Quiet_no_failure_after_failure (l : list Row) :
  Quiet l -> no_failure_after_failure l.
Proof.
  induction 1 as [|l r Hq IH Hr]; intros i j r1 r2 Hij H1 H2 Hk Hf.
  - destruct i; discriminate.
  - assert (Hj : (j < List.length (l ++ [r]))%nat)
      by (apply nth_error_Some; congruence).
    rewrite length_app in Hj. simpl in Hj.
    rewrite nth_error_app1 in H1 by lia.
    destruct (Nat.eq_dec j (List.length l)) as [->|Hne].
    + rewrite nth_error_app2, Nat.sub_diag in H2 by lia.
      injection H2 as <-.
      apply (Hr r1); auto. eapply nth_error_In; eassumption.
    + rewrite nth_error_app1 in H2 by lia.
      apply (IH i j r1 r2); assumption.
Qed.

Lemma Quiet_failures_of (l : list Row) (mid cyc : Z) :
  Quiet l -> (List.length (failures_of mid cyc l) <= 1)%nat.
Proof.
  induction 1 as [|l r Hq IH Hr]; [simpl; lia|].
  unfold failures_of in *. rewrite filter_app, length_app. simpl.
  destruct ((row_machine_id r =? mid)%Z && (row_cycle r =? cyc)%Z
            && (row_failure_event r =? 1)%Z) eqn:E; simpl; [|lia].
  apply andb_prop in E as [E E3]. apply andb_prop in E as [E1 E2].
  apply Z.eqb_eq in E1, E2, E3.
  match goal with
  | |- (List.length ?fl + 1 <= 1)%nat => destruct fl as [|r0 fl'] eqn:Efl
  end; [simpl; lia|].
  exfalso.
  assert (Hin : In r0 (filter
                         (fun r => (row_machine_id r =? mid)%Z
                                   && (row_cycle r =? cyc)%Z
                                   && (row_failure_event r =? 1)%Z) l))
    by (rewrite Efl; now left).
  apply filter_In in Hin as [Hin Hp].
  apply andb_prop in Hp as [Hp Hp3]. apply andb_prop in Hp as [Hp1 Hp2].
  apply Z.eqb_eq in Hp1, Hp2, Hp3.
  assert (row_failure_event r = 0%Z).
  { apply (Hr r0); auto. split; congruence. }
  lia.
Qed.

Lemma ids_nth (ids : list Z) (st : Globals) (k : nat) (m : MachineBehavior) :
  ids_wf ids ->
  map machine_id (machines st) = ids ->
  nth_error (machines st) k = Some m ->
  machine_id m = (1 + Z.of_nat k)%Z.
Proof.
  intros Hwf Hids Hk. apply Hwf. rewrite <- Hids, nth_error_map, Hk.
  reflexivity.
Qed.

Lemma rows_before_weaken (cycle : Z) (k : nat) (l : list Row) :
  rows_before cycle k l -> rows_before cycle (S k) l.
Proof.
  apply Forall_impl. intros r [H|[H1 H2]]; [now left|right]. split; lia.
Qed.

Lemma cycle_start_block_inv (ids : list Z) (cycle : Z) (k : nat)
    (st : Globals) :
  (k < List.length ids)%nat ->
  machine_inv ids cycle k st ->
  block_inv ids cycle k (cycle_start cycle k st).
Proof.
  intros Hk (Hids & Hq & Hb).
  split; [|split; [|split]].
  - now rewrite cycle_start_ids.
  - now rewrite cycle_start_rows.
  - rewrite cycle_start_rows. now apply rows_before_weaken.
  - intros _. rewrite cycle_start_rows.
    eapply Forall_impl; [|exact Hb].
    intros r [H|[H1 H2]] Hc Hm; lia.
Qed.

Lemma cycle_start_failure_occurred (cycle : Z) (k : nat) (st : Globals)
    (m : MachineBehavior) :
  nth_error (machines st) k = Some m ->
  failure_occurred (cycle_start cycle k st) = false /\
  consecutive_high_risk_days (cycle_start cycle k st) = 0%Z /\
  intermittent_fault_days (cycle_start cycle k st) = 0%Z.
Proof.
  intros H. unfold cycle_start. rewrite H.
  destruct (if (cycle >? 1)%Z then _ else _). now cbn.
Qed.

(** What one simulated day appends and how it moves the failure state. *)
Lemma day_body_shape (cfg : Config) (cycle : Z) (k : nat) (d : Z)
    (st : Globals) (m : MachineBehavior) :
  nth_error (machines st) k = Some m ->
  exists r,
    rows (day_body cfg cycle k d st) = rows st ++ [r] /\
    row_machine_id r = machine_id m /\
    row_cycle r = cycle /\
    row_day_in_cycle r = d /\
    ((row_failure_event r = 0%Z /\
      failure_occurred (day_body cfg cycle k d st) = failure_occurred st) \/
     (failure_occurred st = false /\
      row_failure_event r = 1%Z /\
      failure_occurred (day_body cfg cycle k d st) = true)).
Proof.
  intros Hk. rewrite (day_body_eq _ _ _ _ _ _ Hk).
  cbn [rows failure_occurred]. eexists. split; [reflexivity|].
  cbn [row_machine_id row_cycle row_day_in_cycle row_failure_event].
  split; [apply day_body_machine_id|]. split; [reflexivity|].
  split; [reflexivity|].
  match goal with
  | |- context [determine_failure ?fo ?chr ?ifd ?risk ?mm ?g] =>
      destruct (determine_failure_cases fo chr ifd risk mm g) as [E|[Hfo E]];
      rewrite E; cbn [fst snd]
  end.
  - left. now split.
  - right. now split.
Qed.

Lemma nth_error_of_ids (ids : list Z) (st : Globals) (k : nat) :
  map machine_id (machines st) = ids ->
  (k < List.length ids)%nat ->
  exists m, nth_error (machines st) k = Some m.
Proof.
  intros Hids Hk. rewrite <- Hids, length_map in Hk.
  destruct (nth_error (machines st) k) as [m|] eqn:E; [now exists m|].
  apply nth_error_None in E. lia.
Qed.

Lemma day_body_block_inv (cfg : Config) (ids : list Z) (cycle : Z) (k : nat)
    (d : Z) (st : Globals) :
  ids_wf ids ->
  (k < List.length ids)%nat ->
  block_inv ids cycle k st ->
  block_inv ids cycle k (day_body cfg cycle k d st).
Proof.
  intros Hwf Hk (Hids & Hq & Hb & Hf).
  destruct (nth_error_of_ids ids st k Hids Hk) as [m Hm].
  pose proof (ids_nth ids st k m Hwf Hids Hm) as Hid.
  destruct (day_body_shape cfg cycle k d st m Hm)
    as (r & Hrows & Hrid & Hrc & _ & Hcase).
  rewrite Hid in Hrid.
  split; [|split; [|split]].
  - now rewrite day_body_ids.
  - rewrite Hrows. constructor; [assumption|].
    intros r0 Hin [Hk1 Hk2] Hfe.
    destruct Hcase as [[H0 _]|(Hfo & _ & _)]; [assumption|].
    specialize (Hf Hfo). rewrite Forall_forall in Hf.
    specialize (Hf r0 Hin). rewrite Hf in Hfe; [discriminate| |]; congruence.
  - rewrite Hrows. apply Forall_app. split; [assumption|].
    constructor; [|constructor]. right. split; [assumption|]. lia.
  - intros Hfo'. rewrite Hrows. apply Forall_app.
    destruct Hcase as [[H0 Heq]|(_ & _ & Ht)]; [|congruence].
    split.
    + apply Hf. congruence.
    + constructor; [|constructor]. intros _ _. exact H0.
Qed.

Lemma machine_body_inv (cfg : Config) (ids : list Z) (cycle : Z) (k : nat)
    (st : Globals) :
  ids_wf ids ->
  (k < List.length ids)%nat ->
  machine_inv ids cycle k st ->
  machine_inv ids cycle (S k) (machine_body cfg cycle st k).
Proof.
  intros Hwf Hk H. unfold machine_body, day_loop.
  assert (Hb : block_inv ids cycle k
                 (fold_left
                    (fun st0 day_in_cycle =>
                       day_body cfg cycle k day_in_cycle st0)
                    (range 1 (days_per_cycle cfg + 1))
                    (cycle_start cycle k st))).
  { apply fold_left_preserves.
    - intros s d. now apply day_body_block_inv.
    - now apply cycle_start_block_inv. }
  destruct Hb as (H1 & H2 & H3 & _). now split.
Qed.

Lemma machine_loop_inv (cfg : Config) (ids : list Z) (cycle : Z)
    (st : Globals) :
  ids_wf ids ->
  machine_inv ids cycle 0 st ->
  machine_inv ids cycle (List.length ids) (machine_loop cfg cycle st).
Proof.
  intros Hwf H. unfold machine_loop.
  assert (Hlen : List.length (machines st) = List.length ids).
  { destruct H as [<- _]. now rewrite length_map. }
  rewrite Hlen.
  apply (fold_left_seq_inv (machine_body cfg cycle)
           (fun k s => machine_inv ids cycle k s) (List.length ids) 0%nat st);
    [assumption|].
  intros i s Hi Hs. apply machine_body_inv; [assumption|lia|assumption].
Qed.

Lemma cycle_body_inv (cfg : Config) (ids : list Z) (cycle : Z)
    (st : Globals) :
  ids_wf ids ->
  cycle_inv ids cycle st ->
  cycle_inv ids (cycle + 1) (machine_loop cfg cycle st).
Proof.
  intros Hwf (Hids & Hq & Hb).
  assert (H0 : machine_inv ids cycle 0 st).
  { split; [assumption|]. split; [assumption|].
    eapply Forall_impl; [|exact Hb]. intros r Hr. now left. }
  destruct (machine_loop_inv cfg ids cycle st Hwf H0) as (H1 & H2 & H3).
  split; [assumption|]. split; [assumption|].
  eapply Forall_impl; [|exact H3]. intros r [Hr|[Hr _]]; lia.
Qed.

Lemma cycle_loop_inv (cfg : Config) (ids : list Z) (st : Globals) :
  ids_wf ids ->
  cycle_inv ids 1 st ->
  Quiet (rows (cycle_loop cfg st)).
Proof.
  intros Hwf H. unfold cycle_loop, range. rewrite fold_left_map_list.
  set (n := Z.to_nat (num_cycles cfg + 1 - 1)).
  pose proof
    (fold_left_seq_inv
       (fun s i => machine_loop cfg (1 + Z.of_nat i) s)
       (fun i s => cycle_inv ids (1 + Z.of_nat i) s) n 0%nat st H) as Hfold.
  destruct Hfold as (_ & Hq & _); [|exact Hq].
  intros i s _ Hs.
  replace (1 + Z.of_nat (S i))%Z with (1 + Z.of_nat i + 1)%Z by lia.
  now apply cycle_body_inv.
Qed.

Lemma range_ids_wf (n : Z) : ids_wf (range 1 (n + 1)).
Proof.
  intros k id H. unfold range in H.
  rewrite nth_error_map, nth_error_seq in H.
  destruct (Nat.ltb k _); simpl in H; [|discriminate]. now injection H as <-.
Qed.

Lemma main_rows_Quiet (cfg : Config) (g : Rng) : Quiet (rows (main cfg g)).
Proof.
  unfold main.
  apply (cycle_loop_inv cfg (range 1 (num_machines cfg + 1)));
    [apply range_ids_wf|].
  split; [|split].
  - rewrite initial_globals_machines. apply create_machines_ids.
  - unfold initial_globals. destruct (create_machines _ _). constructor.
  - unfold initial_globals. destruct (create_machines _ _). constructor.
Qed.

Lemma determine_failure_after_failure (chr ifd : Z) (risk : R)
    (m : MachineBehavior) (g : Rng) :
  determine_failure true chr ifd risk m g = (0%Z, true, m, g).
Proof. reflexivity. Qed.

(** After a failure in the cycle, a simulated day still synthesises the
    readings, updates the degradation state and appends a record, with
    failure_event 0. *)
Lemma day_body_after_failure (cfg : Config) (cycle : Z) (k : nat) (d : Z)
    (st : Globals) (m : MachineBehavior) :
  nth_error (machines st) k = Some m ->
  failure_occurred st = true ->
  exists r sr v,
    sensor_ok sr /\
    rows (day_body cfg cycle k d st) = rows st ++ [r] /\
    row_failure_event r = 0%Z /\
    row_temperature r = temperature sr /\
    row_vibration r = vibration sr /\
    row_rpm r = rpm sr /\
    row_load r = load sr /\
    failure_occurred (day_body cfg cycle k d st) = true /\
    nth_error (machines (day_body cfg cycle k d st)) k
    = Some (set_intermittent_fault_active (update_degradation m sr d) v).
Proof.
  intros Hk Hfo. rewrite (day_body_eq _ _ _ _ _ _ Hk). rewrite Hfo.
  rewrite determine_failure_after_failure.
  cbn [rows failure_occurred machines fst snd].
  match goal with
  | |- context [check_failure_risk ?mm ?sr ?dd ?g] =>
      destruct (check_failure_risk_frame mm sr dd g) as [v Hv];
      rewrite Hv; exists
        {| row_machine_id := machine_id (set_intermittent_fault_active mm v);
           row_cycle := cycle;
           row_day := ((cycle - 1) * days_per_cycle cfg + d)%Z;
           row_day_in_cycle := d;
           row_temperature := temperature sr;
           row_vibration := vibration sr;
           row_rpm := rpm sr;
           row_load := load sr;
           row_service_flag :=
             if (d =? 1)%Z && (cycle >? 1)%Z then 1%Z else 0%Z;
           row_failure_event := 0 |}, sr, v
  end.
  split; [apply day_body_sensor_ok|].
  repeat (split; [reflexivity|]).
  eapply nth_error_list_set; eassumption.
Qed.

Lemma update_degradation_keeps_high_wear (m : MachineBehavior)
    (sr : SensorReadings) (d : Z) :
  machine_ok m -> sensor_ok sr -> 0.95 < bearing_wear m ->
  0.95 < bearing_wear (update_degradation m sr d).
Proof.
  intros [(Ha & Hw & _ & _) _] (_ & Hv & _ & Hl) Hb.
  assert (Hinc : bearing_wear m
                 < bearing_wear (update_degradation m sr d)
                 \/ 1 <= bearing_wear m).
  { destruct (Rlt_dec (bearing_wear m) 1) as [Hlt|Hge]; [left|right; lra].
    apply update_degradation_bearing_wear_increases; lra. }
  destruct Hinc as [Hinc|Hge]; [lra|].
  unfold update_degradation; cbn [bearing_wear].
  assert (Hinv : 0 < 1 / wear_resistance m).
  { apply Rdiv_lt_0_compat; lra. }
  assert (Haf : 0 <= Rmin 2.0 (1.0 + age m / 10)).
  { unfold Rmin. destruct (Rle_dec _ _); lra. }
  assert (Hrate : 0 <= (vibration sr * 0.5 + load sr / 100 * 0.1)
                       * (1 / wear_resistance m) * 0.001
                       * Rmin 2.0 (1.0 + age m / 10)).
  { apply Rmult_le_pos; [|exact Haf].
    apply Rmult_le_pos; [|lra].
    apply Rmult_le_pos; lra. }
  match type of Hrate with 0 <= ?e => set (inc := e) in * end.
  unfold Rmin. destruct (Rle_dec _ _); lra.
Qed.

(** In the not-yet-failed state a day on which the hard-failure override
    fires records the failure. *)
Lemma day_body_records_failure (cfg : Config) (cycle : Z) (k : nat) (d : Z)
    (st : Globals) (m : MachineBehavior) :
  nth_error (machines st) k = Some m ->
  machine_ok m ->
  0.95 < bearing_wear m ->
  failure_occurred st = false ->
  (0 <= consecutive_high_risk_days st)%Z ->
  exists r,
    rows (day_body cfg cycle k d st) = rows st ++ [r] /\
    row_failure_event r = 1%Z /\
    failure_occurred (day_body cfg cycle k d st) = true.
Proof.
  intros Hk Hok Hb Hfo Hchr. rewrite (day_body_eq _ _ _ _ _ _ Hk).
  cbn [rows failure_occurred]. eexists. split; [reflexivity|].
  cbn [row_failure_event]. rewrite Hfo.
  pose proof (day_body_sensor_ok cfg cycle d (g_rng st) m) as Hs.
  cbv zeta in Hs.
  match goal with
  | |- context [check_failure_risk ?mm ?sr ?dd ?g] =>
      assert (Hrisk : fst (fst (check_failure_risk mm sr dd g)) = 1.0)
        by (apply check_failure_risk_bearing_override;
            now apply update_degradation_keeps_high_wear);
      set (rg := check_failure_risk mm sr dd g) in *
  end.
  rewrite Hrisk.
  replace (Rgtb 1.0 0.6) with true by (symmetry; apply Rgtb_true; lra).
  unfold determine_failure. cbn [negb].
  match goal with
  | |- context [Rgtb ?e 0.85] =>
      replace (Rgtb e 0.85) with true; [now cbn|]
  end.
  symmetry. apply Rgtb_true.
  assert (Hc : 1 <= IZR (consecutive_high_risk_days st + 1)).
  { apply IZR_le. lia. }
  destruct (_ >? 5)%Z; nra.
Qed.

(** ** C2 *)

(** C2: in the records of a run, once a record of a machine in a cycle
    carries failure_event = 1, every later record of that machine and cycle
    carries 0, so each machine has at most one failure record per cycle;
    after the failure a simulated day still synthesises readings, updates
    the degradation state and emits its record; and the start of the next
    cycle of a machine puts the driver back in the not-yet-failed state, in
    which a day whose risk is forced to 1.0 records a failure again. *)
Theorem C2_at_most_one_failure_per_cycle :
  (forall cfg g, no_failure_after_failure (rows (main cfg g))) /\
  (forall cfg g mid cyc,
     (List.length (failures_of mid cyc (rows (main cfg g))) <= 1)%nat) /\
  (forall cfg cycle k d st m,
     nth_error (machines st) k = Some m ->
     failure_occurred st = true ->
     exists r sr v,
       sensor_ok sr /\
       rows (day_body cfg cycle k d st) = rows st ++ [r] /\
       row_failure_event r = 0%Z /\
       row_temperature r = temperature sr /\
       row_vibration r = vibration sr /\
       row_rpm r = rpm sr /\
       row_load r = load sr /\
       failure_occurred (day_body cfg cycle k d st) = true /\
       nth_error (machines (day_body cfg cycle k d st)) k
       = Some (set_intermittent_fault_active (update_degradation m sr d) v)) /\
  (forall cycle k st m,
     nth_error (machines st) k = Some m ->
     failure_occurred (cycle_start cycle k st) = false /\
     consecutive_high_risk_days (cycle_start cycle k st) = 0%Z /\
     intermittent_fault_days (cycle_start cycle k st) = 0%Z) /\
  (forall cfg cycle k d st m,
     nth_error (machines st) k = Some m ->
     machine_ok m ->
     0.95 < bearing_wear m ->
     failure_occurred st = false ->
     (0 <= consecutive_high_risk_days st)%Z ->
     exists r,
       rows (day_body cfg cycle k d st) = rows st ++ [r] /\
       row_failure_event r = 1%Z /\
       failure_occurred (day_body cfg cycle k d st) = true).
Proof.
  split; [|split; [|split; [|split]]].
  - intros cfg g. apply Quiet_no_failure_after_failure, main_rows_Quiet.
  - intros cfg g mid cyc. apply Quiet_failures_of, main_rows_Quiet.
  - intros cfg cycle k d st m. apply day_body_after_failure.
  - intros cycle k st m. apply cycle_start_failure_occurred.
  - intros cfg cycle k d st m. apply day_body_records_failure.
Qed.

(** * Further properties of the simulation *)

(** ** The failure risk is a probability *)

Lemma fold_left_Rmult_acc (l : list R) (a : R) :
  fold_left Rmult l a = a * fold_left Rmult l 1.
Proof.
  revert a. induction l as [|x l IH]; intros a; simpl; [lra|].
  rewrite (IH (a * x)), (IH (1 * x)). lra.
Qed.

Lemma np_prod_cons (x : R) (l : list R) : np_prod (x :: l) = x * np_prod l.
Proof.
  unfold np_prod. simpl. rewrite fold_left_Rmult_acc. lra.
Qed.

Lemma np_prod_complement_bounds (l : list R) :
  Forall (fun r => 0 <= r <= 1) l ->
  0 <= np_prod (map (fun r => 1 - r) l) <= 1.
Proof.
  induction 1 as [|r l Hr Hl IH]; simpl.
  - unfold np_prod; simpl; lra.
  - rewrite np_prod_cons. nra.
Qed.

Lemma np_prod_complement_le (l : list R) (r : R) :
  Forall (fun r => 0 <= r <= 1) l ->
  In r l ->
  np_prod (map (fun r => 1 - r) l) <= 1 - r.
Proof.
  induction 1 as [|x l Hx Hl IH]; intros Hin; [destruct Hin|].
  simpl. rewrite np_prod_cons.
  pose proof (np_prod_complement_bounds l Hl) as Hp.
  destruct Hin as [->|Hin]; [nra|]. specialize (IH Hin). nra.
Qed.

Lemma failure_mode_risks_range (m : MachineBehavior) (sr : SensorReadings)
    (d : Z) :
  Forall (fun r => 0 <= r <= 0.9) (failure_mode_risks m sr d).
Proof.
  unfold failure_mode_risks.
  repeat (apply Forall_cons; [|]); [| | | | | |constructor].
  - destruct (_ && _); [lra|]. destruct (Rgtb _ _); [lra|].
    destruct (Rgtb _ _); lra.
  - destruct (_ && _); [lra|]. destruct (Rgtb _ _); [lra|].
    destruct (_ && _); lra.
  - destruct (_ && _); [lra|]. destruct (Rltb _ _); lra.
  - destruct (Rgtb (stress_accumulation m) 30) eqn:E; simpl; [|lra].
    apply Rgtb_true in E. destruct (_ >? _)%Z; [|lra].
    unfold Rmin. destruct (Rle_dec _ _); lra.
  - match goal with
    | |- context [Rgtb ?s 1.2] => destruct (Rgtb s 1.2) eqn:E; simpl; [|lra]
    end.
    apply Rgtb_true in E. destruct (Rgtb _ _); [|lra].
    unfold Rmin. destruct (Rle_dec _ _); lra.
  - destruct (Rgtb (age m) 5) eqn:E; [|lra]. apply Rgtb_true in E.
    unfold Rmin. destruct (Rle_dec _ _); lra.
Qed.

(** The value [check_failure_risk] returns: the combined risk, or 1.0 when
    an override fires, capped at 1.0. *)
Lemma check_failure_risk_value (m : MachineBehavior) (sr : SensorReadings)
    (d : Z) (g : Rng) :
  fst (fst (check_failure_risk m sr d g)) = Rmin 1.0 1.0 \/
  fst (fst (check_failure_risk m sr d g))
  = Rmin 1.0 (combined_failure_risk m sr d).
Proof.
  unfold check_failure_risk, combined_failure_risk, bind, random_random, ret.
  destruct (intermittent_fault_active m);
    (destruct (_ && _); [destruct (Rltb _ 0.3)|]); cbn [fst snd];
    (destruct (_ || _); [left|]);
    destruct (Rltb _ 0.0002); cbn [fst snd]; auto.
Qed.

Lemma combined_failure_risk_nonneg (m : MachineBehavior)
    (sr : SensorReadings) (d : Z) :
  -15 <= age m -> 0 <= combined_failure_risk m sr d.
Proof.
  intros Ha. unfold combined_failure_risk.
  assert (Hr : Forall (fun r => 0 <= r <= 1) (failure_mode_risks m sr d)).
  { eapply Forall_impl; [|apply failure_mode_risks_range].
    intros r Hr. simpl in Hr. lra. }
  pose proof (np_prod_complement_bounds _ Hr) as Hp.
  apply Rmult_le_pos; [lra|].
  unfold Rmin. destruct (Rle_dec _ _); lra.
Qed.

(** X2: for every machine whose age is at least -15 years (every machine the
    script creates), every reading and every draw, the risk
    [check_failure_risk] returns lies in [0, 1]. *)
Theorem check_failure_risk_is_probability (m : MachineBehavior)
    (sr : SensorReadings) (day_in_cycle : Z) (g : Rng) :
  -15 <= age m ->
  0 <= fst (fst (check_failure_risk m sr day_in_cycle g)) <= 1.
Proof.
  intros Ha.
  pose proof (combined_failure_risk_nonneg m sr day_in_cycle Ha) as Hc.
  destruct (check_failure_risk_value m sr day_in_cycle g) as [E|E];
    rewrite E; unfold Rmin; destruct (Rle_dec _ _); lra.
Qed.

Lemma check_failure_risk_is_probability_witness :
  0 <= fst (fst (check_failure_risk (sample_machine 0.3 0.1 0.9)
                   sample_readings 50 rng_zero)) <= 1.
Proof.
  apply (check_failure_risk_is_probability (sample_machine 0.3 0.1 0.9)
           sample_readings 50 rng_zero); simpl; lra.
Defined.

(** X3: for a machine of non-negative age, the returned risk is at least
    each of the six per-mode risks: the probability union and the age
    factor never lower a mode's own risk. *)
Theorem check_failure_risk_dominates_modes (m : MachineBehavior)
    (sr : SensorReadings) (day_in_cycle : Z) (g : Rng) :
  0 <= age m ->
  Forall
    (fun r => r <= fst (fst (check_failure_risk m sr day_in_cycle g)))
    (failure_mode_risks m sr day_in_cycle).
Proof.
  intros Ha. apply Forall_forall. intros r Hin.
  pose proof (failure_mode_risks_range m sr day_in_cycle) as Hrange.
  assert (Hr : 0 <= r <= 0.9).
  { rewrite Forall_forall in Hrange. now apply Hrange. }
  assert (Hr1 : Forall (fun r => 0 <= r <= 1)
                  (failure_mode_risks m sr day_in_cycle)).
  { eapply Forall_impl; [|exact Hrange]. intros x Hx. simpl in Hx. lra. }
  pose proof (np_prod_complement_le _ r Hr1 Hin) as Hle.
  pose proof (np_prod_complement_bounds _ Hr1) as Hp.
  assert (Hc : r <= combined_failure_risk m sr day_in_cycle).
  { unfold combined_failure_risk.
    assert (Haf : 1 <= Rmin 2.0 (1.0 + age m / 15))
      by (unfold Rmin; destruct (Rle_dec _ _); lra).
    nra. }
  destruct (check_failure_risk_value m sr day_in_cycle g) as [E|E];
    rewrite E; unfold Rmin; destruct (Rle_dec _ _); lra.
Qed.

Lemma check_failure_risk_dominates_modes_witness :
  Forall
    (fun r => r <= fst (fst (check_failure_risk (sample_machine 0.3 0.1 0.9)
                               sample_readings 50 rng_zero)))
    (failure_mode_risks (sample_machine 0.3 0.1 0.9) sample_readings 50).
Proof.
  apply (check_failure_risk_dominates_modes (sample_machine 0.3 0.1 0.9)
           sample_readings 50 rng_zero); simpl; lra.
Defined.

(** ** A machine without wear does not fail from age alone *)

Lemma healthy_mode_risks (m : MachineBehavior) (sr : SensorReadings) (d : Z) :
  vibration sr <= 0.18 ->
  bearing_wear m <= 0.8 ->
  temperature sr <= 70 ->
  0.1 <= lubrication_quality m ->
  stress_accumulation m <= 30 ->
  bearing_wear m + motor_degradation m + (1 - lubrication_quality m) <= 1.2 ->
  failure_mode_risks m sr d
  = [0; 0; 0; 0; 0;
     if Rgtb (age m) 5 then Rmin 0.3 ((age m - 5) * 0.06) else 0].
Proof.
  intros Hv Hb Ht Hl Hs Hd. unfold failure_mode_risks.
  replace (Rgtb (vibration sr) 0.18) with false
    by (symmetry; apply Rgtb_false; lra).
  replace (Rgtb (vibration sr) 0.25) with false
    by (symmetry; apply Rgtb_false; lra).
  replace (Rgtb (bearing_wear m) 0.8) with false
    by (symmetry; apply Rgtb_false; lra).
  replace (Rgtb (temperature sr) 78) with false
    by (symmetry; apply Rgtb_false; lra).
  replace (Rgtb (temperature sr) 82) with false
    by (symmetry; apply Rgtb_false; lra).
  replace (Rgtb (temperature sr) 70) with false
    by (symmetry; apply Rgtb_false; lra).
  replace (Rltb (lubrication_quality m) 0.1) with false
    by (symmetry; apply Rltb_false; lra).
  replace (Rgtb (stress_accumulation m) 30) with false
    by (symmetry; apply Rgtb_false; lra).
  replace (Rgtb (bearing_wear m + motor_degradation m
                 + (1 - lubrication_quality m)) 1.2) with false
    by (symmetry; apply Rgtb_false; lra).
  rewrite !andb_false_r. reflexivity.
Qed.

Lemma healthy_combined_risk (m : MachineBehavior) (sr : SensorReadings)
    (d : Z) :
  vibration sr <= 0.18 ->
  bearing_wear m <= 0.8 ->
  temperature sr <= 70 ->
  0.1 <= lubrication_quality m ->
  stress_accumulation m <= 30 ->
  bearing_wear m + motor_degradation m + (1 - lubrication_quality m) <= 1.2 ->
  age m <= 8 ->
  0 <= combined_failure_risk m sr d <= 0.276 /\
  (age m <= 5 -> combined_failure_risk m sr d = 0).
Proof.
  intros Hv Hb Ht Hl Hs Hd Ha. unfold combined_failure_risk.
  rewrite (healthy_mode_risks m sr d Hv Hb Ht Hl Hs Hd).
  unfold np_prod. cbn [map fold_left].
  destruct (Rgtb (age m) 5) eqn:E.
  - apply Rgtb_true in E.
    assert (Hr : 0 <= Rmin 0.3 ((age m - 5) * 0.06) <= (age m - 5) * 0.06)
      by (unfold Rmin; destruct (Rle_dec _ _); lra).
    assert (Hf : 0 <= Rmin 2.0 (1.0 + age m / 15) <= 1 + age m / 15)
      by (unfold Rmin; destruct (Rle_dec _ _); lra).
    split; [nra|]. intros H5. lra.
  - split; [|intros _]; nra.
Qed.

(** [check_failure_risk] on a day on which the combined risk stays at or
    below 0.4, no hard-failure condition holds and the random-failure draw
    does not fire. *)
Lemma check_failure_risk_quiet (m : MachineBehavior) (sr : SensorReadings)
    (d : Z) (g : Rng) :
  combined_failure_risk m sr d <= 0.4 ->
  temperature sr <= 85 ->
  vibration sr <= 0.35 ->
  bearing_wear m <= 0.95 ->
  0.05 <= lubrication_quality m ->
  0.0002 <= py_stream g 0 ->
  fst (fst (check_failure_risk m sr d g))
  = Rmin 1.0 (combined_failure_risk m sr d) /\
  fault_active (snd (fst (check_failure_risk m sr d g))) = fault_active m /\
  py_stream (snd (check_failure_risk m sr d g)) = tl_stream (py_stream g).
Proof.
  intros Hc Ht Hv Hb Hl Hr.
  unfold check_failure_risk, bind, random_random, ret.
  change ((1 - np_prod (map (fun r => 1 - r) (failure_mode_risks m sr d)))
          * Rmin 2.0 (1.0 + age m / 15))
    with (combined_failure_risk m sr d).
  replace (Rgtb (combined_failure_risk m sr d) 0.4) with false
    by (symmetry; apply Rgtb_false; lra).
  cbn [andb fst snd].
  replace (Rgtb (temperature sr) 85) with false
    by (symmetry; apply Rgtb_false; lra).
  replace (Rgtb (vibration sr) 0.35) with false
    by (symmetry; apply Rgtb_false; lra).
  replace (Rltb (py_stream g 0) 0.0002) with false
    by (symmetry; apply Rltb_false; lra).
  destruct (intermittent_fault_active m) eqn:E;
    cbn [bearing_wear lubrication_quality set_intermittent_fault_active];
    (replace (Rgtb (bearing_wear m) 0.95) with false
       by (symmetry; apply Rgtb_false; lra));
    (replace (Rltb (lubrication_quality m) 0.05) with false
       by (symmetry; apply Rltb_false; lra));
    cbn [orb fst snd py_stream]; unfold fault_active; rewrite ?E; auto.
Qed.

(** X4: a machine at most 8 years old whose wear, lubrication and stress
    trigger no failure mode, on a day with vibration <= 0.18 and
    temperature <= 70 and with the random-failure draw not firing, gets a
    risk equal to the age risk times the age factor, at most 0.276: below
    the 0.4 that can start intermittent faults (the flag is left as it was)
    and, on a day without a high-risk streak, below the 0.85 that forces a
    failure, so a failure is then recorded only when the Bernoulli draw is
    below 0.0414.  Up to 5 years of age the risk is 0 and no failure is
    recorded. *)
Theorem healthy_machine_does_not_fail_from_age (m : MachineBehavior)
    (sr : SensorReadings) (day_in_cycle : Z) (g : Rng) :
  vibration sr <= 0.18 ->
  bearing_wear m <= 0.8 ->
  temperature sr <= 70 ->
  0.1 <= lubrication_quality m ->
  stress_accumulation m <= 30 ->
  bearing_wear m + motor_degradation m + (1 - lubrication_quality m) <= 1.2 ->
  age m <= 8 ->
  0.0002 <= py_stream g 0 ->
  let risk := fst (fst (check_failure_risk m sr day_in_cycle g)) in
  let m' := snd (fst (check_failure_risk m sr day_in_cycle g)) in
  risk = combined_failure_risk m sr day_in_cycle /\
  0 <= risk <= 0.276 /\
  fault_active m' = fault_active m /\
  (forall ifd g',
     fst (fst (fst (determine_failure false 0 ifd risk m' g'))) = 1%Z ->
     py_stream g' 0 < 0.0414) /\
  (age m <= 5 ->
   risk = 0 /\
   forall fo ifd g',
     fst (fst (fst (determine_failure fo 0 ifd risk m' g'))) = 0%Z).
Proof.
  intros Hv Hb Ht Hl Hs Hd Ha Hr. cbv zeta.
  destruct (healthy_combined_risk m sr day_in_cycle Hv Hb Ht Hl Hs Hd Ha)
    as [Hc H5].
  destruct (check_failure_risk_quiet m sr day_in_cycle g) as (E & Ef & _);
    try lra.
  rewrite Rmin_right in E by lra. rewrite E.
  set (risk := combined_failure_risk m sr day_in_cycle) in *.
  split; [reflexivity|]. split; [exact Hc|]. split; [exact Ef|]. split.
  - intros ifd g'. unfold determine_failure. cbn [negb].
    match goal with
    | |- context [Rgtb ?e 0.85] =>
        assert (He : 0 <= e <= 0.414) by (destruct (_ >? 5)%Z; nra);
        replace (Rgtb e 0.85) with false
          by (symmetry; apply Rgtb_false; lra);
        set (eff := e) in *
    end.
    unfold bind, random_random, ret.
    destruct (Rltb (py_stream g' 0) (eff * 0.1)) eqn:Eb;
      cbn [fst snd]; [|discriminate].
    intros _. apply Rltb_true in Eb. lra.
  - intros H. specialize (H5 H). split; [exact H5|].
    intros fo ifd g'. rewrite H5. unfold determine_failure.
    destruct fo; cbn [negb]; [reflexivity|].
    match goal with
    | |- context [Rgtb ?e 0.85] =>
        assert (He : e = 0) by (destruct (_ >? 5)%Z; lra);
        rewrite He
    end.
    replace (Rgtb 0 0.85) with false by (symmetry; apply Rgtb_false; lra).
    unfold bind, random_random, ret.
    pose proof (u01_range (py_stream g' 0)) as Hu.
    replace (Rltb (py_stream g' 0) (0 * 0.1)) with false
      by (symmetry; apply Rltb_false; lra).
    reflexivity.
Qed.

Lemma healthy_machine_does_not_fail_from_age_witness :
  0 <= fst (fst (check_failure_risk (sample_machine 0.3 0.1 0.9)
                   sample_readings 50
                   {| py_stream := fun _ => draw_005;
                      np_uniform_stream := fun _ => draw_0;
                      np_normal_stream := fun _ => 0 |})) <= 0.276.
Proof.
  apply (healthy_machine_does_not_fail_from_age (sample_machine 0.3 0.1 0.9)
           sample_readings 50
           {| py_stream := fun _ => draw_005;
              np_uniform_stream := fun _ => draw_0;
              np_normal_stream := fun _ => 0 |}); simpl; lra.
Defined.

(** ** The intermittent-fault flag *)

(** X5: [check_failure_risk] always leaves the machine with the
    intermittent-fault attribute defined and never clears a flag that is
    set; it leaves a clear flag clear when the combined risk is at most
    0.4; [update_degradation] does not touch the flag; only
    [apply_maintenance] clears it. *)
Theorem intermittent_fault_latches (m : MachineBehavior)
    (sr : SensorReadings) (d : Z) (g : Rng) :
  let m' := snd (fst (check_failure_risk m sr d g)) in
  intermittent_fault_active m' <> None /\
  (fault_active m = true -> fault_active m' = true) /\
  (combined_failure_risk m sr d <= 0.4 -> fault_active m' = fault_active m) /\
  fault_active (update_degradation m sr d) = fault_active m /\
  intermittent_fault_active (fst (apply_maintenance m g)) = Some false.
Proof.
  cbv zeta.
  assert (Hcore :
    intermittent_fault_active (snd (fst (check_failure_risk m sr d g)))
      <> None /\
    (fault_active m = true ->
     fault_active (snd (fst (check_failure_risk m sr d g))) = true) /\
    (combined_failure_risk m sr d <= 0.4 ->
     fault_active (snd (fst (check_failure_risk m sr d g)))
     = fault_active m)).
  { unfold check_failure_risk, bind, random_random, ret.
    change ((1 - np_prod (map (fun r => 1 - r) (failure_mode_risks m sr d)))
            * Rmin 2.0 (1.0 + age m / 15))
      with (combined_failure_risk m sr d).
    unfold fault_active.
    destruct (intermittent_fault_active m) as [[|]|] eqn:E;
      destruct (Rgtb (combined_failure_risk m sr d) 0.4) eqn:Ec;
      cbn [andb negb fst snd intermittent_fault_active
           set_intermittent_fault_active];
      rewrite ?E; cbn [andb negb];
      try (destruct (Rltb (py_stream g 0) 0.3));
      cbn [fst snd intermittent_fault_active set_intermittent_fault_active];
      rewrite ?E;
      (split; [discriminate|]); (split; [auto|]); intros Hle;
      try reflexivity;
      apply Rgtb_true in Ec; lra. }
  destruct Hcore as (H1 & H2 & H3).
  split; [exact H1|]. split; [exact H2|]. split; [exact H3|].
  split; reflexivity.
Qed.

(** ** Degradation only accumulates; maintenance only repairs *)

(** X6: on a machine within its bounds and readings within the sensor
    clamps, a daily update never lowers bearing_wear, motor_degradation or
    stress_accumulation, never raises lubrication_quality, adds 24 operating
    hours and leaves every fixed parameter and counter as it was. *)
Theorem update_degradation_monotone (m : MachineBehavior)
    (sr : SensorReadings) (d : Z) :
  machine_ok m ->
  sensor_ok sr ->
  let m' := update_degradation m sr d in
  bearing_wear m <= bearing_wear m' /\
  motor_degradation m <= motor_degradation m' /\
  lubrication_quality m' <= lubrication_quality m /\
  stress_accumulation m <= stress_accumulation m' /\
  total_operating_hours m' = (total_operating_hours m + 24)%Z /\
  (machine_id m', age m', quality m', wear_resistance m', base_temp m',
   base_vib m', base_rpm m', maintenance_quality m')
  = (machine_id m, age m, quality m, wear_resistance m, base_temp m,
     base_vib m, base_rpm m, maintenance_quality m) /\
  (cycles_since_service m', previous_failures m',
   intermittent_fault_active m')
  = (cycles_since_service m, previous_failures m,
     intermittent_fault_active m).
Proof.
  intros [(Ha & Hw & Hbr & Hq) (Hb & Hm & Hl)] (Ht & Hv & Hr & Hld).
  cbv zeta. unfold update_degradation; cbn.
  assert (Hinv : 0 < 1 / wear_resistance m).
  { apply Rdiv_lt_0_compat; lra. }
  assert (Haf : 0 <= Rmin 2.0 (1.0 + age m / 10)).
  { unfold Rmin. destruct (Rle_dec _ _); lra. }
  assert (Hrate : 0 <= (vibration sr * 0.5 + load sr / 100 * 0.1)
                       * (1 / wear_resistance m) * 0.001
                       * Rmin 2.0 (1.0 + age m / 10)).
  { apply Rmult_le_pos; [|exact Haf].
    apply Rmult_le_pos; [|lra].
    apply Rmult_le_pos; lra. }
  assert (Hvar : 0 <= Rabs (rpm sr - base_rpm m) / base_rpm m).
  { apply Rmult_le_pos; [apply Rabs_pos|].
    left. apply Rinv_0_lt_compat. lra. }
  assert (Hth : 0 <= Rmax 0 ((temperature sr - 65) / 20)) by apply Rmax_l.
  assert (Hth' : 0 <= Rmax 0 (temperature sr - 65)) by apply Rmax_l.
  match type of Hrate with 0 <= ?e => set (inc := e) in * end.
  match type of Hvar with 0 <= ?e => set (var := e) in * end.
  match type of Hth with 0 <= ?e => set (th := e) in * end.
  match type of Hth' with 0 <= ?e => set (th' := e) in * end.
  split; [unfold Rmin; destruct (Rle_dec _ _); lra|].
  split; [unfold Rmin; destruct (Rle_dec _ _); lra|].
  split; [apply Rmax_lub; [lra|]; destruct (Rgtb _ _); nra|].
  split; [lra|]. repeat split.
Qed.

Lemma update_degradation_monotone_witness :
  bearing_wear (sample_machine 0.3 0.1 0.9)
  <= bearing_wear (update_degradation (sample_machine 0.3 0.1 0.9)
                     sample_readings 1).
Proof.
  apply (update_degradation_monotone (sample_machine 0.3 0.1 0.9)
           sample_readings 1);
    unfold machine_ok, parameters_ok, hidden_state_ok, sensor_ok; simpl;
    repeat split; lra.
Defined.

(** X7: on a machine within its bounds and with non-negative accumulated
    stress, maintenance has an effectiveness in [0.56, 1]; it scales
    bearing_wear by a factor in [0.2, 0.42], motor_degradation by a factor
    in [0.3, 0.52] and stress_accumulation by a factor in [0.1, 0.232],
    raises lubrication_quality by at least 0.336 (up to the cap 1.0), and
    leaves every fixed parameter and counter as it was. *)
Theorem apply_maintenance_repairs (m : MachineBehavior) (g : Rng) :
  machine_ok m ->
  0 <= stress_accumulation m ->
  let m' := fst (apply_maintenance m g) in
  0.56 <= last_maintenance_effectiveness m' <= 1 /\
  0.2 * bearing_wear m <= bearing_wear m' <= 0.42 * bearing_wear m /\
  0.3 * motor_degradation m <= motor_degradation m'
    <= 0.52 * motor_degradation m /\
  0.1 * stress_accumulation m <= stress_accumulation m'
    <= 0.232 * stress_accumulation m /\
  Rmin 1 (lubrication_quality m + 0.336) <= lubrication_quality m' <= 1 /\
  lubrication_quality m <= lubrication_quality m' /\
  (machine_id m', age m', quality m', wear_resistance m', base_temp m',
   base_vib m', base_rpm m', maintenance_quality m')
  = (machine_id m, age m, quality m, wear_resistance m, base_temp m,
     base_vib m, base_rpm m, maintenance_quality m) /\
  (cycles_since_service m', total_operating_hours m', previous_failures m')
  = (cycles_since_service m, total_operating_hours m, previous_failures m).
Proof.
  intros [(Ha & Hw & Hbr & Hq) (Hb & Hm & Hl)] Hs. cbv zeta.
  rewrite apply_maintenance_effectiveness.
  assert (Hu : 0.8 <= fst (random_uniform 0.8 1.0 g) <= 1.0)
    by (apply random_uniform_range; lra).
  set (u := fst (random_uniform 0.8 1.0 g)) in *.
  assert (He : 0.56 <= maintenance_quality m * u <= 1) by nra.
  set (e := maintenance_quality m * u) in *.
  unfold apply_maintenance_with; cbn.
  split; [exact He|].
  split; [nra|]. split; [nra|]. split; [nra|].
  split; [unfold Rmin; repeat destruct (Rle_dec _ _); lra|].
  split; [unfold Rmin; destruct (Rle_dec _ _); lra|].
  split; reflexivity.
Qed.

Lemma apply_maintenance_repairs_witness :
  0.56 <= last_maintenance_effectiveness
            (fst (apply_maintenance (sample_machine 0.3 0.1 0.9) rng_zero))
       <= 1.
Proof.
  apply (apply_maintenance_repairs (sample_machine 0.3 0.1 0.9) rng_zero);
    unfold machine_ok, parameters_ok, hidden_state_ok; simpl;
    repeat split; lra.
Defined.

(** ** High-risk streaks *)

Lemma day_failure_risk_eq (cfg : Config) (cycle : Z) (k : nat) (d : Z)
    (st : Globals) (machine : MachineBehavior) :
  nth_error (machines st) k = Some machine ->
  let global_day := ((cycle - 1) * days_per_cycle cfg + d)%Z in
  let lg := generate_load_pattern global_day d (g_rng st) in
  let sg := calculate_sensor_readings machine d (fst lg) (snd lg) in
  let m1 := update_degradation machine (fst sg) d in
  day_failure_risk cfg cycle k d st
  = fst (fst (check_failure_risk m1 (fst sg) d (snd sg))).
Proof.
  intros H. cbv zeta. unfold day_failure_risk. rewrite H.
  destruct (generate_load_pattern _ _ _) as [l g1]. cbn [fst snd].
  destruct (calculate_sensor_readings _ _ _ _) as [sr g2]. cbn [fst snd].
  now destruct (check_failure_risk _ _ _ _) as [[r m2] g3].
Qed.

Lemma day_failure_risk_high_wear (cfg : Config) (cycle : Z) (k : nat) (d : Z)
    (st : Globals) (m : MachineBehavior) :
  nth_error (machines st) k = Some m ->
  machine_ok m ->
  0.95 < bearing_wear m ->
  day_failure_risk cfg cycle k d st = 1.0.
Proof.
  intros Hk Hok Hb. rewrite (day_failure_risk_eq _ _ _ _ _ _ Hk).
  apply check_failure_risk_bearing_override.
  apply update_degradation_keeps_high_wear; [assumption| |assumption].
  apply day_body_sensor_ok.
Qed.

(** X8: in the not-yet-failed state, a day whose risk exceeds 0.6 after at
    least two consecutive days above 0.6 always records a failure: the
    streak multiplier is then at least 1.6, so the effective risk exceeds
    0.85.  The streak counter goes up by one. *)
Theorem third_high_risk_day_fails (cfg : Config) (cycle : Z) (k : nat)
    (d : Z) (st : Globals) (m : MachineBehavior) :
  nth_error (machines st) k = Some m ->
  failure_occurred st = false ->
  (2 <= consecutive_high_risk_days st)%Z ->
  0.6 < day_failure_risk cfg cycle k d st ->
  exists r,
    rows (day_body cfg cycle k d st) = rows st ++ [r] /\
    row_failure_event r = 1%Z /\
    failure_occurred (day_body cfg cycle k d st) = true /\
    consecutive_high_risk_days (day_body cfg cycle k d st)
    = (consecutive_high_risk_days st + 1)%Z.
Proof.
  intros Hk Hfo Hchr Hrisk.
  rewrite (day_failure_risk_eq _ _ _ _ _ _ Hk) in Hrisk. cbv zeta in Hrisk.
  rewrite (day_body_eq _ _ _ _ _ _ Hk).
  cbn [rows failure_occurred consecutive_high_risk_days].
  eexists. split; [reflexivity|]. cbn [row_failure_event]. rewrite Hfo.
  match type of Hrisk with
  | 0.6 < ?r => set (risk := r) in *
  end.
  replace (Rgtb risk 0.6) with true by (symmetry; apply Rgtb_true; lra).
  unfold determine_failure. cbn [negb].
  match goal with
  | |- context [Rgtb ?e 0.85] =>
      replace (Rgtb e 0.85) with true; [now cbn|]
  end.
  symmetry. apply Rgtb_true.
  assert (Hc : 3 <= IZR (consecutive_high_risk_days st + 1)).
  { apply IZR_le. lia. }
  destruct (_ >? 5)%Z; nra.
Qed.

Lemma third_high_risk_day_fails_witness :
  exists r,
    rows (day_body default_config 1 0 3 state_two_high_risk_days)
    = rows state_two_high_risk_days ++ [r] /\
    row_failure_event r = 1%Z.
Proof.
  assert (Hok : machine_ok (sample_machine 0.96 0.1 0.9)).
  { unfold machine_ok, parameters_ok, hidden_state_ok; simpl.
    repeat split; lra. }
  destruct (third_high_risk_day_fails default_config 1 0 3
              state_two_high_risk_days (sample_machine 0.96 0.1 0.9))
    as (r & H1 & H2 & _).
  - reflexivity.
  - reflexivity.
  - simpl. lia.
  - rewrite (day_failure_risk_high_wear default_config 1 0 3
               state_two_high_risk_days (sample_machine 0.96 0.1 0.9));
      [lra|reflexivity|exact Hok|simpl; lra].
  - exists r. now split.
Defined.

(** ** The index columns and the service flag of the records *)

Lemma In_range (lo hi x : Z) : In x (range lo hi) <-> (lo <= x < hi)%Z.
Proof.
  unfold range. rewrite in_map_iff. split.
  - intros (i & <- & Hi). apply in_seq in Hi. lia.
  - intros H. exists (Z.to_nat (x - lo)). split; [lia|].
    apply in_seq. lia.
Qed.

Lemma exec_rows_service_flag (cfg : Config) (st : Globals) (s : Step) :
  Forall
    (fun r =>
       row_service_flag r
       = if (row_day_in_cycle r =? 1)%Z && (row_cycle r >? 1)%Z
         then 1%Z else 0%Z)
    (rows st) ->
  Forall
    (fun r =>
       row_service_flag r
       = if (row_day_in_cycle r =? 1)%Z && (row_cycle r >? 1)%Z
         then 1%Z else 0%Z)
    (rows (exec cfg st s)).
Proof.
  intros H. destruct s as [cycle k|cycle k d]; simpl.
  - now rewrite cycle_start_rows.
  - destruct (nth_error (machines st) k) as [m|] eqn:E.
    + rewrite (day_body_eq _ _ _ _ _ _ E). cbn [rows].
      apply Forall_app. split; [assumption|]. now repeat constructor.
    + unfold day_body. now rewrite E.
Qed.

(** X1: in every record of a run, service_flag is 1 exactly when the record
    is day 1 of a cycle after the first, and 0 otherwise. *)
Theorem service_flag_marks_first_day_after_service (cfg : Config) (g : Rng) :
  Forall
    (fun r =>
       (row_service_flag r = 1%Z <->
        row_day_in_cycle r = 1%Z /\ (1 < row_cycle r)%Z) /\
       (row_service_flag r = 0%Z <->
        ~ (row_day_in_cycle r = 1%Z /\ (1 < row_cycle r)%Z)))
    (rows (main cfg g)).
Proof.
  assert (H : Forall
                (fun r =>
                   row_service_flag r
                   = if (row_day_in_cycle r =? 1)%Z && (row_cycle r >? 1)%Z
                     then 1%Z else 0%Z)
                (rows (main cfg g))).
  { unfold main. rewrite cycle_loop_schedule. apply fold_left_preserves.
    - intros s a. apply exec_rows_service_flag.
    - unfold initial_globals. destruct (create_machines _ _). constructor. }
  eapply Forall_impl; [|exact H]. intros r Hr. simpl in Hr. rewrite Hr.
  destruct (Z.eqb_spec (row_day_in_cycle r) 1);
    destruct (Z.gtb_spec (row_cycle r) 1); cbn [andb];
    split; split; intros; try lia; try discriminate.
Qed.

Lemma main_rows_day (cfg : Config) (g : Rng) :
  Forall
    (fun r =>
       row_day r
       = ((row_cycle r - 1) * days_per_cycle cfg + row_day_in_cycle r)%Z)
    (rows (main cfg g)).
Proof.
  unfold main. rewrite cycle_loop_schedule. apply fold_left_preserves.
  - intros s a. apply exec_rows_day.
  - unfold initial_globals. destruct (create_machines _ _). constructor.
Qed.

Lemma expected_keys_In (cfg : Config) (id c d : Z) :
  In (id, c, d) (expected_keys cfg) <->
  (1 <= id <= num_machines cfg)%Z /\
  (1 <= c <= num_cycles cfg)%Z /\
  (1 <= d <= days_per_cycle cfg)%Z.
Proof.
  unfold expected_keys. rewrite in_flat_map. split.
  - intros (c' & Hc & H). apply in_flat_map in H as (id' & Hid & H).
    apply in_map_iff in H as (d' & E & Hd). injection E as <- <- <-.
    apply In_range in Hc, Hid, Hd. lia.
  - intros (Hid & Hc & Hd). exists c. split; [apply In_range; lia|].
    apply in_flat_map. exists id. split; [apply In_range; lia|].
    apply in_map_iff. exists d. split; [reflexivity|apply In_range; lia].
Qed.

(** X9: every record of a run has its machine id in 1..M, its cycle in
    1..C, its day within the cycle in 1..D and its absolute day in
    1..C*D; and every machine-day in those ranges has a record. *)
Theorem records_index_ranges (cfg : Config) (g : Rng) :
  Forall
    (fun r =>
       (1 <= row_machine_id r <= num_machines cfg)%Z /\
       (1 <= row_cycle r <= num_cycles cfg)%Z /\
       (1 <= row_day_in_cycle r <= days_per_cycle cfg)%Z /\
       (1 <= row_day r <= num_cycles cfg * days_per_cycle cfg)%Z)
    (rows (main cfg g)) /\
  (forall id c d,
     (1 <= id <= num_machines cfg)%Z ->
     (1 <= c <= num_cycles cfg)%Z ->
     (1 <= d <= days_per_cycle cfg)%Z ->
     exists r, In r (rows (main cfg g)) /\ row_key r = (id, c, d)).
Proof.
  split.
  - apply Forall_forall. intros r Hin.
    pose proof (main_rows_day cfg g) as Hday.
    rewrite Forall_forall in Hday. specialize (Hday r Hin).
    assert (Hk : In (row_key r) (expected_keys cfg)).
    { rewrite <- (main_keys cfg g). now apply in_map. }
    apply expected_keys_In in Hk as (Hid & Hc & Hd).
    repeat split; try lia; rewrite Hday; nia.
  - intros id c d Hid Hc Hd.
    assert (Hk : In (id, c, d) (map row_key (rows (main cfg g)))).
    { rewrite main_keys. now apply expected_keys_In. }
    apply in_map_iff in Hk as (r & E & Hin). now exists r.
Qed.

(** ** Invariants of the machines that do not depend on the position in the
    run *)

Section MachineInvariant.

Variable P : MachineBehavior -> Prop.

Hypothesis P_maintenance : forall m g, P m -> P (fst (apply_maintenance m g)).
Hypothesis P_service :
  forall m, P m ->
            P (set_cycles_since_service m (cycles_since_service m + 1)%Z).
Hypothesis P_update :
  forall m sr d, P m -> sensor_ok sr -> P (update_degradation m sr d).
Hypothesis P_flag : forall m v, P m -> P (set_intermittent_fault_active m v).
Hypothesis P_failure :
  forall m, P m -> P (set_previous_failures m (previous_failures m + 1)%Z).

Lemma cycle_start_preserves (cycle : Z) (k : nat) (st : Globals) :
  Forall P (machines st) -> Forall P (machines (cycle_start cycle k st)).
Proof.
  intros H. unfold cycle_start.
  destruct (nth_error (machines st) k) as [m|] eqn:E; [|assumption].
  pose proof (Forall_nth_error _ _ _ _ H E) as Hm.
  destruct (cycle >? 1)%Z.
  - pose proof (P_maintenance m (g_rng st) Hm) as Hm'.
    destruct (apply_maintenance m (g_rng st)) as [m' g']. cbn [machines].
    apply Forall_list_set; [assumption|]. now apply P_service.
  - cbn [machines]. apply Forall_list_set; [assumption|].
    now apply P_service.
Qed.

Lemma day_body_preserves (cfg : Config) (cycle : Z) (k : nat) (d : Z)
    (st : Globals) :
  Forall P (machines st) -> Forall P (machines (day_body cfg cycle k d st)).
Proof.
  intros H. destruct (nth_error (machines st) k) as [m|] eqn:E.
  - rewrite (day_body_eq _ _ _ _ _ _ E). cbn [machines].
    apply Forall_list_set; [assumption|].
    pose proof (Forall_nth_error _ _ _ _ H E) as Hm.
    match goal with
    | |- context [check_failure_risk ?mm ?sr ?dd ?g] =>
        assert (Hu : P mm)
          by (apply P_update; [exact Hm | apply day_body_sensor_ok]);
        destruct (check_failure_risk_frame mm sr dd g) as [v Hv];
        rewrite Hv
    end.
    match goal with
    | |- context [determine_failure ?fo ?chr ?ifd ?risk ?mm ?g] =>
        destruct (determine_failure_cases fo chr ifd risk mm g)
          as [Ed|[_ Ed]]; rewrite Ed; cbn [fst snd]
    end.
    + now apply P_flag.
    + apply P_failure. now apply P_flag.
  - unfold day_body. now rewrite E.
Qed.

Lemma exec_preserves (cfg : Config) (st : Globals) (s : Step) :
  Forall P (machines st) -> Forall P (machines (exec cfg st s)).
Proof.
  destruct s; simpl; [apply cycle_start_preserves|apply day_body_preserves].
Qed.

Hypothesis P_init : forall id g, P (fst (MachineBehavior_init id g)).

Lemma create_machines_preserves (ids : list Z) :
  forall g, Forall P (fst (create_machines ids g)).
Proof.
  induction ids as [|i ids IH]; intros g; simpl.
  - constructor.
  - unfold bind.
    pose proof (P_init i g) as Hm.
    destruct (MachineBehavior_init i g) as [m g1]. cbn [fst] in Hm.
    specialize (IH g1). destruct (create_machines ids g1) as [ms g2].
    cbn. constructor; assumption.
Qed.

Lemma run_prefix_preserves (cfg : Config) (g : Rng) (n : nat) :
  Forall P (machines (run_prefix cfg g n)).
Proof.
  unfold run_prefix. cbv zeta. apply fold_left_preserves.
  - intros s a. apply exec_preserves.
  - rewrite initial_globals_machines. apply create_machines_preserves.
Qed.

End MachineInvariant.

(** ** Fixed parameters and history fields *)

Lemma np_random_uniform_half_open (low high : R) (g : Rng) :
  low < high ->
  low <= fst (np_random_uniform low high g) < high.
Proof.
  intros H. unfold np_random_uniform. cbn [fst].
  pose proof (u01_range (np_uniform_stream g 0)) as Hu. nra.
Qed.

Lemma MachineBehavior_init_creation_ranges (id : Z) (g : Rng) :
  creation_ranges_ok (fst (MachineBehavior_init id g)) /\
  history_ok (fst (MachineBehavior_init id g)).
Proof.
  unfold MachineBehavior_init, bind, ret.
  repeat match goal with
         | |- context [np_random_uniform ?a ?b ?g0] =>
             let H := fresh "H" in
             assert (H : a < b) by lra;
             apply (np_random_uniform_half_open a b g0) in H;
             destruct (np_random_uniform a b g0); cbn [fst] in H
         end.
  unfold creation_ranges_ok, history_ok; cbn.
  repeat split; try lra; try lia.
Qed.

Lemma exec_fixed_parameters (cfg : Config) (st : Globals) (s : Step) :
  map fixed_parameters (machines (exec cfg st s))
  = map fixed_parameters (machines st).
Proof.
  destruct s as [cycle k|cycle k d]; simpl.
  - unfold cycle_start.
    destruct (nth_error (machines st) k) as [m|] eqn:E; [|reflexivity].
    destruct (cycle >? 1)%Z; cbn [machines];
      now apply (map_list_set_same fixed_parameters k _ m).
  - destruct (nth_error (machines st) k) as [m|] eqn:E.
    + rewrite (day_body_eq _ _ _ _ _ _ E). cbn [machines].
      apply (map_list_set_same fixed_parameters k _ m); [assumption|].
      match goal with
      | |- context [check_failure_risk ?mm ?sr ?dd ?g] =>
          destruct (check_failure_risk_frame mm sr dd g) as [v Hv];
          rewrite Hv
      end.
      match goal with
      | |- context [determine_failure ?fo ?chr ?ifd ?risk ?mm ?g] =>
          destruct (determine_failure_cases fo chr ifd risk mm g)
            as [Ed|[_ Ed]]; rewrite Ed; reflexivity
      end.
    + unfold day_body. now rewrite E.
Qed.

Lemma steps_fixed_parameters (cfg : Config) (l : list Step) :
  forall st,
    map fixed_parameters (machines (fold_left (exec cfg) l st))
    = map fixed_parameters (machines st).
Proof.
  induction l as [|s l IH]; intros st; simpl; [reflexivity|].
  now rewrite IH, exec_fixed_parameters.
Qed.

Lemma creation_ranges_of_fixed_parameters (m m' : MachineBehavior) :
  fixed_parameters m' = fixed_parameters m ->
  creation_ranges_ok m -> creation_ranges_ok m'.
Proof.
  unfold fixed_parameters, creation_ranges_ok. intros E.
  injection E as _ -> -> -> -> -> -> ->. auto.
Qed.

(** X10: the parameters drawn when a machine is created (age, quality,
    wear resistance, the three baselines, maintenance quality) and its id
    are never modified: at every point of a run they are the values of the
    initial fleet, the ids are 1..M in order, and every parameter lies in
    the half-open range it was drawn from. *)
Theorem fixed_parameters_never_change (cfg : Config) (g : Rng) (n : nat) :
  map fixed_parameters (machines (run_prefix cfg g n))
  = map fixed_parameters (machines (initial_globals cfg g)) /\
  map machine_id (machines (run_prefix cfg g n))
  = range 1 (num_machines cfg + 1) /\
  Forall creation_ranges_ok (machines (run_prefix cfg g n)).
Proof.
  assert (Hfix : map fixed_parameters (machines (run_prefix cfg g n))
                 = map fixed_parameters (machines (initial_globals cfg g)))
    by apply steps_fixed_parameters.
  split; [exact Hfix|]. split.
  - assert (Hid : forall l, map machine_id l
                            = map (fun p => fst (fst (fst (fst (fst (fst
                                              (fst p)))))))
                                (map fixed_parameters l)).
    { intros l. rewrite map_map. reflexivity. }
    rewrite Hid, Hfix, <- Hid, initial_globals_machines.
    apply create_machines_ids.
  - assert (Hinit : Forall creation_ranges_ok
                      (machines (initial_globals cfg g))).
    { rewrite initial_globals_machines.
      apply (create_machines_preserves creation_ranges_ok).
      intros id g0. apply MachineBehavior_init_creation_ranges. }
    revert Hfix Hinit.
    generalize (machines (run_prefix cfg g n)).
    generalize (machines (initial_globals cfg g)).
    intros l0. induction l0 as [|m0 l0 IH]; intros [|m l] Hfix Hinit;
      simpl in Hfix; try discriminate; constructor.
    + assert (E : fixed_parameters m = fixed_parameters m0) by congruence.
      apply (creation_ranges_of_fixed_parameters m0 m E).
      now inversion Hinit.
    + apply IH; [congruence|]. now inversion Hinit.
Qed.

Lemma history_invariant_update (m : MachineBehavior) (sr : SensorReadings)
    (d : Z) :
  creation_ranges_ok m /\ history_ok m ->
  sensor_ok sr ->
  creation_ranges_ok (update_degradation m sr d) /\
  history_ok (update_degradation m sr d).
Proof.
  intros [Hc (Hs & Hcs & Hpf & Hh & Hmod)] (Ht & Hv & Hr & Hl).
  split; [exact Hc|].
  unfold history_ok, update_degradation; cbn.
  assert (Hth : 0 <= Rmax 0 (temperature sr - 65)) by apply Rmax_l.
  repeat split; try lia; try lra.
  replace (total_operating_hours m + 24)%Z
    with (total_operating_hours m + 1 * 24)%Z by lia.
  now rewrite Z_mod_plus_full.
Qed.

Lemma history_invariant_maintenance (m : MachineBehavior) (g : Rng) :
  creation_ranges_ok m /\ history_ok m ->
  creation_ranges_ok (fst (apply_maintenance m g)) /\
  history_ok (fst (apply_maintenance m g)).
Proof.
  intros [Hc (Hs & Hcs & Hpf & Hh & Hmod)]. split; [exact Hc|].
  rewrite apply_maintenance_effectiveness.
  assert (Hu : 0.8 <= fst (random_uniform 0.8 1.0 g) <= 1.0)
    by (apply random_uniform_range; lra).
  destruct Hc as (_ & _ & _ & _ & _ & _ & Hq).
  assert (He : 0.56 <= maintenance_quality m
                       * fst (random_uniform 0.8 1.0 g) <= 1) by nra.
  set (e := maintenance_quality m * fst (random_uniform 0.8 1.0 g)) in *.
  unfold history_ok, apply_maintenance_with; cbn.
  repeat split; try assumption.
  apply Rmult_le_pos; lra.
Qed.

(** X11: at every point of a run, for every machine, the accumulated stress
    and the three counters are non-negative and the operating hours are a
    whole number of 24-hour days. *)
Theorem history_fields_stay_meaningful (cfg : Config) (g : Rng) (n : nat) :
  Forall history_ok (machines (run_prefix cfg g n)).
Proof.
  eapply Forall_impl;
    [|apply (run_prefix_preserves
               (fun m => creation_ranges_ok m /\ history_ok m))].
  - intros m [_ H]. exact H.
  - intros m g0. apply history_invariant_maintenance.
  - intros m [Hc (Hs & Hcs & Hpf & Hh & Hmod)]. split; [exact Hc|].
    unfold history_ok; cbn. repeat split; try assumption. lia.
  - intros m sr d. apply history_invariant_update.
  - intros m v H. exact H.
  - intros m [Hc (Hs & Hcs & Hpf & Hh & Hmod)]. split; [exact Hc|].
    unfold history_ok; cbn. repeat split; try assumption. lia.
  - intros id g0. apply MachineBehavior_init_creation_ranges.
Qed.

(** ** The failure counter of a machine and its failure records *)

Lemma nth_error_list_set_inv {A : Type} (k i : nat) (x y : A) (l : list A) :
  nth_error (list_set k x l) i = Some y ->
  (i = k /\ y = x) \/ (i <> k /\ nth_error l i = Some y).
Proof.
  revert k i. induction l as [|h t IH]; intros [|k] [|i] H; simpl in *;
    try discriminate.
  - left. split; congruence.
  - right. split; [lia|assumption].
  - right. split; [lia|assumption].
  - destruct (IH k i H) as [[-> ->]|[Hne Hi]]; [left|right]; split;
      auto; lia.
Qed.

Lemma failures_of_machine_app (id : Z) (l : list Row) (r : Row) :
  List.length (failures_of_machine id (l ++ [r]))
  = (List.length (failures_of_machine id l)
     + if (row_machine_id r =? id)%Z && (row_failure_event r =? 1)%Z
       then 1 else 0)%nat.
Proof.
  unfold failures_of_machine. rewrite filter_app, length_app. simpl.
  now destruct (_ && _).
Qed.

(** The effect of one simulated day on the records, the machine and the
    failure state. *)
Lemma day_body_effect (cfg : Config) (cycle : Z) (k : nat) (d : Z)
    (st : Globals) (m : MachineBehavior) :
  nth_error (machines st) k = Some m ->
  exists r m' sr v,
    rows (day_body cfg cycle k d st) = rows st ++ [r] /\
    machines (day_body cfg cycle k d st) = list_set k m' (machines st) /\
    row_machine_id r = machine_id m /\
    row_cycle r = cycle /\
    row_day_in_cycle r = d /\
    sensor_ok sr /\
    ((row_failure_event r = 0%Z /\
      m' = set_intermittent_fault_active (update_degradation m sr d) v /\
      failure_occurred (day_body cfg cycle k d st) = failure_occurred st) \/
     (failure_occurred st = false /\
      row_failure_event r = 1%Z /\
      m' = set_previous_failures
             (set_intermittent_fault_active (update_degradation m sr d) v)
             (previous_failures m + 1)%Z /\
      failure_occurred (day_body cfg cycle k d st) = true)).
Proof.
  intros Hk. rewrite (day_body_eq _ _ _ _ _ _ Hk).
  cbn [rows machines failure_occurred].
  pose proof (day_body_sensor_ok cfg cycle d (g_rng st) m) as Hs.
  cbv zeta in Hs.
  match goal with
  | |- context [check_failure_risk ?mm ?sr ?dd ?g] =>
      destruct (check_failure_risk_frame mm sr dd g) as [v Hv];
      rewrite Hv; set (rg := check_failure_risk mm sr dd g) in *;
      set (readings := sr) in *
  end.
  match goal with
  | |- context [determine_failure ?fo ?chr ?ifd ?risk ?mm ?g] =>
      destruct (determine_failure_cases fo chr ifd risk mm g)
        as [Ed|[Hfo Ed]]; rewrite Ed; cbn [fst snd]
  end.
  - eexists; eexists; exists readings, v.
    split; [reflexivity|]. split; [reflexivity|].
    cbn [row_machine_id row_cycle row_day_in_cycle row_failure_event].
    split; [reflexivity|]. split; [reflexivity|]. split; [reflexivity|].
    split; [exact Hs|]. left. auto.
  - eexists; eexists; exists readings, v.
    split; [reflexivity|]. split; [reflexivity|].
    cbn [row_machine_id row_cycle row_day_in_cycle row_failure_event].
    split; [reflexivity|]. split; [reflexivity|]. split; [reflexivity|].
    split; [exact Hs|]. right. auto.
Qed.

(** The effect of the start of a machine's cycle. *)
Lemma cycle_start_effect (cycle : Z) (k : nat) (st : Globals)
    (m : MachineBehavior) :
  nth_error (machines st) k = Some m ->
  exists m0,
    machines (cycle_start cycle k st)
    = list_set k
        (set_cycles_since_service m0 (cycles_since_service m0 + 1)%Z)
        (machines st) /\
    ((1 < cycle)%Z /\ m0 = fst (apply_maintenance m (g_rng st)) \/
     (cycle <= 1)%Z /\ m0 = m).
Proof.
  intros Hk. unfold cycle_start. rewrite Hk.
  destruct (Z.gtb_spec cycle 1).
  - destruct (apply_maintenance m (g_rng st)) as [m1 g1] eqn:E.
    exists m1. split; [reflexivity|]. left. split; [assumption|].
    reflexivity.
  - exists m. split; [reflexivity|]. right. now split.
Qed.

Lemma exec_previous_failures (cfg : Config) (st : Globals) (s : Step) :
  (forall i mi,
     nth_error (machines st) i = Some mi ->
     machine_id mi = (1 + Z.of_nat i)%Z /\
     previous_failures mi
     = Z.of_nat (List.length (failures_of_machine (1 + Z.of_nat i) (rows st)))) ->
  forall i mi,
    nth_error (machines (exec cfg st s)) i = Some mi ->
    machine_id mi = (1 + Z.of_nat i)%Z /\
    previous_failures mi
    = Z.of_nat (List.length
                  (failures_of_machine (1 + Z.of_nat i)
                     (rows (exec cfg st s)))).
Proof.
  intros Inv i mi Hi. destruct s as [cycle k|cycle k d]; cbn [exec] in *.
  - rewrite cycle_start_rows.
    destruct (nth_error (machines st) k) as [m|] eqn:E;
      [|unfold cycle_start in Hi; rewrite E in Hi; now apply Inv].
    destruct (Inv k m E) as [Hid Hpf].
    destruct (cycle_start_effect cycle k st m E) as (m0 & Hms & Hcase).
    rewrite Hms in Hi.
    apply nth_error_list_set_inv in Hi as [[-> ->]|[_ Hi]];
      [|now apply Inv].
    destruct Hcase as [[_ ->]|[_ ->]]; split; assumption.
  - destruct (nth_error (machines st) k) as [m|] eqn:E;
      [|unfold day_body in *; rewrite E in *; now apply Inv].
    destruct (Inv k m E) as [Hid Hpf].
    destruct (day_body_effect cfg cycle k d st m E)
      as (r & m' & sr & v & Hrows & Hms & Hrid & _ & _ & _ & Hcase).
    rewrite Hrows, failures_of_machine_app. rewrite Hms in Hi.
    rewrite Hrid, Hid.
    apply nth_error_list_set_inv in Hi as [[-> ->]|[Hne Hi]].
    + rewrite Z.eqb_refl. cbn [andb].
      destruct Hcase as [(Hfe & -> & _)|(_ & Hfe & -> & _)];
        rewrite Hfe;
        cbn [Z.eqb Pos.eqb machine_id previous_failures
             set_previous_failures set_intermittent_fault_active
             update_degradation];
        (split; [assumption|]); lia.
    + replace (1 + Z.of_nat k =? 1 + Z.of_nat i)%Z with false
        by (symmetry; apply Z.eqb_neq; lia).
      cbn [andb]. rewrite Nat.add_0_r. now apply Inv.
Qed.

Lemma create_machines_nth (ids : list Z) :
  forall g i mi,
    nth_error (fst (create_machines ids g)) i = Some mi ->
    nth_error ids i = Some (machine_id mi) /\ previous_failures mi = 0%Z.
Proof.
  induction ids as [|id ids IH]; intros g i mi H; simpl in H.
  - destruct i; discriminate.
  - unfold bind in H.
    pose proof (MachineBehavior_init_id id g) as Hid.
    assert (Hpf : previous_failures (fst (MachineBehavior_init id g)) = 0%Z).
    { unfold MachineBehavior_init, bind, ret.
      repeat destruct (np_random_uniform _ _ _). reflexivity. }
    destruct (MachineBehavior_init id g) as [m g1]. cbn [fst] in Hid, Hpf.
    specialize (IH g1). destruct (create_machines ids g1) as [ms g2].
    cbn in H. destruct i as [|i]; simpl in *.
    + injection H as <-. split; congruence.
    + now apply IH.
Qed.

(** X12: at every point of a run, the previous_failures counter of each
    machine equals the number of records emitted so far for that machine
    with failure_event = 1. *)
Theorem previous_failures_counts_failure_records (cfg : Config) (g : Rng)
    (n : nat) :
  Forall
    (fun m =>
       previous_failures m
       = Z.of_nat (List.length
                     (failures_of_machine (machine_id m)
                        (rows (run_prefix cfg g n)))))
    (machines (run_prefix cfg g n)).
Proof.
  assert (Inv : forall i mi,
            nth_error (machines (run_prefix cfg g n)) i = Some mi ->
            machine_id mi = (1 + Z.of_nat i)%Z /\
            previous_failures mi
            = Z.of_nat (List.length
                          (failures_of_machine (1 + Z.of_nat i)
                             (rows (run_prefix cfg g n))))).
  { unfold run_prefix. cbv zeta.
    apply (fold_left_preserves (exec cfg)
             (fun st => forall i mi,
                nth_error (machines st) i = Some mi ->
                machine_id mi = (1 + Z.of_nat i)%Z /\
                previous_failures mi
                = Z.of_nat (List.length
                              (failures_of_machine (1 + Z.of_nat i)
                                 (rows st))))).
    - intros s a. apply exec_previous_failures.
    - intros i mi Hi. rewrite initial_globals_machines in Hi.
      apply create_machines_nth in Hi as [Hid Hpf].
      apply range_ids_wf in Hid.
      replace (rows (initial_globals cfg g)) with (@nil Row)
        by (unfold initial_globals; now destruct (create_machines _ _)).
      now split. }
  apply Forall_forall. intros m Hin.
  apply In_nth_error in Hin as [i Hi].
  destruct (Inv i m Hi) as [Hid Hpf]. now rewrite Hid.
Qed.

(** ** How many failures a run can record, and the reporting script *)

Lemma failures_app (l : list Row) (r : Row) :
  failures (l ++ [r])
  = failures l ++ (if (row_failure_event r =? 1)%Z then [r] else []).
Proof. unfold failures. now rewrite filter_app. Qed.

Lemma Quiet_failure_keys_NoDup (l : list Row) :
  Quiet l ->
  NoDup (map (fun r => (row_machine_id r, row_cycle r)) (failures l)).
Proof.
  induction 1 as [|l r Hq IH Hr]; [constructor|].
  rewrite failures_app, map_app.
  destruct (Z.eqb_spec (row_failure_event r) 1) as [Hfe|_];
    [|simpl; now rewrite app_nil_r].
  apply NoDup_app; [exact IH|repeat constructor; intros []|].
  intros key Hin [<-|[]].
  apply in_map_iff in Hin as (r0 & E & Hin0).
  apply filter_In in Hin0 as [Hin0 Hfe0]. apply Z.eqb_eq in Hfe0.
  assert (row_failure_event r = 0%Z).
  { apply (Hr r0); auto. split; congruence. }
  lia.
Qed.

Lemma main_failure_count (cfg : Config) (g : Rng) :
  (List.length (failures (rows (main cfg g)))
   <= Z.to_nat (num_machines cfg) * Z.to_nat (num_cycles cfg))%nat.
Proof.
  pose proof (Quiet_failure_keys_NoDup _ (main_rows_Quiet cfg g)) as Hnd.
  apply NoDup_incl_length
    with (l' := list_prod (range 1 (num_machines cfg + 1))
                  (range 1 (num_cycles cfg + 1))) in Hnd.
  - rewrite length_map, length_prod, !range_length in Hnd.
    replace (num_machines cfg + 1 - 1)%Z with (num_machines cfg) in Hnd by lia.
    replace (num_cycles cfg + 1 - 1)%Z with (num_cycles cfg) in Hnd by lia.
    exact Hnd.
  - intros key Hin. apply in_map_iff in Hin as (r & <- & Hin).
    apply filter_In in Hin as [Hin _].
    assert (Hk : In (row_key r) (expected_keys cfg)).
    { rewrite <- (main_keys cfg g). now apply in_map. }
    apply expected_keys_In in Hk as (Hid & Hc & _).
    apply in_prod_iff. split; apply In_range; lia.
Qed.

(** X13: a run records at most one failure per machine and cycle over the
    whole fleet: the number of records with failure_event = 1 is at most
    M * C, which is 100 for the default configuration. *)
Theorem fleet_failures_bounded (cfg : Config) (g : Rng) :
  (List.length (failures (rows (main cfg g)))
   <= Z.to_nat (num_machines cfg) * Z.to_nat (num_cycles cfg))%nat /\
  (forall g',
     (List.length (failures (rows (main default_config g'))) <= 100)%nat).
Proof.
  split; [apply main_failure_count|].
  intros g'. pose proof (main_failure_count default_config g') as H.
  assert (E : (Z.to_nat (num_machines default_config)
               * Z.to_nat (num_cycles default_config))%nat = 100%nat)
    by reflexivity.
  now rewrite E in H.
Qed.

Lemma failures_In (df : list Row) (r : Row) :
  In r (failures df) <-> In r df /\ row_failure_event r = 1%Z.
Proof.
  unfold failures. rewrite filter_In. now rewrite Z.eqb_eq.
Qed.

(** X14: on the dataset of a default run, the reporting script
    [num_of_failures.py] reports a total of at most 100 failures and its
    [failures.head(100)] shows every failure record, each with failure_event
    = 1 and in dataset order; on any dataset the head shows the first
    min(100, total) failure records. *)
Theorem num_of_failures_shows_every_failure (g : Rng) :
  let df := rows (main default_config g) in
  (fst (num_of_failures df) <= 100)%nat /\
  snd (num_of_failures df) = failures df /\
  Forall (fun r => row_failure_event r = 1%Z /\ In r df)
    (snd (num_of_failures df)) /\
  (forall dataset : list Row,
     fst (num_of_failures dataset) = List.length (failures dataset) /\
     List.length (snd (num_of_failures dataset))
     = Nat.min 100 (fst (num_of_failures dataset)) /\
     exists rest,
       failures dataset = snd (num_of_failures dataset) ++ rest).
Proof.
  cbv zeta. unfold num_of_failures, head.
  change (fst (?a, ?b)) with a. change (snd (?a, ?b)) with b.
  pose proof (main_failure_count default_config g) as Hlen.
  assert (E : (Z.to_nat (num_machines default_config)
               * Z.to_nat (num_cycles default_config))%nat = 100%nat)
    by reflexivity.
  rewrite E in Hlen. clear E.
  assert (Hall : firstn 100 (failures (rows (main default_config g)))
                 = failures (rows (main default_config g)))
    by (apply firstn_all2; exact Hlen).
  split; [exact Hlen|]. split; [exact Hall|]. split.
  - rewrite Hall. generalize (rows (main default_config g)). intros df.
    apply Forall_forall. intros r Hin. apply failures_In in Hin. tauto.
  - intros dataset. split; [reflexivity|]. split; [apply length_firstn|].
    exists (skipn 100 (failures dataset)). symmetry. apply firstn_skipn.
Qed.

(** ** Invariants that follow the position in the run *)

Section PositionInvariant.

Variable cfg : Config.
Variables Before After : Z -> MachineBehavior -> Prop.
Variable During : Z -> nat -> MachineBehavior -> Prop.

Hypothesis H_init : forall id g, Before 1 (fst (MachineBehavior_init id g)).
Hypothesis H_start_first :
  forall m,
    Before 1 m ->
    During 1 0 (set_cycles_since_service m (cycles_since_service m + 1)%Z).
Hypothesis H_start :
  forall c m g,
    (1 < c)%Z ->
    Before c m ->
    During c 0
      (set_cycles_since_service (fst (apply_maintenance m g))
         (cycles_since_service (fst (apply_maintenance m g)) + 1)%Z).
Hypothesis H_day :
  forall c j m sr d v,
    (1 <= c)%Z ->
    (j < Z.to_nat (days_per_cycle cfg))%nat ->
    sensor_ok sr ->
    During c j m ->
    During c (S j) (set_intermittent_fault_active (update_degradation m sr d) v)
    /\
    During c (S j)
      (set_previous_failures
         (set_intermittent_fault_active (update_degradation m sr d) v)
         (previous_failures m + 1)%Z).
Hypothesis H_end :
  forall c m,
    (1 <= c)%Z -> During c (Z.to_nat (days_per_cycle cfg)) m -> After c m.
Hypothesis H_next :
  forall c m, (1 <= c)%Z -> After c m -> Before (c + 1) m.

Lemma cycle_start_during (c : Z) (k : nat) (st : Globals) :
  (1 <= c)%Z ->
  (k < List.length (machines st))%nat ->
  machines_between Before After c k st ->
  machines_during Before After During c k 0 (cycle_start c k st).
Proof.
  intros Hc Hk Hb.
  destruct (nth_error (machines st) k) as [m|] eqn:E;
    [|apply nth_error_None in E; lia].
  destruct (cycle_start_effect c k st m E) as (m0 & Hms & Hcase).
  intros i mi Hi. rewrite Hms in Hi.
  apply nth_error_list_set_inv in Hi as [[-> ->]|[Hne Hi]].
  - split; [lia|]. split; [intros _|lia].
    destruct (Hb k m E) as [_ Hbefore]. specialize (Hbefore (le_n k)).
    destruct Hcase as [[Hgt ->]|[Hle ->]].
    + now apply H_start.
    + assert (c = 1%Z) by lia. subst c. now apply H_start_first.
  - destruct (Hb i mi Hi) as [Ha Hbefore].
    split; [exact Ha|]. split; [lia|]. intros Hlt. apply Hbefore. lia.
Qed.

Lemma day_body_during (c : Z) (k j : nat) (d : Z) (st : Globals) :
  (1 <= c)%Z ->
  (j < Z.to_nat (days_per_cycle cfg))%nat ->
  machines_during Before After During c k j st ->
  machines_during Before After During c k (S j) (day_body cfg c k d st).
Proof.
  intros Hc Hj Hd.
  destruct (nth_error (machines st) k) as [m|] eqn:E.
  - destruct (day_body_effect cfg c k d st m E)
      as (r & m' & sr & v & _ & Hms & _ & _ & _ & Hs & Hcase).
    destruct (Hd k m E) as (_ & Hdur & _). specialize (Hdur eq_refl).
    destruct (H_day c j m sr d v Hc Hj Hs Hdur) as [H1 H2].
    intros i mi Hi. rewrite Hms in Hi.
    apply nth_error_list_set_inv in Hi as [[-> ->]|[Hne Hi]].
    + split; [lia|]. split; [intros _|lia].
      destruct Hcase as [(_ & -> & _)|(_ & _ & -> & _)]; assumption.
    + destruct (Hd i mi Hi) as (Ha & _ & Hb).
      split; [exact Ha|]. split; [lia|exact Hb].
  - unfold day_body. rewrite E. intros i mi Hi.
    destruct (Hd i mi Hi) as (Ha & Hdur & Hb).
    split; [exact Ha|]. split; [|exact Hb].
    intros ->. congruence.
Qed.

Lemma day_loop_during (c : Z) (k : nat) (st : Globals) (j : nat) :
  (1 <= c)%Z ->
  (j <= Z.to_nat (days_per_cycle cfg))%nat ->
  machines_during Before After During c k 0 st ->
  machines_during Before After During c k j
    (fold_left (fun st d => day_body cfg c k d st)
       (range 1 (Z.of_nat j + 1)) st).
Proof.
  intros Hc Hj H0. unfold range. rewrite fold_left_map_list.
  replace (Z.to_nat (Z.of_nat j + 1 - 1)) with j by lia.
  apply (fold_left_seq_inv
           (fun s i => day_body cfg c k (1 + Z.of_nat i) s)
           (fun i s => machines_during Before After During c k i s)
           j 0%nat st H0).
  intros i s Hi Hs. apply day_body_during; [assumption|lia|assumption].
Qed.

Lemma machine_body_between (c : Z) (k : nat) (st : Globals) :
  (1 <= c)%Z ->
  (k < List.length (machines st))%nat ->
  machines_between Before After c k st ->
  machines_between Before After c (S k) (machine_body cfg c st k).
Proof.
  intros Hc Hk Hb. unfold machine_body, day_loop.
  pose proof (cycle_start_during c k st Hc Hk Hb) as H0.
  pose proof (day_loop_during c k _ (Z.to_nat (days_per_cycle cfg)) Hc
                (le_n _) H0) as Hd.
  assert (E : range 1 (Z.of_nat (Z.to_nat (days_per_cycle cfg)) + 1)
              = range 1 (days_per_cycle cfg + 1)).
  { unfold range. f_equal. f_equal. lia. }
  rewrite E in Hd.
  intros i mi Hi. destruct (Hd i mi Hi) as (Ha & Hdur & Hbefore).
  split; [|intros Hle; apply Hbefore; lia].
  intros Hlt. destruct (Nat.eq_dec i k) as [->|Hne].
  - apply H_end; [assumption|]. now apply Hdur.
  - apply Ha. lia.
Qed.

Lemma machine_prefix_between (c : Z) (k : nat) (st : Globals) :
  (1 <= c)%Z ->
  (k <= List.length (machines st))%nat ->
  Forall (Before c) (machines st) ->
  List.length
    (machines (fold_left (machine_body cfg c) (seq 0 k) st))
  = List.length (machines st) /\
  machines_between Before After c k
    (fold_left (machine_body cfg c) (seq 0 k) st).
Proof.
  intros Hc Hk H0.
  apply (fold_left_seq_inv (machine_body cfg c)
           (fun i s =>
              List.length (machines s) = List.length (machines st) /\
              machines_between Before After c i s)
           k 0%nat st).
  - split; [reflexivity|]. intros i mi Hi. split; [lia|]. intros _.
    eapply Forall_nth_error; eassumption.
  - intros i s Hi [Hlen Hs]. split.
    + rewrite machine_body_steps, exec_steps_machines_length. exact Hlen.
    + apply machine_body_between; [assumption|lia|assumption].
Qed.

Lemma machine_loop_next_cycle (c : Z) (st : Globals) :
  (1 <= c)%Z ->
  Forall (Before c) (machines st) ->
  Forall (Before (c + 1)) (machines (machine_loop cfg c st)).
Proof.
  intros Hc H0. unfold machine_loop.
  destruct (machine_prefix_between c (List.length (machines st)) st Hc
              (le_n _) H0) as [Hlen Hb].
  apply Forall_forall. intros m Hin.
  apply In_nth_error in Hin as [i Hi].
  destruct (Hb i m Hi) as [Ha _]. apply H_next; [assumption|].
  apply Ha. rewrite <- Hlen. apply nth_error_Some. congruence.
Qed.

Lemma cycle_prefix_before (g : Rng) (c : Z) :
  (1 <= c)%Z ->
  Forall (Before c)
    (machines
       (fold_left (fun st c => machine_loop cfg c st) (range 1 c)
          (initial_globals cfg g))).
Proof.
  intros Hc. unfold range. rewrite fold_left_map_list.
  pose proof
    (fold_left_seq_inv
       (fun s i => machine_loop cfg (1 + Z.of_nat i) s)
       (fun i s => Forall (Before (1 + Z.of_nat i)) (machines s))
       (Z.to_nat (c - 1)) 0%nat (initial_globals cfg g)) as Hfold.
  cbv beta in Hfold.
  replace (1 + Z.of_nat (0 + Z.to_nat (c - 1)))%Z with c in Hfold by lia.
  apply Hfold.
  - rewrite initial_globals_machines.
    apply (create_machines_preserves (Before 1)). exact H_init.
  - intros i s _ Hs.
    replace (1 + Z.of_nat (S i))%Z with (1 + Z.of_nat i + 1)%Z by lia.
    apply machine_loop_next_cycle; [lia|assumption].
Qed.

Lemma cycle_prefix_length (g : Rng) (cycles : list Z) :
  List.length
    (machines
       (fold_left (fun st c => machine_loop cfg c st) cycles
          (initial_globals cfg g)))
  = Z.to_nat (num_machines cfg).
Proof.
  rewrite cycle_loop_steps, exec_steps_machines_length.
  rewrite initial_globals_machines.
  rewrite <- (length_map machine_id), create_machines_ids, range_length.
  f_equal. lia.
Qed.

(** Where every machine stands at a given day of a run. *)
Lemma state_in_cycle_during (g : Rng) (c : Z) (k j : nat) :
  (1 <= c)%Z ->
  (Z.of_nat k < num_machines cfg)%Z ->
  (j <= Z.to_nat (days_per_cycle cfg))%nat ->
  machines_during Before After During c k j (state_in_cycle cfg g c k j).
Proof.
  intros Hc Hk Hj. unfold state_in_cycle. cbv zeta.
  pose proof (cycle_prefix_before g c Hc) as H0.
  pose proof (cycle_prefix_length g (range 1 c)) as Hlen.
  set (st0 := fold_left (fun st c0 => machine_loop cfg c0 st) (range 1 c)
                (initial_globals cfg g)) in *.
  destruct (machine_prefix_between c k st0 Hc) as [Hlen' Hb];
    [lia|assumption|].
  apply day_loop_during; [assumption|assumption|].
  apply cycle_start_during; [assumption|lia|assumption].
Qed.

(** Where every machine stands at the end of a run. *)
Lemma main_after :
  forall g,
    Forall (Before (Z.max 1 (num_cycles cfg + 1))) (machines (main cfg g)).
Proof.
  intros g. unfold main, cycle_loop.
  destruct (Z.le_gt_cases 1 (num_cycles cfg + 1)) as [H|H].
  - rewrite Z.max_r by lia. now apply cycle_prefix_before.
  - rewrite Z.max_l by lia.
    replace (range 1 (num_cycles cfg + 1)) with (@nil Z)
      by (unfold range; replace (Z.to_nat (num_cycles cfg + 1 - 1)) with O
            by lia; reflexivity).
    simpl. rewrite initial_globals_machines.
    apply (create_machines_preserves (Before 1)). exact H_init.
Qed.

End PositionInvariant.

(** ** The service and operating-hour counters *)

Lemma state_in_cycle_last (cfg : Config) (g : Rng) :
  (0 < num_machines cfg)%Z ->
  (0 < num_cycles cfg)%Z ->
  (0 <= days_per_cycle cfg)%Z ->
  state_in_cycle cfg g (num_cycles cfg)
    (Z.to_nat (num_machines cfg - 1)) (Z.to_nat (days_per_cycle cfg))
  = main cfg g.
Proof.
  intros HM HC HD. unfold state_in_cycle, main, cycle_loop. cbv zeta.
  assert (Er : range 1 (num_cycles cfg + 1)
               = range 1 (num_cycles cfg) ++ [num_cycles cfg]).
  { unfold range.
    replace (Z.to_nat (num_cycles cfg + 1 - 1))
      with (S (Z.to_nat (num_cycles cfg - 1))) by lia.
    rewrite seq_S, map_app. cbn [map Nat.add]. f_equal. f_equal. lia. }
  rewrite Er, fold_left_app. cbn [fold_left].
  set (st0 := fold_left (fun st c => machine_loop cfg c st)
                (range 1 (num_cycles cfg)) (initial_globals cfg g)).
  unfold machine_loop.
  assert (Hlen : List.length (machines st0)
                 = S (Z.to_nat (num_machines cfg - 1))).
  { subst st0. rewrite cycle_loop_steps, exec_steps_machines_length.
    rewrite initial_globals_machines.
    rewrite <- (length_map machine_id), create_machines_ids, range_length.
    lia. }
  rewrite Hlen, seq_S, fold_left_app. cbn [fold_left Nat.add].
  unfold machine_body at 1, day_loop.
  replace (Z.of_nat (Z.to_nat (days_per_cycle cfg)) + 1)%Z
    with (days_per_cycle cfg + 1)%Z by lia.
  reflexivity.
Qed.

(** X15: cycles_since_service counts the cycles a machine has started and
    is never reset by maintenance, and total_operating_hours counts 24 hours
    per simulated day: the machine that is [j] days into cycle [c] has
    cycles_since_service = c and 24 * ((c - 1) * D + j) operating hours, and
    at the end of a run every machine has cycles_since_service = C and
    24 * C * D operating hours (with C and D taken as 0 when negative). *)
Theorem service_and_hour_counters (cfg : Config) (g : Rng) :
  Forall
    (fun m =>
       cycles_since_service m = Z.max 0 (num_cycles cfg) /\
       total_operating_hours m
       = (24 * Z.max 0 (num_cycles cfg) * Z.max 0 (days_per_cycle cfg))%Z)
    (machines (main cfg g)) /\
  (forall c k j m,
     (1 <= c)%Z ->
     (Z.of_nat k < num_machines cfg)%Z ->
     (j <= Z.to_nat (days_per_cycle cfg))%nat ->
     nth_error (machines (state_in_cycle cfg g c k j)) k = Some m ->
     cycles_since_service m = c /\
     total_operating_hours m
     = (24 * ((c - 1) * Z.max 0 (days_per_cycle cfg) + Z.of_nat j))%Z).
Proof.
  set (Dz := Z.max 0 (days_per_cycle cfg)).
  set (Before := fun (c : Z) (m : MachineBehavior) =>
                   cycles_since_service m = (c - 1)%Z /\
                   total_operating_hours m = (24 * ((c - 1) * Dz))%Z).
  set (During := fun (c : Z) (j : nat) (m : MachineBehavior) =>
                   cycles_since_service m = c /\
                   total_operating_hours m
                   = (24 * ((c - 1) * Dz + Z.of_nat j))%Z).
  set (After := fun (c : Z) (m : MachineBehavior) =>
                  cycles_since_service m = c /\
                  total_operating_hours m = (24 * (c * Dz))%Z).
  assert (H_init : forall id g0, Before 1%Z (fst (MachineBehavior_init id g0))).
  { intros id g0. unfold MachineBehavior_init, bind, ret.
    repeat destruct (np_random_uniform _ _ _). subst Before.
    cbn [fst cycles_since_service total_operating_hours]. lia. }
  assert (H_start_first :
            forall m, Before 1%Z m ->
                      During 1%Z 0%nat
                        (set_cycles_since_service m
                           (cycles_since_service m + 1)%Z)).
  { intros m [H1 H2]. subst During.
    cbn [cycles_since_service total_operating_hours set_cycles_since_service set_intermittent_fault_active set_previous_failures update_degradation apply_maintenance_with].
    lia. }
  assert (H_start :
            forall c m g0, (1 < c)%Z -> Before c m ->
              During c 0%nat
                (set_cycles_since_service (fst (apply_maintenance m g0))
                   (cycles_since_service (fst (apply_maintenance m g0)) + 1)%Z)).
  { intros c m g0 Hc [H1 H2]. subst During.
    rewrite apply_maintenance_effectiveness.
    cbn [cycles_since_service total_operating_hours set_cycles_since_service set_intermittent_fault_active set_previous_failures update_degradation apply_maintenance_with].
    lia. }
  assert (H_day :
            forall c j m sr d v,
              (1 <= c)%Z -> (j < Z.to_nat (days_per_cycle cfg))%nat ->
              sensor_ok sr -> During c j m ->
              During c (S j)
                (set_intermittent_fault_active (update_degradation m sr d) v)
              /\
              During c (S j)
                (set_previous_failures
                   (set_intermittent_fault_active (update_degradation m sr d)
                      v)
                   (previous_failures m + 1)%Z)).
  { intros c j m sr d v Hc Hj Hs [H1 H2]. subst During.
    cbn [cycles_since_service total_operating_hours set_cycles_since_service set_intermittent_fault_active set_previous_failures update_degradation apply_maintenance_with].
    lia. }
  assert (H_end :
            forall c m, (1 <= c)%Z ->
                        During c (Z.to_nat (days_per_cycle cfg)) m ->
                        After c m).
  { intros c m Hc [H1 H2]. subst After Dz. cbv beta.
    split; [assumption|]. lia. }
  assert (H_next : forall c m, (1 <= c)%Z -> After c m -> Before (c + 1)%Z m).
  { intros c m Hc [H1 H2]. subst Before. cbv beta. split; [lia|].
    rewrite H2. f_equal. lia. }
  split.
  - eapply Forall_impl;
      [|apply (main_after cfg Before After During H_init H_start_first
                 H_start H_day H_end H_next g)].
    intros m [H1 H2]. subst Dz. split; [lia|]. rewrite H2.
    destruct (Z.le_gt_cases 1 (num_cycles cfg + 1));
      [rewrite Z.max_r by lia|rewrite Z.max_l by lia];
      [rewrite (Z.max_r 0 (num_cycles cfg)) by lia
      |rewrite (Z.max_l 0 (num_cycles cfg)) by lia]; lia.
  - intros c k j m Hc Hk Hj Hm.
    destruct (state_in_cycle_during cfg Before After During H_init
                H_start_first H_start H_day H_end H_next g c k j Hc Hk Hj
                k m Hm) as (_ & Hd & _).
    exact (Hd eq_refl).
Qed.

(** ** How far wear and lubrication can drift within a cycle *)

Lemma pow_998_lower (n : nat) : 1 - INR n * 0.002 <= 0.998 ^ n.
Proof.
  induction n as [|n IH].
  - simpl. lra.
  - rewrite S_INR. simpl pow. pose proof (pos_INR n) as Hn. nra.
Qed.

Lemma update_degradation_bearing_wear_step (m : MachineBehavior)
    (sr : SensorReadings) (d : Z) :
  machine_ok m ->
  sensor_ok sr ->
  bearing_wear (update_degradation m sr d)
  <= bearing_wear m + max_daily_bearing_wear.
Proof.
  intros [(Ha & Hw & Hbr & Hq) (Hb & Hm & Hl)] (Ht & Hv & Hr & Hld).
  unfold update_degradation, max_daily_bearing_wear; cbn [bearing_wear].
  assert (Hinv : 0 < 1 / wear_resistance m <= 2).
  { assert (Hpos : 0 < 1 / wear_resistance m)
      by (apply Rdiv_lt_0_compat; lra).
    assert (E : wear_resistance m * (1 / wear_resistance m) = 1)
      by (field; lra).
    split; [exact Hpos|]. nra. }
  assert (Haf : 0 <= Rmin 2.0 (1.0 + age m / 10) <= 1.8).
  { unfold Rmin. destruct (Rle_dec _ _); lra. }
  assert (Hx : 0 <= vibration sr * 0.5 + load sr / 100 * 0.1 <= 0.348)
    by lra.
  set (x := vibration sr * 0.5 + load sr / 100 * 0.1) in *.
  set (w := 1 / wear_resistance m) in *.
  set (af := Rmin 2.0 (1.0 + age m / 10)) in *.
  assert (Hxw : 0 <= x * w <= 0.696) by nra.
  assert (Hinc : x * w * 0.001 * af <= 0.0012528) by nra.
  unfold Rmin. destruct (Rle_dec _ _); lra.
Qed.

Lemma update_degradation_lubrication_step (m : MachineBehavior)
    (sr : SensorReadings) (d : Z) :
  0 <= lubrication_quality m ->
  lubrication_quality m * 0.998
  <= lubrication_quality (update_degradation m sr d).
Proof.
  intros Hl. unfold update_degradation; cbn [lubrication_quality].
  eapply Rle_trans; [|apply Rmax_r]. destruct (Rgtb _ _); nra.
Qed.

Lemma drift_bounds_dead_branches (m : MachineBehavior) :
  bearing_wear m <= 0.645504 ->
  0.576 <= lubrication_quality m ->
  Rgtb (bearing_wear m) 0.8 = false /\
  Rgtb (bearing_wear m) 0.95 = false /\
  Rltb (lubrication_quality m) 0.05 = false /\
  forall sr d, nth 2 (failure_mode_risks m sr d) 0 = 0.
Proof.
  intros Hb Hl.
  split; [apply Rgtb_false; lra|]. split; [apply Rgtb_false; lra|].
  split; [apply Rltb_false; lra|].
  intros sr d. unfold failure_mode_risks. cbn [nth].
  replace (Rltb (lubrication_quality m) 0.3) with false
    by (symmetry; apply Rltb_false; lra).
  replace (Rltb (lubrication_quality m) 0.1) with false
    by (symmetry; apply Rltb_false; lra).
  reflexivity.
Qed.

(** X16: with at most 180 days per cycle (the default), at every day of a
    run every machine has bearing_wear <= 0.645504 and lubrication_quality
    >= 0.576, and so has the updated state the risk model is called on.
    Hence the tests bearing_wear > 0.8, bearing_wear > 0.95 and
    lubrication_quality < 0.05 of [check_failure_risk] are never true and
    the lubrication failure mode always contributes risk 0: a hard failure
    can only come from the temperature, the vibration or the random
    draw. *)
Theorem wear_and_lubrication_drift_bounded (cfg : Config) (g : Rng) (c : Z)
    (k j : nat) :
  (days_per_cycle cfg <= 180)%Z ->
  (1 <= c)%Z ->
  (Z.of_nat k < num_machines cfg)%Z ->
  (j <= Z.to_nat (days_per_cycle cfg))%nat ->
  Forall
    (fun m =>
       bearing_wear m <= 0.645504 /\
       0.576 <= lubrication_quality m /\
       Rgtb (bearing_wear m) 0.8 = false /\
       Rgtb (bearing_wear m) 0.95 = false /\
       Rltb (lubrication_quality m) 0.05 = false /\
       forall sr d, nth 2 (failure_mode_risks m sr d) 0 = 0)
    (machines (state_in_cycle cfg g c k j)) /\
  (forall m sr d,
     nth_error (machines (state_in_cycle cfg g c k j)) k = Some m ->
     (j < Z.to_nat (days_per_cycle cfg))%nat ->
     sensor_ok sr ->
     bearing_wear (update_degradation m sr d) <= 0.645504 /\
     0.576 <= lubrication_quality (update_degradation m sr d) /\
     Rgtb (bearing_wear (update_degradation m sr d)) 0.95 = false /\
     Rltb (lubrication_quality (update_degradation m sr d)) 0.05 = false /\
     forall sr' d',
       nth 2 (failure_mode_risks (update_degradation m sr d) sr' d') 0 = 0).
Proof.
  intros HD Hc Hk Hj.
  set (D' := Z.to_nat (days_per_cycle cfg)) in *.
  assert (HD' : INR D' <= 180).
  { rewrite INR_IZR_INZ. apply IZR_le. lia. }
  assert (Hpos : 0 <= INR D') by apply pos_INR.
  set (delta := max_daily_bearing_wear).
  assert (Hdelta : delta = 0.0012528) by reflexivity.
  set (Before := fun (c : Z) (m : MachineBehavior) =>
                   machine_ok m /\
                   bearing_wear m <= 0.42 + INR D' * delta /\
                   0.576 <= lubrication_quality m /\
                   (c = 1%Z ->
                    bearing_wear m <= 0.42 /\ 0.9 <= lubrication_quality m)).
  set (During := fun (c : Z) (j : nat) (m : MachineBehavior) =>
                   machine_ok m /\
                   bearing_wear m <= 0.42 + INR j * delta /\
                   0.9 * 0.998 ^ j <= lubrication_quality m).
  set (After := fun (c : Z) (m : MachineBehavior) =>
                  machine_ok m /\
                  bearing_wear m <= 0.42 + INR D' * delta /\
                  0.9 * 0.998 ^ D' <= lubrication_quality m).
  assert (Hstep : forall c j m sr d v,
            sensor_ok sr -> During c j m ->
            During c (S j)
              (set_intermittent_fault_active (update_degradation m sr d) v)).
  { intros c0 j0 m sr d v Hs (Hok & Hb & Hl). subst During. cbv beta.
    split; [apply set_intermittent_fault_active_ok;
            now apply update_degradation_ok|].
    cbn [bearing_wear lubrication_quality set_intermittent_fault_active].
    pose proof (update_degradation_bearing_wear_step m sr d Hok Hs) as Hb'.
    assert (Hl0 : 0 <= lubrication_quality m)
      by (destruct Hok as [_ (_ & _ & Hlq)]; lra).
    pose proof (update_degradation_lubrication_step m sr d Hl0) as Hl'.
    fold delta in Hb'. rewrite S_INR. simpl pow. split; nra. }
  assert (H_init : forall id g0, Before 1%Z (fst (MachineBehavior_init id g0))).
  { intros id g0. subst Before. cbv beta.
    split; [apply MachineBehavior_init_ok|].
    unfold MachineBehavior_init, bind, ret.
    repeat destruct (np_random_uniform _ _ _).
    cbn [fst bearing_wear lubrication_quality]. repeat split; nra. }
  assert (H_start_first :
            forall m, Before 1%Z m ->
                      During 1%Z 0%nat
                        (set_cycles_since_service m
                           (cycles_since_service m + 1)%Z)).
  { intros m (Hok & _ & _ & H1). destruct (H1 eq_refl) as [Hb Hl].
    subst During. cbv beta. split; [exact Hok|].
    cbn [bearing_wear lubrication_quality set_cycles_since_service INR pow].
    split; lra. }
  assert (H_start :
            forall c m g0, (1 < c)%Z -> Before c m ->
              During c 0%nat
                (set_cycles_since_service (fst (apply_maintenance m g0))
                   (cycles_since_service (fst (apply_maintenance m g0)) + 1)%Z)).
  { intros c0 m g0 Hc0 (Hok & Hb & Hl & _). subst During. cbv beta.
    split; [apply set_cycles_since_service_ok; now apply apply_maintenance_ok|].
    rewrite apply_maintenance_effectiveness.
    assert (Hu : 0.8 <= fst (random_uniform 0.8 1.0 g0) <= 1.0)
      by (apply random_uniform_range; lra).
    destruct Hok as [(_ & _ & _ & Hq) (Hb0 & _ & Hl0)].
    assert (He : 0.56 <= maintenance_quality m
                         * fst (random_uniform 0.8 1.0 g0) <= 1) by nra.
    set (e := maintenance_quality m * fst (random_uniform 0.8 1.0 g0)) in *.
    cbn [bearing_wear lubrication_quality set_cycles_since_service
         apply_maintenance_with INR pow].
    split; [nra|]. unfold Rmin. destruct (Rle_dec _ _); lra. }
  assert (H_day :
            forall c j m sr d v,
              (1 <= c)%Z -> (j < Z.to_nat (days_per_cycle cfg))%nat ->
              sensor_ok sr -> During c j m ->
              During c (S j)
                (set_intermittent_fault_active (update_degradation m sr d) v)
              /\
              During c (S j)
                (set_previous_failures
                   (set_intermittent_fault_active (update_degradation m sr d)
                      v)
                   (previous_failures m + 1)%Z)).
  { intros c0 j0 m sr d v _ _ Hs Hd.
    pose proof (Hstep c0 j0 m sr d v Hs Hd) as H1.
    split; [exact H1|]. exact H1. }
  assert (H_end :
            forall c m, (1 <= c)%Z ->
                        During c (Z.to_nat (days_per_cycle cfg)) m ->
                        After c m).
  { intros c0 m _ H. exact H. }
  assert (H_next : forall c m, (1 <= c)%Z -> After c m -> Before (c + 1)%Z m).
  { intros c0 m Hc0 (Hok & Hb & Hl). subst Before. cbv beta.
    split; [exact Hok|]. split; [exact Hb|].
    pose proof (pow_998_lower D') as Hp.
    split; [nra|]. intros E. lia. }
  pose proof (state_in_cycle_during cfg Before After During H_init
                H_start_first H_start H_day H_end H_next g c k j Hc Hk Hj)
    as Hpoint.
  assert (Hdur : forall j0 m, (j0 <= D')%nat -> During c j0 m ->
                              bearing_wear m <= 0.645504 /\
                              0.576 <= lubrication_quality m).
  { intros j0 m Hj0 (_ & Hb & Hl).
    assert (Hj1 : INR j0 <= INR D') by now apply le_INR.
    pose proof (pos_INR j0) as Hj2.
    pose proof (pow_998_lower j0) as Hp. split; nra. }
  assert (Hall : forall i mi,
            nth_error (machines (state_in_cycle cfg g c k j)) i = Some mi ->
            bearing_wear mi <= 0.645504 /\ 0.576 <= lubrication_quality mi).
  { intros i mi Hi. destruct (Hpoint i mi Hi) as (Ha & Hd & Hb).
    destruct (Nat.lt_trichotomy i k) as [Hlt|[Heq|Hgt]].
    - apply (Hdur D' mi (le_n _)). exact (Ha Hlt).
    - apply (Hdur j mi Hj). exact (Hd Heq).
    - destruct (Hb Hgt) as (_ & Hbw & Hlq & _). split; [nra|exact Hlq]. }
  split.
  - apply Forall_forall. intros m Hin.
    apply In_nth_error in Hin as [i Hi].
    destruct (Hall i m Hi) as [Hb Hl].
    split; [exact Hb|]. split; [exact Hl|].
    now apply drift_bounds_dead_branches.
  - intros m sr d Hm Hlt Hs.
    destruct (Hpoint k m Hm) as (_ & Hd & _). specialize (Hd eq_refl).
    pose proof (Hstep c j m sr d
                  (intermittent_fault_active (update_degradation m sr d))
                  Hs Hd) as Hnext.
    rewrite set_intermittent_fault_active_same in Hnext.
    destruct (Hdur (S j) _ Hlt Hnext) as [Hb Hl].
    split; [exact Hb|]. split; [exact Hl|].
    destruct (drift_bounds_dead_branches _ Hb Hl) as (_ & H2 & H3 & H4).
    split; [exact H2|]. split; [exact H3|exact H4].
Qed.

Lemma wear_and_lubrication_drift_bounded_witness :
  Forall
    (fun m => bearing_wear m <= 0.645504 /\ 0.576 <= lubrication_quality m)
    (machines (state_in_cycle default_config rng_zero 1 0 0)).
Proof.
  destruct (wear_and_lubrication_drift_bounded default_config rng_zero 1 0 0)
    as [H _].
  - unfold default_config, DAYS_PER_CYCLE. cbn [days_per_cycle]. lia.
  - lia.
  - unfold default_config, NUM_MACHINES. cbn [num_machines]. lia.
  - lia.
  - eapply Forall_impl; [|exact H]. intros m (H1 & H2 & _). now split.
Defined.

(** ** Records are only ever appended *)

Lemma exec_rows_extend (cfg : Config) (st : Globals) (s : Step) :
  exists added, rows (exec cfg st s) = rows st ++ added.
Proof.
  destruct s as [cycle k|cycle k d]; cbn [exec].
  - exists []. now rewrite cycle_start_rows, app_nil_r.
  - destruct (nth_error (machines st) k) as [m|] eqn:E.
    + destruct (day_body_shape cfg cycle k d st m E) as (r & Hr & _).
      now exists [r].
    + exists []. unfold day_body. now rewrite E, app_nil_r.
Qed.

Lemma steps_rows_extend (cfg : Config) (l : list Step) :
  forall st, exists added,
    rows (fold_left (exec cfg) l st) = rows st ++ added.
Proof.
  induction l as [|s l IH]; intros st; simpl.
  - exists []. now rewrite app_nil_r.
  - destruct (IH (exec cfg st s)) as [a2 H2].
    destruct (exec_rows_extend cfg st s) as [a1 H1].
    exists (a1 ++ a2). now rewrite H2, H1, app_assoc.
Qed.

(** X17: the driver only appends to the dataset: the records present at any
    point of a run are, unchanged and in the same order, the first records
    of the final dataset. *)
Theorem records_are_only_appended (cfg : Config) (g : Rng) (n : nat) :
  exists later,
    rows (main cfg g) = rows (run_prefix cfg g n) ++ later.
Proof.
  unfold main, run_prefix. cbv zeta. rewrite cycle_loop_schedule.
  set (sched := schedule cfg (List.length (machines (initial_globals cfg g)))).
  replace (fold_left (exec cfg) sched (initial_globals cfg g))
    with (fold_left (exec cfg) (firstn n sched ++ skipn n sched)
            (initial_globals cfg g))
    by now rewrite firstn_skipn.
  rewrite fold_left_app. apply steps_rows_extend.
Qed.

(** ** The seasonal terms *)

(** X18: the seasonal load factor stays within 0.9 and 1.1 and the seasonal
    ambient temperature term within -3 and 3; both repeat every 365 days of
    the day index they are given. *)
Theorem seasonal_terms_bounded_and_periodic (day : Z) :
  0.9 <= seasonal_factor day <= 1.1 /\
  -3 <= seasonal_temp_effect day <= 3 /\
  seasonal_factor (day + 365) = seasonal_factor day /\
  seasonal_temp_effect (day + 365) = seasonal_temp_effect day.
Proof.
  unfold seasonal_factor, seasonal_temp_effect.
  assert (E : ((day + 365) mod 365 = day mod 365)%Z).
  { replace (day + 365)%Z with (day + 1 * 365)%Z by lia.
    apply Z_mod_plus_full. }
  rewrite E.
  pose proof (SIN_bound (2 * PI * IZR (day mod 365) / 365)) as [H1 H2].
  repeat split; lra.
Qed.

(** ** The decimal precision of the sensor columns *)

Lemma py_round_decimal (x : R) (n : nat) :
  exists z, py_round x n = IZR z / 10 ^ n.
Proof. unfold py_round. eexists. reflexivity. Qed.

Lemma clamp_decimal (lo hi : Z) (z : Z) (p : R) :
  exists z', Rmax (IZR lo / p) (Rmin (IZR hi / p) (IZR z / p)) = IZR z' / p.
Proof.
  unfold Rmax, Rmin.
  destruct (Rle_dec (IZR hi / p) (IZR z / p));
    destruct (Rle_dec (IZR lo / p) _); eauto.
Qed.

Lemma calculate_sensor_readings_decimal (self : MachineBehavior)
    (day_in_cycle : Z) (current_load : R) (g : Rng) :
  let sr := fst (calculate_sensor_readings self day_in_cycle current_load g) in
  (exists z, temperature sr = IZR z / 100) /\
  (exists z, vibration sr = IZR z / 10000) /\
  (exists z, rpm sr = IZR z / 10) /\
  (exists z, load sr = IZR z / 10).
Proof.
  cbv zeta. unfold calculate_sensor_readings.
  rand_post. unfold ret; cbn [fst temperature vibration rpm load].
  split; [|split; [|split]].
  - match goal with
    | |- exists z, Rmax 40 (Rmin 95 (py_round ?x 2)) = _ =>
        destruct (py_round_decimal x 2) as [z ->]
    end.
    destruct (clamp_decimal 4000 9500 z (10 ^ 2)) as [z' Hz'].
    exists z'. replace 100 with (10 ^ 2) by (simpl; lra). rewrite <- Hz'.
    f_equal; [simpl; lra|]. f_equal. simpl; lra.
  - match goal with
    | |- exists z, Rmax 0.02 (Rmin 0.5 (py_round ?x 4)) = _ =>
        destruct (py_round_decimal x 4) as [z ->]
    end.
    destruct (clamp_decimal 200 5000 z (10 ^ 4)) as [z' Hz'].
    exists z'. replace 10000 with (10 ^ 4) by (simpl; lra). rewrite <- Hz'.
    f_equal; [simpl; lra|]. f_equal. simpl; lra.
  - match goal with
    | |- exists z, Rmax 1380 (py_round ?x 1) = _ =>
        destruct (py_round_decimal x 1) as [z ->]
    end.
    unfold Rmax. destruct (Rle_dec _ _).
    + exists z. simpl. lra.
    + exists 13800%Z. lra.
  - destruct (py_round_decimal current_load 1) as [z ->].
    exists z. simpl. lra.
Qed.

Lemma exec_rows_decimal (cfg : Config) (st : Globals) (s : Step) :
  Forall
    (fun r =>
       (exists z, row_temperature r = IZR z / 100) /\
       (exists z, row_vibration r = IZR z / 10000) /\
       (exists z, row_rpm r = IZR z / 10) /\
       (exists z, row_load r = IZR z / 10))
    (rows st) ->
  Forall
    (fun r =>
       (exists z, row_temperature r = IZR z / 100) /\
       (exists z, row_vibration r = IZR z / 10000) /\
       (exists z, row_rpm r = IZR z / 10) /\
       (exists z, row_load r = IZR z / 10))
    (rows (exec cfg st s)).
Proof.
  intros H. destruct s as [cycle k|cycle k d]; cbn [exec].
  - now rewrite cycle_start_rows.
  - destruct (nth_error (machines st) k) as [m|] eqn:E.
    + rewrite (day_body_eq _ _ _ _ _ _ E). cbn [rows].
      apply Forall_app. split; [assumption|]. constructor; [|constructor].
      cbn [row_temperature row_vibration row_rpm row_load].
      apply calculate_sensor_readings_decimal.
    + unfold day_body. now rewrite E.
Qed.

(** X19: in every record of a run the temperature is a whole number of
    hundredths, the vibration a whole number of ten-thousandths, and the rpm
    and the load whole numbers of tenths: the precision the rounding of
    [calculate_sensor_readings] gives them, which the clamps keep. *)
Theorem sensor_columns_have_fixed_precision (cfg : Config) (g : Rng) :
  Forall
    (fun r =>
       (exists z, row_temperature r = IZR z / 100) /\
       (exists z, row_vibration r = IZR z / 10000) /\
       (exists z, row_rpm r = IZR z / 10) /\
       (exists z, row_load r = IZR z / 10))
    (rows (main cfg g)).
Proof.
  unfold main. rewrite cycle_loop_schedule. apply fold_left_preserves.
  - intros s a. apply exec_rows_decimal.
  - unfold initial_globals. destruct (create_machines _ _). constructor.
Qed.
